(** * Flytrap: the IPv4 range aggregator and the ARP tracker

    A shallow embedding of [lib/libft/ft_ip4agg.c] and of
    [sbin/flytrap/arp.c], and the properties of the two tries that the
    design document states about them.

    Conventions of the embedding.
    - C integers are [Z]; every operation that can wrap in C has its
      wrap-around written out ([u8], [u32], [u64]).  [unsigned long] is
      64 bits wide, as the design document has it for the coverage
      counter.
    - A [struct] is a record, an array of child pointers a list of
      options ([None] is [NULL]).  Every node has exactly one parent, so a
      subtree is a value and an update in place rebuilds the path to it.
    - [calloc] takes its answers from an oracle, a list of booleans that
      the state carries along: [true] is a successful allocation, [false]
      (or an exhausted oracle) is [NULL].
    - What C leaves undefined (a shift by 32 or more, an index outside an
      array, a read of the wrong member of a union), a failed [ft_assert]
      and a recursion deeper than the fuel are outcomes of their own
      ([Stuck]), never a default value. *)

From Stdlib Require Import ZArith Lia List String DecimalString.
From Stdlib.Strings Require Import Byte.
From stdpp Require Import base numbers list.

Local Open Scope Z_scope.
#[local] Set Warnings "-register-all".

(** ** Machine integers and outcomes *)

Definition u8 (x : Z) : Z := x mod 2 ^ 8.
Definition u32 (x : Z) : Z := x mod 2 ^ 32.
Definition u64 (x : Z) : Z := x mod 2 ^ 64.

Inductive fault : Type :=
| OutOfFuel      (* the recursion went deeper than the fuel *)
| Undefined      (* behaviour that C leaves undefined *)
| AssertFailed.  (* ft_assert aborted the process *)

Inductive outcome (A : Type) : Type :=
| Ret (a : A)
| Stuck (f : fault).
Arguments Ret {A} a.
Arguments Stuck {A} f.

Definition obind {A B : Type} (m : outcome A) (k : A -> outcome B) : outcome B :=
  match m with
  | Ret a => k a
  | Stuck f => Stuck f
  end.

Notation "x <-- m ;; k" := (obind m (fun x => k))
  (at level 100, m at next level, right associativity).

(** The allocation oracle. *)
Definition heap : Type := list bool.

Definition calloc (h : heap) : bool * heap :=
  match h with
  | [] => (false, [])
  | b :: h' => (b, h')
  end.

(** [x >> k] and [x << k] on 32-bit operands: undefined unless [0 <= k < 32]. *)
Definition shr32 (x k : Z) : outcome Z :=
  if (0 <=? k) && (k <? 32) then Ret (Z.shiftr x k) else Stuck Undefined.

Definition shl32 (x k : Z) : outcome Z :=
  if (0 <=? k) && (k <? 32) then Ret (u32 (Z.shiftl x k)) else Stuck Undefined.

(** ** The address-set aggregator ([ft_ip4agg.c]) *)

Module Ip4agg.

Definition ip4a_bits : Z := 4.
Definition ip4a_minplen : Z := 8.
Definition ip4a_maxplen : Z := 32.

(** [struct ip4a_node]. *)
Inductive ip4a_node : Type := Ip4aNode {
  addr : Z;                          (* uint32_t: network address *)
  plen : Z;                          (* uint8_t: prefix length *)
  leaf : bool;                       (* leaf node flag *)
  coverage : Z;                      (* unsigned long: addresses in subtree *)
  sub : list (option ip4a_node)      (* children *)
}.

Definition set_leaf (b : bool) (n : ip4a_node) : ip4a_node :=
  Ip4aNode (addr n) (plen n) b (coverage n) (sub n).
Definition set_coverage (c : Z) (n : ip4a_node) : ip4a_node :=
  Ip4aNode (addr n) (plen n) (leaf n) c (sub n).
Definition set_sub (s : list (option ip4a_node)) (n : ip4a_node) : ip4a_node :=
  Ip4aNode (addr n) (plen n) (leaf n) (coverage n) s.

(** The number of child slots, [1U << ip4a_bits]. *)
Definition nsub : nat := Z.to_nat (Z.shiftl 1 ip4a_bits).

(** What [calloc] hands out: all fields zero, all children [NULL]. *)
Definition zero_node : ip4a_node := Ip4aNode 0 0 false 0 (replicate nsub None).

(** [ip4a_new]. *)
Definition ip4a_new (h : heap) : option ip4a_node * heap :=
  match calloc h with
  | (true, h') => (Some (set_leaf true zero_node), h')
  | (false, h') => (None, h')
  end.

(** [ip4a_delete]: every child is destroyed and its slot set to [NULL]. *)
Definition ip4a_delete (n : ip4a_node) : ip4a_node :=
  set_sub (replicate nsub None ++ drop nsub (sub n)) n.

(** The host mask of a node, [0xffffffffLU >> n->plen], stored in a
    [uint32_t].  The shift is on an [unsigned long]. *)
Definition host_mask (n : ip4a_node) : outcome Z :=
  if (0 <=? plen n) && (plen n <? 64)
  then Ret (u32 (Z.shiftr 0xffffffff (plen n)))
  else Stuck Undefined.

(** The two places where a subtree is replaced by one leaf. *)
Definition collapse (mask : Z) (n : ip4a_node) : ip4a_node :=
  set_coverage (u64 (mask + 1)) (set_leaf true (ip4a_delete n)).

Definition insert_result : Type := (Z * ip4a_node * heap)%type.

(** The loop [for (i = fsub; i <= lsub; ++i)] of [ip4a_insert], over the
    indices still to visit.  [rec] is the recursive call. *)
Fixpoint ip4a_insert_loop
    (rec : ip4a_node -> Z -> Z -> heap -> outcome insert_result)
    (splen first last : Z) (idx : list Z) (n : ip4a_node) (h : heap)
    : outcome insert_result :=
  match idx with
  | [] => Ret (0, n, h)
  | i :: idx' =>
      match sub n !! Z.to_nat i with
      | None => Stuck Undefined
      | Some slot =>
          (* create a new node *)
          created <--
            match slot with
            | Some sn => Ret (Some (sn, n, h))
            | None =>
                match calloc h with
                | (false, h') => Ret None
                | (true, h') =>
                    off <-- shl32 i (u32 (32 - splen)) ;;
                    let sn := Ip4aNode (Z.lor (addr n) off) (u8 splen) true 0
                                       (replicate nsub None) in
                    Ret (Some (sn,
                               set_leaf false
                                 (set_sub (<[Z.to_nat i := Some sn]> (sub n)) n),
                               h'))
                end
            end ;;
          match created with
          | None => Ret (-1, n, snd (calloc h))
          | Some (sn, n1, h1) =>
              (* insert into subnet and adjust our coverage number *)
              r <-- rec sn first last h1 ;;
              let '(ret, sn', h2) := r in
              let n2 := set_coverage (u64 (coverage n1 + coverage sn'))
                          (set_sub (<[Z.to_nat i := Some sn']> (sub n1)) n1) in
              if ret =? 0
              then ip4a_insert_loop rec splen first last idx' n2 h2
              else Ret (ret, n2, h2)
          end
      end
  end.

(** The body of [ip4a_insert]. *)
Definition ip4a_insert_body
    (rec : ip4a_node -> Z -> Z -> heap -> outcome insert_result)
    (n : ip4a_node) (first last : Z) (h : heap) : outcome insert_result :=
  mask <-- host_mask n ;;
  (* clip the range to our subnet *)
  let first := if first <? addr n then addr n else first in
  let last := if Z.lor (addr n) mask <? last then Z.lor (addr n) mask else last in
  if (ip4a_minplen <=? plen n) &&
     (((first =? addr n) && (last =? Z.lor (addr n) mask)) ||
      (ip4a_maxplen <? u32 (plen n + ip4a_bits)))
  then Ret (0, collapse mask n, h)
  else
    let splen := u32 (plen n + ip4a_bits) in
    f <-- shr32 first (u32 (32 - splen)) ;;
    l <-- shr32 last (u32 (32 - splen)) ;;
    let fsub := f mod Z.shiftl 1 ip4a_bits in
    let lsub := l mod Z.shiftl 1 ip4a_bits in
    r <-- ip4a_insert_loop rec splen first last (seqZ fsub (lsub - fsub + 1)) n h ;;
    let '(ret, n1, h1) := r in
    if ret =? 0
    then
      (* perform aggregation, unless we are at the root *)
      let mincov := u32 (mask + 1) in
      if (ip4a_minplen <=? plen n1) && (0 <? mincov) && (mincov <=? coverage n1)
      then Ret (0, collapse mask n1, h1)
      else Ret (0, n1, h1)
    else Ret (ret, n1, h1).

Fixpoint ip4a_insert_rec (fuel : nat) (n : ip4a_node) (first last : Z) (h : heap)
    : outcome insert_result :=
  match fuel with
  | O => Stuck OutOfFuel
  | S fuel' => ip4a_insert_body (ip4a_insert_rec fuel') n first last h
  end.

(** A path from the root passes nodes of prefix lengths 0, 4, ..., 32. *)
Definition depth_fuel : nat := 9.

(** [ip4a_insert]: the arguments are [uint32_t]. *)
Definition ip4a_insert (n : ip4a_node) (first last : Z) (h : heap)
    : outcome insert_result :=
  ip4a_insert_rec depth_fuel n (u32 first) (u32 last) h.

(** [ip4a_remove] *)
Definition ip4a_remove (n : ip4a_node) (first last : Z) : Z := -1.

(** [ip4a_lookup] *)
Fixpoint ip4a_lookup_rec (fuel : nat) (n : ip4a_node) (a : Z) : outcome Z :=
  match fuel with
  | O => Stuck OutOfFuel
  | S fuel' =>
      mask <-- host_mask n ;;
      (* within our subtree? *)
      if (addr n <=? a) && (a <=? Z.lor (addr n) mask)
      then
        (* fully covered? *)
        if coverage n =? u64 (mask + 1)
        then Ret 1
        else
          (* descend *)
          s <-- shr32 a (u32 (32 - plen n - ip4a_bits)) ;;
          match sub n !! Z.to_nat (s mod Z.shiftl 1 ip4a_bits) with
          | None => Stuck Undefined
          | Some None => Ret 0
          | Some (Some sn) => ip4a_lookup_rec fuel' sn a
          end
      else Ret 0
  end.

Definition ip4a_lookup (n : ip4a_node) (a : Z) : outcome Z :=
  ip4a_lookup_rec depth_fuel n (u32 a).

(** [ip4a_count] *)
Definition ip4a_count (n : ip4a_node) : Z := coverage n.

(** [ip4a_fprint]: the text written to the stream. *)
Definition udec (x : Z) : string := NilZero.string_of_uint (N.to_uint (Z.to_N x)).

Definition nl : string := String (Ascii.ascii_of_nat 10) EmptyString.

Definition fprint_leaf (a p : Z) : string :=
  let suffix := if p <? 32 then String.append "/" (udec p) else EmptyString in
  String.concat EmptyString
    [udec (Z.land (Z.shiftr a 24) 255); "."%string;
     udec (Z.land (Z.shiftr a 16) 255); "."%string;
     udec (Z.land (Z.shiftr a 8) 255); "."%string;
     udec (Z.land a 255); suffix; nl].

Fixpoint ip4a_fprint (n : ip4a_node) : string :=
  match n with
  | Ip4aNode a p lf _ s =>
      if lf
      then fprint_leaf a p
      else
        (fix each (k : nat) (l : list (option ip4a_node)) : string :=
           match k, l with
           | S k', Some sn :: l' => String.append (ip4a_fprint sn) (each k' l')
           | S k', None :: l' => each k' l'
           | _, _ => EmptyString
           end) nsub s
  end.

(** A dotted quad as a number. *)
Definition quad (a b c d : Z) : Z := a * 2 ^ 24 + b * 2 ^ 16 + c * 2 ^ 8 + d.

(** Inserting a list of ranges, one after the other; [None] as soon as an
    insertion does not return 0. *)
Fixpoint insert_all (n : ip4a_node) (rs : list (Z * Z)) (h : heap)
    : option (ip4a_node * heap) :=
  match rs with
  | [] => Some (n, h)
  | (first, last) :: rs' =>
      match ip4a_insert n first last h with
      | Ret (0, n', h') => insert_all n' rs' h'
      | _ => None
      end
  end.

(** *** Well-formed aggregator trees

    [awf h n]: [n] is a node [h] levels above the /32 level, its child
    array is whole, a leaf has no children and covers nothing or its
    whole subnet, and the children are well formed one level down. *)
Fixpoint awf (h : nat) (n : ip4a_node) : Prop :=
  (h <= 8)%nat /\
  plen n = 32 - 4 * Z.of_nat h /\
  length (sub n) = nsub /\
  (leaf n = true ->
     (coverage n = 0 \/ coverage n = 2 ^ (4 * Z.of_nat h)) /\
     sub n = replicate nsub None) /\
  match h with
  | O => sub n = replicate nsub None
  | S h' => forall i c, sub n !! i = Some (Some c) -> awf h' c
  end.

(** [m] is a node of the tree [n]. *)
Inductive subnode (m : ip4a_node) : ip4a_node -> Prop :=
| subnode_here : subnode m m
| subnode_below n i c :
    sub n !! i = Some (Some c) -> subnode m c -> subnode m n.

(** The trees that [ip4a_new] and successful calls of [ip4a_insert] build. *)
Inductive reachable : ip4a_node -> Prop :=
| reachable_new h n h' :
    ip4a_new h = (Some n, h') -> reachable n
| reachable_insert n first last h n' h' :
    reachable n ->
    ip4a_insert n first last h = Ret (0, n', h') ->
    reachable n'.

(** A fresh tree, with an oracle that never refuses, for the examples. *)
Definition plenty : heap := replicate 64 true.
Definition fresh_root : ip4a_node := set_leaf true zero_node.

(** The tree after inserting 10.0.0.0-10.255.255.255, and its /8 leaf. *)
Definition ex_net10 : ip4a_node :=
  Eval vm_compute in
    match ip4a_insert fresh_root (quad 10 0 0 0) (quad 10 255 255 255) plenty with
    | Ret (_, t, _) => t
    | Stuck _ => fresh_root
    end.
Definition ex_net10_leaf : ip4a_node :=
  Ip4aNode (quad 10 0 0 0) 8 true (2 ^ 24) (replicate nsub None).

(** The tree after inserting the empty range 10.0.0.5-10.0.0.3, and the
    /28 leaf that the insertion leaves behind. *)
Definition ex_backwards : ip4a_node :=
  Eval vm_compute in
    match ip4a_insert fresh_root (quad 10 0 0 5) (quad 10 0 0 3) plenty with
    | Ret (_, t, _) => t
    | Stuck _ => fresh_root
    end.
Definition ex_backwards_leaf : ip4a_node :=
  Ip4aNode (quad 10 0 0 0) 28 true 0 (replicate nsub None).

End Ip4agg.

(** ** The ARP tracker ([arp.c]) *)

Module Arp.

(** Modelled from the spec: [ether_addr] is declared in [ft/ethernet.h],
    which is not among the sources; the link-layer address is six octets
    ([o[0]] to [o[5]]), compared with [memcmp] and copied with [memcpy]. *)
Record ether_addr : Type := Ether {
  e0 : byte; e1 : byte; e2 : byte; e3 : byte; e4 : byte; e5 : byte
}.

Definition ether_zero : ether_addr := Ether x00 x00 x00 x00 x00 x00.

(** [memcmp(a, b, sizeof(ether_addr)) == 0] *)
Definition ether_eqb (a b : ether_addr) : bool :=
  Byte.eqb (e0 a) (e0 b) && Byte.eqb (e1 a) (e1 b) && Byte.eqb (e2 a) (e2 b) &&
  Byte.eqb (e3 a) (e3 b) && Byte.eqb (e4 a) (e4 b) && Byte.eqb (e5 a) (e5 b).

(** Modelled from the spec: [ip4_addr] is declared in [ft/ip4.h], which is
    not among the sources; [arp.c] reads it as four octets [o[0]] to [o[3]]
    in network order and as the 32-bit word [q] that overlays them, always
    through [be32toh]. *)
Record ip4_addr : Type := Ip4 { o0 : byte; o1 : byte; o2 : byte; o3 : byte }.

Definition octet (b : byte) : Z := Z.of_N (Byte.to_N b).

(** [be32toh(ip4->q)] *)
Definition be32toh_q (ip4 : ip4_addr) : Z :=
  octet (o0 ip4) * 2 ^ 24 + octet (o1 ip4) * 2 ^ 16 + octet (o2 ip4) * 2 ^ 8 +
  octet (o3 ip4).

(** The members of the anonymous union of [struct arpn]: the children, or
    the link-layer address and the request counter. *)
Inductive arpn_data (node : Type) : Type :=
| Sub (sub : list (option node))
| Leaf (ether : ether_addr) (nreq : Z).
Arguments Sub {node} sub.
Arguments Leaf {node} ether nreq.

(** [struct arpn] *)
Inductive arpn : Type := Arpn {
  addr : Z;             (* uint32_t: network address *)
  plen : Z;             (* uint8_t: prefix length *)
  claimed : bool;       (* claimed by us *)
  reserved : bool;      (* reserved address *)
  first : Z;            (* uint64_t: first seen *)
  last : Z;             (* uint64_t: last seen *)
  data : arpn_data arpn
}.

Definition set_claimed (b : bool) (n : arpn) : arpn :=
  Arpn (addr n) (plen n) b (reserved n) (first n) (last n) (data n).
Definition set_reserved (b : bool) (n : arpn) : arpn :=
  Arpn (addr n) (plen n) (claimed n) b (first n) (last n) (data n).
Definition set_first (t : Z) (n : arpn) : arpn :=
  Arpn (addr n) (plen n) (claimed n) (reserved n) t (last n) (data n).
Definition set_last (t : Z) (n : arpn) : arpn :=
  Arpn (addr n) (plen n) (claimed n) (reserved n) (first n) t (data n).
Definition set_data (d : arpn_data arpn) (n : arpn) : arpn :=
  Arpn (addr n) (plen n) (claimed n) (reserved n) (first n) (last n) d.

(** Access to the members of the union.  Reading or writing the member
    that is not the live one is undefined. *)
Definition get_sub (n : arpn) : outcome (list (option arpn)) :=
  match data n with
  | Sub s => Ret s
  | Leaf _ _ => Stuck Undefined
  end.
Definition get_ether (n : arpn) : outcome ether_addr :=
  match data n with
  | Leaf e _ => Ret e
  | Sub _ => Stuck Undefined
  end.
Definition get_nreq (n : arpn) : outcome Z :=
  match data n with
  | Leaf _ r => Ret r
  | Sub _ => Stuck Undefined
  end.
Definition set_ether (e : ether_addr) (n : arpn) : outcome arpn :=
  match data n with
  | Leaf _ r => Ret (set_data (Leaf e r) n)
  | Sub _ => Stuck Undefined
  end.
Definition set_nreq (r : Z) (n : arpn) : outcome arpn :=
  match data n with
  | Leaf e _ => Ret (set_data (Leaf e r) n)
  | Sub _ => Stuck Undefined
  end.

(** A zeroed [struct arpn].  All its bytes are zero, so the children are
    all [NULL] and the address and counter are zero; the member that the
    code goes on to use is the one for the prefix length of the node. *)
Definition zero_data (p : Z) : arpn_data arpn :=
  if p =? 32 then Leaf ether_zero 0 else Sub (replicate 16 None).

(** [struct arpn arp_root;] *)
Definition arp_root_init : arpn := Arpn 0 0 false false 0 0 (zero_data 0).

(** The node that [arp_insert] allocates and fills in. *)
Definition new_arpn (a p when : Z) : arpn :=
  Arpn a p false false when when (zero_data p).

(** A pointer to a node of the tree: the child indices from the node where
    the descent started. *)
Definition ptr : Type := list nat.

Definition insert_result : Type := (option ptr * arpn * heap)%type.

(** [arp_insert], on the subtree [n]; the result is [NULL] ([None]) or
    the pointer to the /32 node. *)
Fixpoint arp_insert_rec (fuel : nat) (n : arpn) (a when : Z) (h : heap)
    : outcome insert_result :=
  match fuel with
  | O => Stuck OutOfFuel
  | S fuel' =>
      if plen n =? 32
      then
        if addr n =? a then Ret (Some [], n, h) else Stuck AssertFailed
      else
        let splen := u8 (plen n + 4) in
        s <-- shr32 a (32 - splen) ;;
        let i := s mod 16 in
        subs <-- get_sub n ;;
        match subs !! Z.to_nat i with
        | None => Stuck Undefined
        | Some slot =>
            created <--
              match slot with
              | Some sn => Ret (Some (sn, h))
              | None =>
                  match calloc h with
                  | (false, h') => Ret None
                  | (true, h') =>
                      off <-- shl32 i (32 - splen) ;;
                      Ret (Some (new_arpn (Z.lor (addr n) off) splen when, h'))
                  end
              end ;;
            match created with
            | None => Ret (None, n, snd (calloc h))
            | Some (sn, h1) =>
                r <-- arp_insert_rec fuel' sn a when h1 ;;
                let '(rn, sn', h2) := r in
                Ret (option_map (cons (Z.to_nat i)) rn,
                     set_data (Sub (<[Z.to_nat i := Some sn']> subs)) n,
                     h2)
            end
        end
  end.

(** The node a pointer points to, and assignment through a pointer. *)
Fixpoint deref (n : arpn) (p : ptr) : option arpn :=
  match p with
  | [] => Some n
  | i :: p' =>
      match data n with
      | Sub s =>
          match s !! i with
          | Some (Some c) => deref c p'
          | _ => None
          end
      | Leaf _ _ => None
      end
  end.

Fixpoint assign (n : arpn) (p : ptr) (v : arpn) : arpn :=
  match p with
  | [] => v
  | i :: p' =>
      match data n with
      | Sub s =>
          match s !! i with
          | Some (Some c) => set_data (Sub (<[i := Some (assign c p' v)]> s)) n
          | _ => n
          end
      | Leaf _ _ => n
      end
  end.

(** Modelled from the spec: [arp_pkt] is declared in [ft/arp.h], which is
    not among the sources.  The fields are those [arp.c] reads and
    writes; the 16-bit fields hold the value on the wire, which is what
    [be16toh] yields and [htobe16] takes.  [plen_] is the field [plen] of
    the packet, the name being taken by the prefix length of a node. *)
Record arp_pkt : Type := ArpPkt {
  htype : Z; ptype : Z; hlen : Z; plen_ : Z; oper : Z;
  sha : ether_addr; spa : ip4_addr; tha : ether_addr; tpa : ip4_addr
}.

(** What the analyzer uses of the [ether_flow]: the capture time of the
    packet, [fl->p->ts], and the address of the interface,
    [fl->p->i->ether]. *)
Record ether_flow : Type := EtherFlow {
  tv_sec : Z; tv_usec : Z; if_ether : ether_addr
}.

(** The state: the tree under [arp_root], the allocation oracle, the
    results that [ethernet_reply] is going to return, and the replies
    handed to [ethernet_reply] so far. *)
Record world : Type := World {
  arp_root : arpn;
  mem : heap;
  wire : list Z;
  sent : list arp_pkt
}.

Definition M (A : Type) : Type := world -> outcome (A * world).

Definition ret {A : Type} (a : A) : M A := fun w => Ret (a, w).

Definition bind {A B : Type} (m : M A) (k : A -> M B) : M B :=
  fun w => r <-- m w ;; k (fst r) (snd r).

Definition lift {A : Type} (o : outcome A) : M A :=
  fun w => a <-- o ;; Ret (a, w).

Notation "x <~ m ;; k" := (bind m (fun x => k))
  (at level 100, m at next level, right associativity).
Notation "m ;;; k" := (bind m (fun _ => k))
  (at level 100, right associativity).

Definition depth_fuel : nat := 9.

(** [arp_insert(NULL, a, when)] *)
Definition arp_insert (a when : Z) : M (option ptr) := fun w =>
  r <-- arp_insert_rec depth_fuel (arp_root w) (u32 a) (u64 when) (mem w) ;;
  let '(rn, root', h') := r in
  Ret (rn, World root' h' (wire w) (sent w)).

(** [*an] *)
Definition load (an : ptr) : M arpn := fun w =>
  match deref (arp_root w) an with
  | Some n => Ret (n, w)
  | None => Stuck Undefined
  end.

(** Assignments to fields of [*an]. *)
Definition store (an : ptr) (f : arpn -> outcome arpn) : M unit := fun w =>
  match deref (arp_root w) an with
  | Some n =>
      n' <-- f n ;;
      Ret (tt, World (assign (arp_root w) an n') (mem w) (wire w) (sent w))
  | None => Stuck Undefined
  end.

(** [arp_register] *)
Definition arp_register (ip4 : ip4_addr) (ether : ether_addr) (when : Z) : M Z :=
  an <~ arp_insert (be32toh_q ip4) when ;;
  match an with
  | None => ret (-1)
  | Some an =>
      n <~ load an ;;
      e <~ lift (get_ether n) ;;
      (if negb (ether_eqb e ether)
       then store an (set_ether ether)
       else ret tt) ;;;
      store an (set_nreq 0) ;;;
      ret 0
  end.

(** The short-circuit chain of [arp_lookup]: one step per index. *)
Fixpoint arp_lookup_chain (an : arpn) (idx : list Z) : outcome (option arpn) :=
  match idx with
  | [] => Ret (Some an)
  | i :: idx' =>
      subs <-- get_sub an ;;
      match subs !! Z.to_nat i with
      | None => Stuck Undefined
      | Some None => Ret None
      | Some (Some sn) => arp_lookup_chain sn idx'
      end
  end.

(** [arp_lookup]: the result and the contents of [*ether] afterwards. *)
Definition arp_lookup (ip4 : ip4_addr) (ether : ether_addr) : M (Z * ether_addr) :=
  fun w =>
    an <-- arp_lookup_chain (arp_root w)
             [octet (o0 ip4) / 16; octet (o0 ip4) mod 16;
              octet (o1 ip4) / 16; octet (o1 ip4) mod 16;
              octet (o2 ip4) / 16; octet (o2 ip4) mod 16;
              octet (o3 ip4) / 16; octet (o3 ip4) mod 16] ;;
    match an with
    | None => Ret ((-1, ether), w)
    | Some an => e <-- get_ether an ;; Ret ((0, e), w)
    end.

(** [arp_reserve] *)
Definition arp_reserve (a : ip4_addr) : M Z :=
  an <~ arp_insert (be32toh_q a) 0 ;;
  match an with
  | None => ret (-1)
  | Some an => store an (fun n => Ret (set_reserved true n)) ;;; ret 0
  end.

(** [ethernet_reply] is not among the sources: the reply is recorded and
    the result comes from the oracle (an exhausted oracle is a failure). *)
Definition ethernet_reply (fl : ether_flow) (ap : arp_pkt) : M Z := fun w =>
  match wire w with
  | [] => Ret (-1, World (arp_root w) (mem w) [] (sent w ++ [ap]))
  | r :: rs => Ret (r, World (arp_root w) (mem w) rs (sent w ++ [ap]))
  end.

(** What [arp.c] takes from headers that are not among the sources: the
    constants of [ft/arp.h] and the size of [arp_pkt], and [dst_set] and
    [ip4s_lookup] of [flytrap.h] and [ft/ip4.h].  They are parameters:
    the properties below hold whatever they are. *)
Record arp_env : Type := ArpEnv {
  arp_type_ether : Z;
  arp_type_ip4 : Z;
  arp_oper_who_has : Z;
  arp_oper_is_at : Z;
  sizeof_arp_pkt : Z;
  ip4s_node : Type;
  dst_set : option ip4s_node;
  ip4s_lookup : ip4s_node -> Z -> Z
}.

(** [arp_reply] *)
Definition arp_reply (E : arp_env) (fl : ether_flow) (iap : arp_pkt) (an : ptr)
    : M Z :=
  let ap := ArpPkt (arp_type_ether E) (arp_type_ip4 E) 6 4 (arp_oper_is_at E)
              (if_ether fl) (tpa iap) (sha iap) (spa iap) in
  r <~ ethernet_reply fl ap ;;
  if negb (r =? 0) then ret (-1) else ret 0.

(** [dst_set && !ip4s_lookup(dst_set, a)] *)
Definition out_of_bounds (E : arp_env) (a : Z) : bool :=
  match dst_set E with
  | None => false
  | Some s => ip4s_lookup E s a =? 0
  end.

(** [when = fl->p->ts.tv_sec * 1000 + fl->p->ts.tv_usec / 1000] *)
Definition timestamp (fl : ether_flow) : Z :=
  u64 (tv_sec fl * 1000 + Z.quot (tv_usec fl) 1000).

(** [packet_analyze_arp]; [data] is given as the [arp_pkt] it is read
    through, and is not looked at when [len] is too small. *)
Definition packet_analyze_arp (E : arp_env) (fl : ether_flow) (ap : arp_pkt)
    (len : Z) : M Z :=
  if len <? sizeof_arp_pkt E then ret (-1)
  else if negb (htype ap =? arp_type_ether E) || negb (hlen ap =? 6) ||
          negb (ptype ap =? arp_type_ip4 E) || negb (plen_ ap =? 4)
  then ret 0
  else if negb (oper ap =? arp_oper_who_has E) &&
          negb (oper ap =? arp_oper_is_at E)
  then ret 0
  else
    let when := timestamp fl in
    if oper ap =? arp_oper_who_has E
    then
      (* ARP request *)
      if out_of_bounds E (be32toh_q (tpa ap)) then ret 0
      else
        arp_register (spa ap) (sha ap) when ;;;
        an <~ arp_insert (be32toh_q (tpa ap)) when ;;
        match an with
        | None => ret (-1)
        | Some an =>
            n <~ load an ;;
            if reserved n
            then
              (* ignore *)
              store an (set_nreq 0) ;;; ret 0
            else if claimed n
            then
              (* already ours, refresh *)
              store an (fun n => n <-- set_nreq 0 n ;; Ret (set_last when n)) ;;;
              r <~ arp_reply E fl ap an ;;
              if negb (r =? 0) then ret (-1) else ret 0
            else
              nr <~ lift (get_nreq n) ;;
              if (nr =? 0) || (30000 <=? u64 (when - last n))
              then
                (* new or stale, start over *)
                store an (fun n => n <-- set_nreq 1 n ;;
                                   Ret (set_last when (set_first when n))) ;;;
                ret 0
              else if (3 <=? nr) && (3000 <=? u64 (when - first n))
              then
                (* claim new address *)
                store an (fun n => n <-- set_nreq 0 (set_claimed true n) ;;
                                   Ret (set_last when n)) ;;;
                r <~ arp_reply E fl ap an ;;
                if negb (r =? 0) then ret (-1) else ret 0
              else
                store an (fun n => n <-- set_nreq (u32 (nr + 1)) n ;;
                                   Ret (set_last when n)) ;;;
                ret 0
        end
    else
      (* ARP reply *)
      arp_register (spa ap) (sha ap) when ;;;
      arp_register (tpa ap) (tha ap) when ;;;
      ret 0.

End Arp.

(** ** Vocabulary for the properties of the tracker *)

Module ArpSpec.
Import Arp.

(** The address with its low [4 * h] bits cleared: the address of the
    node [h] levels above the /32 node of [a]. *)
Definition prefix (h : nat) (a : Z) : Z :=
  Z.shiftl (Z.shiftr a (4 * Z.of_nat h)) (4 * Z.of_nat h).

(** The child index of [a] in a node [S h] levels above the /32 nodes. *)
Definition nibble (h : nat) (a : Z) : Z := Z.shiftr a (4 * Z.of_nat h) mod 16.

(** The pointer to the /32 node of [a], from a node [h] levels above. *)
Fixpoint path_of (h : nat) (a : Z) : ptr :=
  match h with
  | O => []
  | S h' => Z.to_nat (nibble h' a) :: path_of h' a
  end.

(** The address that a pointer to a /32 node stands for. *)
Fixpoint key_of (p : ptr) : Z :=
  match p with
  | [] => 0
  | i :: p' => Z.of_nat i * 2 ^ (4 * Z.of_nat (length p')) + key_of p'
  end.

(** Well-formed tracker trees.  [twf h n]: [n] is a node [h] levels above
    the /32 nodes; a /32 node has the address and the counter live in its
    union, a node above has the sixteen children live, and each child
    has the address and prefix length that [arp_insert] gave it. *)
Fixpoint twf (h : nat) (n : arpn) : Prop :=
  (h <= 8)%nat /\
  plen n = 32 - 4 * Z.of_nat h /\
  match h with
  | O => exists e r, data n = Leaf e r
  | S h' =>
      exists s, data n = Sub s /\ length s = 16%nat /\
        forall i c, s !! i = Some (Some c) ->
          addr c = Z.lor (addr n) (Z.shiftl (Z.of_nat i) (4 * Z.of_nat h')) /\
          twf h' c
  end.

(** The /32 record of the address [a], if there is one. *)
Definition rec_at (w : world) (a : Z) : option arpn :=
  deref (arp_root w) (path_of 8 a).

Definition wwf (w : world) : Prop :=
  twf 8 (arp_root w) /\ addr (arp_root w) = 0.

(** The counter and the link-layer address of a /32 record. *)
Definition nreq_of (n : arpn) : Z :=
  match data n with
  | Leaf _ r => r
  | Sub _ => 0
  end.
Definition ether_of (n : arpn) : ether_addr :=
  match data n with
  | Leaf e _ => e
  | Sub _ => ether_zero
  end.

(** The initial state, with any oracles. *)
Definition init (h : heap) (tx : list Z) : world := World arp_root_init h tx [].

(** What [arp_register] leaves in a /32 record. *)
Definition registered (e : ether_addr) (n : arpn) : arpn := set_data (Leaf e 0) n.

(** What the request branch of the analyzer does to the /32 record of the
    target at time [when], and whether it replies. *)
Definition probe (when : Z) (n : arpn) : arpn * bool :=
  let e := ether_of n in
  let nr := nreq_of n in
  if reserved n
  then (set_data (Leaf e 0) n, false)
  else if claimed n
  then (set_last when (set_data (Leaf e 0) n), true)
  else if (nr =? 0) || (30000 <=? u64 (when - last n))
  then (set_last when (set_first when (set_data (Leaf e 1) n)), false)
  else if (3 <=? nr) && (3000 <=? u64 (when - first n))
  then (set_last when (set_data (Leaf e 0) (set_claimed true n)), true)
  else (set_last when (set_data (Leaf e (u32 (nr + 1))) n), false).

(** The hardware and protocol fields are those of IPv4 over Ethernet. *)
Definition header_ok (E : arp_env) (ap : arp_pkt) : bool :=
  (htype ap =? arp_type_ether E) && (hlen ap =? 6) &&
  (ptype ap =? arp_type_ip4 E) && (plen_ ap =? 4).

(** A well-formed who-has request. *)
Definition is_request (E : arp_env) (ap : arp_pkt) (len : Z) : bool :=
  (sizeof_arp_pkt E <=? len) && header_ok E ap && (oper ap =? arp_oper_who_has E).

(** A well-formed is-at packet. *)
Definition is_announcement (E : arp_env) (ap : arp_pkt) (len : Z) : bool :=
  (sizeof_arp_pkt E <=? len) && header_ok E ap &&
  negb (oper ap =? arp_oper_who_has E) && (oper ap =? arp_oper_is_at E).

(** A well-formed who-has request for [target] from another address. *)
Definition request_for (E : arp_env) (target : ip4_addr) (ap : arp_pkt) (len : Z)
    : Prop :=
  is_request E ap len = true /\ tpa ap = target /\ spa ap <> target.

(** The reply that [arp_reply] builds for the request [iap]. *)
Definition reply_to (E : arp_env) (fl : ether_flow) (iap : arp_pkt) : arp_pkt :=
  ArpPkt (arp_type_ether E) (arp_type_ip4 E) 6 4 (arp_oper_is_at E)
         (if_ether fl) (tpa iap) (sha iap) (spa iap).

(** The calls that change the tracker. *)
Inductive event : Type :=
| EvInsert (a when : Z)
| EvRegister (ip4 : ip4_addr) (ether : ether_addr) (when : Z)
| EvReserve (ip4 : ip4_addr)
| EvAnalyze (fl : ether_flow) (ap : arp_pkt) (len : Z).

(** The record of the address [ip4] is absent, or it is neither claimed
    nor reserved and counts no pending request. *)
Definition idle (w : world) (ip4 : ip4_addr) : Prop :=
  forall lf, rec_at w (be32toh_q ip4) = Some lf ->
    claimed lf = false /\ reserved lf = false /\ nreq_of lf = 0.

(** The record of [ip4] is there, unreserved, with these fields. *)
Definition target_rec (w : world) (ip4 : ip4_addr) (c : bool) (nr f l : Z) : Prop :=
  exists a e, rec_at w (be32toh_q ip4) = Some (Arpn a 32 c false f l (Leaf e nr)).

(** The record of [ip4], if there is one, holds no link-layer address. *)
Definition unregistered (w : world) (ip4 : ip4_addr) : Prop :=
  forall lf, rec_at w (be32toh_q ip4) = Some lf -> ether_of lf = ether_zero.

(** The record of [ip4] is there and reserved, and its claimed flag is [c]. *)
Definition reserved_rec (w : world) (ip4 : ip4_addr) (c : bool) : Prop :=
  exists lf, rec_at w (be32toh_q ip4) = Some lf /\ reserved lf = true /\ claimed lf = c.

(** The state after a call, whatever the call returns. *)
Definition exec (E : arp_env) (ev : event) (w : world) : outcome world :=
  match ev with
  | EvInsert a when => r <-- arp_insert a when w ;; Ret (snd r)
  | EvRegister ip4 ether when => r <-- arp_register ip4 ether when w ;; Ret (snd r)
  | EvReserve ip4 => r <-- arp_reserve ip4 w ;; Ret (snd r)
  | EvAnalyze fl ap len => r <-- packet_analyze_arp E fl ap len w ;; Ret (snd r)
  end.

(** The call passes [ip4] to [arp_register]. *)
Definition registers (E : arp_env) (ev : event) (ip4 : ip4_addr) : Prop :=
  match ev with
  | EvInsert _ _ => False
  | EvRegister ip4' _ _ => ip4' = ip4
  | EvReserve _ => False
  | EvAnalyze fl ap len =>
      (is_request E ap len = true /\
       out_of_bounds E (be32toh_q (tpa ap)) = false /\
       spa ap = ip4) \/
      (is_announcement E ap len = true /\ (spa ap = ip4 \/ tpa ap = ip4))
  end.

(** The states that the calls reach from the zeroed root. *)
Inductive reachable (E : arp_env) : world -> Prop :=
| reachable_init h tx : reachable E (init h tx)
| reachable_step ev w w' :
    reachable E w -> exec E ev w = Ret w' -> reachable E w'.

(** The same, by calls none of which passes [ip4] to [arp_register]. *)
Inductive never_registered (E : arp_env) (ip4 : ip4_addr) : world -> Prop :=
| never_registered_init h tx : never_registered E ip4 (init h tx)
| never_registered_step ev w w' :
    never_registered E ip4 w -> ~ registers E ev ip4 -> exec E ev w = Ret w' ->
    never_registered E ip4 w'.

(** The analyzer on a sequence of packets: the results and the final
    state. *)
Fixpoint analyze_all (E : arp_env) (pkts : list (ether_flow * arp_pkt * Z))
    (w : world) : outcome (list Z * world) :=
  match pkts with
  | [] => Ret ([], w)
  | (fl, ap, len) :: pkts' =>
      r <-- packet_analyze_arp E fl ap len w ;;
      rs <-- analyze_all E pkts' (snd r) ;;
      Ret (fst r :: fst rs, snd rs)
  end.

End ArpSpec.

(** ** Concrete packets and states, for the examples *)

Module ArpExamples.
Import Arp ArpSpec.

(** The constants of RFC 826 for IPv4 over Ethernet, a 28-byte packet,
    and no destination set. *)
Definition ex_env : arp_env := ArpEnv 1 2048 1 2 28 unit None (fun _ _ => 1).

Definition ex_analyze : ether_flow -> arp_pkt -> Z -> M Z :=
  packet_analyze_arp ex_env.

Definition ex_target : ip4_addr := Ip4 x0a x00 x00 x05.
Definition ex_sender : ip4_addr := Ip4 x0a x00 x00 x01.
Definition ex_mac : ether_addr := Ether x02 x00 x00 x00 x00 x01.
Definition ex_ifmac : ether_addr := Ether x02 x00 x00 x00 x00 xff.

(** who-has 10.0.0.5 tell 10.0.0.1 *)
Definition ex_request : arp_pkt :=
  ArpPkt 1 2048 6 4 1 ex_mac ex_sender ether_zero ex_target.

(** A packet captured [ms] milliseconds after the epoch. *)
Definition ex_flow (ms : Z) : ether_flow :=
  EtherFlow (ms / 1000) (ms mod 1000 * 1000) ex_ifmac.

Definition ex_init : world := init (replicate 64 true) (replicate 8 0).

Definition ex_after (fl : ether_flow) (ap : arp_pkt) (len : Z) (w : world) : world :=
  match ex_analyze fl ap len w with
  | Ret (_, w') => w'
  | Stuck _ => w
  end.

Definition ex_w1 : world := Eval vm_compute in ex_after (ex_flow 0) ex_request 28 ex_init.
Definition ex_w2 : world := Eval vm_compute in ex_after (ex_flow 1000) ex_request 28 ex_w1.
Definition ex_w3 : world := Eval vm_compute in ex_after (ex_flow 3000) ex_request 28 ex_w2.
Definition ex_w4 : world := Eval vm_compute in ex_after (ex_flow 3500) ex_request 28 ex_w3.
Definition ex_w5 : world := Eval vm_compute in ex_after (ex_flow 4000) ex_request 28 ex_w4.

(** The second request 31 seconds after the first. *)
Definition ex_v2 : world := Eval vm_compute in ex_after (ex_flow 31000) ex_request 28 ex_w1.

(** 10.0.0.5 reserved in the initial state, then three requests for it. *)
Definition ex_reserved : world :=
  Eval vm_compute in
    match arp_reserve ex_target ex_init with
    | Ret (_, w) => w
    | Stuck _ => ex_init
    end.

(** 10.0.0.5 registered in the initial state. *)
Definition ex_registered : world :=
  Eval vm_compute in
    match arp_register ex_target ex_mac 0 ex_init with
    | Ret (_, w) => w
    | Stuck _ => ex_init
    end.

End ArpExamples.

(** ** The dump of the tracker ([arp_print_tree]) *)

Module ArpPrint.
Import Arp.

(** The number of slots of [sub], the bound of the loops over it. *)
Definition nslot : nat := 16.

(** [arp_print_tree]: the text written to the stream.  The line is the
    one [ip4a_fprint] writes, from the same [fprintf] calls.  The loop
    reads the sixteen slots of [n->sub]. *)
Fixpoint arp_print_tree (fuel : nat) (n : arpn) : outcome string :=
  match fuel with
  | O => Stuck OutOfFuel
  | S fuel' =>
      if plen n =? 32
      then Ret (Ip4agg.fprint_leaf (addr n) (plen n))
      else
        subs <-- get_sub n ;;
        (fix each (k : nat) (l : list (option arpn)) : outcome string :=
           match k with
           | O => Ret EmptyString
           | S k' =>
               match l with
               | [] => Stuck Undefined
               | None :: l' => each k' l'
               | Some sn :: l' =>
                   s1 <-- arp_print_tree fuel' sn ;;
                   s2 <-- each k' l' ;;
                   Ret (String.append s1 s2)
               end
           end) nslot subs
  end.

(** The /32 records below a node [h] levels above them, as address and
    prefix length, in the order of the slots. *)
Fixpoint records (h : nat) (n : arpn) : list (Z * Z) :=
  match h with
  | O => [(addr n, plen n)]
  | S h' =>
      match data n with
      | Sub s =>
          concat (map (fun o : option arpn =>
                         match o with
                         | Some c => records h' c
                         | None => []
                         end) s)
      | Leaf _ _ => []
      end
  end.

End ArpPrint.

(** ** Further examples *)

Module MoreExamples.
Import Arp ArpSpec ArpExamples.

(** The record that [arp_register] leaves for 10.0.0.5 in [ex_registered],
    and those of 10.0.0.5 after the first and the fourth request. *)
Definition ex_rec_registered : arpn :=
  registered ex_mac (new_arpn (be32toh_q ex_target) 32 0).
Definition ex_rec_probed : arpn :=
  Arpn (be32toh_q ex_target) 32 false false 0 0 (Leaf ether_zero 1).
Definition ex_rec_claimed : arpn :=
  Arpn (be32toh_q ex_target) 32 true false 0 3500 (Leaf ether_zero 0).

(** 10.0.0.5 registered, then reserved. *)
Definition ex_registered_reserved : world :=
  Eval vm_compute in
    match arp_reserve ex_target ex_registered with
    | Ret (_, w) => w
    | Stuck _ => ex_registered
    end.

(** 10.0.0.5 registered, then reserved, then probed by 10.0.0.1. *)
Definition ex_registered_probed : world :=
  Eval vm_compute in ex_after (ex_flow 0) ex_request 28 ex_registered_reserved.

(** 10.0.0.1 is-at [ex_mac], sent to 10.0.0.5 at [ex_ifmac]. *)
Definition ex_announcement : arp_pkt :=
  ArpPkt 1 2048 6 4 2 ex_mac ex_sender ex_ifmac ex_target.

Definition ex_announced : world :=
  Eval vm_compute in ex_after (ex_flow 0) ex_announcement 28 ex_init.

(** 10.0.0.5 inserted in the initial state. *)
Definition ex_inserted : world :=
  Eval vm_compute in
    match arp_insert (be32toh_q ex_target) 0 ex_init with
    | Ret (_, w) => w
    | Stuck _ => ex_init
    end.

End MoreExamples.

Module Ip4aggMoreExamples.
Import Ip4agg.

(** The tree and the oracle after inserting 10.0.0.0-10.0.0.14 into a
    new tree, and after inserting 10.0.0.0 once more. *)
Definition ex_first : ip4a_node * heap :=
  Eval vm_compute in
    match insert_all fresh_root [(quad 10 0 0 0, quad 10 0 0 14)] plenty with
    | Some r => r
    | None => (fresh_root, plenty)
    end.

Definition ex_second : ip4a_node * heap :=
  Eval vm_compute in
    match insert_all fresh_root
            [(quad 10 0 0 0, quad 10 0 0 14); (quad 10 0 0 0, quad 10 0 0 0)]
            plenty with
    | Some r => r
    | None => (fresh_root, plenty)
    end.

End Ip4aggMoreExamples.

(** ** Vocabulary for the further properties *)

Module MoreSpec.
Import Arp ArpSpec.

(** The flags of a record are only ever set. *)
Definition flags_kept (lf lf' : arpn) : Prop :=
  (reserved lf = true -> reserved lf' = true) /\
  (claimed lf = true -> claimed lf' = true).

(** A sequence of calls, from left to right. *)
Fixpoint run (E : arp_env) (evs : list event) (w : world) : outcome world :=
  match evs with
  | [] => Ret w
  | ev :: evs' => w1 <-- exec E ev w ;; run E evs' w1
  end.

End MoreSpec.

(** ** Vocabulary for the further properties of the aggregator *)

Module Ip4aggSpec.
Import ArpSpec.
Import Ip4agg.

(** The children of a node whose children are [h] levels above the /32
    level: each has the address of its slot, a /32 child covers its
    address, and each satisfies [P]. *)
Definition kids (P : ip4a_node -> Prop) (h : nat) (n : ip4a_node) : Prop :=
  forall i c, sub n !! i = Some (Some c) ->
    addr c = Z.lor (addr n) (Z.shiftl (Z.of_nat i) (4 * Z.of_nat h)) /\
    (h = O -> coverage c = 1) /\ P c.

(** What successful insertions keep, besides [awf]: a node that can be
    aggregated (prefix length 8 or more) counts at most the addresses of
    its subnet, and the children are where [ip4a_lookup] looks for
    them. *)
Fixpoint cov (h : nat) (n : ip4a_node) : Prop :=
  ((h <= 6)%nat -> 0 <= coverage n <= 2 ^ (4 * Z.of_nat h)) /\
  match h with
  | O => True
  | S h' => kids (cov h') h' n
  end.

(** The address [a] lies under a node that has been filled: a node of
    prefix length 8 or more whose count is the size of its subnet. *)
Fixpoint covered (h : nat) (n : ip4a_node) (a : Z) : Prop :=
  ((h <= 6)%nat /\ coverage n = 2 ^ (4 * Z.of_nat h)) \/
  match h with
  | O => False
  | S h' =>
      exists c, sub n !! Z.to_nat (nibble h' a) = Some (Some c) /\ covered h' c a
  end.

(** The same, one level down. *)
Definition kid_covered (h : nat) (n : ip4a_node) (a : Z) : Prop :=
  exists c, sub n !! Z.to_nat (nibble h a) = Some (Some c) /\ covered h c a.

(** The node that [ip4a_insert] allocates for the subnet at [x], [h]
    levels above the /32 level; [ip4a_new] returns the one for 0.0.0.0/0. *)
Definition fresh_node (h : nat) (x : Z) : ip4a_node :=
  Ip4aNode x (32 - 4 * Z.of_nat h) true 0 (replicate nsub None).

(** The number of addresses of the range [f..l] among the [m] addresses
    from [x] on. *)
Definition isize (f l x m : Z) : Z :=
  Z.max 0 (Z.min l (x + m - 1) - Z.max f x + 1).

(** 1 for the addresses of the range [f..l], 0 for the others. *)
Definition found (f l a : Z) : Z := if (f <=? a) && (a <=? l) then 1 else 0.

(** The node [c], [h] levels above the /32 level, holds the addresses of
    the range [f..l] that lie in its subnet, and no other: its count is
    their number and [ip4a_lookup] answers 1 for them alone. *)
Definition exact (h : nat) (f l : Z) (c : ip4a_node) : Prop :=
  coverage c = isize f l (addr c) (2 ^ (4 * Z.of_nat h)) /\
  forall fuel a, (h < fuel)%nat -> 0 <= a -> prefix h a = addr c ->
    ip4a_lookup_rec fuel c a = Ret (found f l a).

(** The leaf nodes of a tree, as address and prefix length, in the
    order of the slots. *)
Fixpoint leaves (h : nat) (n : ip4a_node) : list (Z * Z) :=
  if leaf n
  then [(addr n, plen n)]
  else
    match h with
    | O => []
    | S h' =>
        concat (map (fun o : option ip4a_node =>
                       match o with
                       | Some c => leaves h' c
                       | None => []
                       end) (sub n))
    end.

(** One line of [ip4a_fprint] per subnet. *)
Fixpoint render (l : list (Z * Z)) : string :=
  match l with
  | [] => EmptyString
  | (a, p) :: l' => String.append (fprint_leaf a p) (render l')
  end.

(** The subnets of the list follow one another between [lo] and [hi]:
    each begins where the one before has ended, or later. *)
Fixpoint spans (lo hi : Z) (l : list (Z * Z)) : Prop :=
  match l with
  | [] => lo <= hi
  | (a, p) :: l' => lo <= a /\ spans (a + 2 ^ (32 - p)) hi l'
  end.

(** The trees that [ip4a_new] and calls of [ip4a_insert] build, whether
    the calls succeed or fail. *)
Inductive built : ip4a_node -> Prop :=
| built_new h n h' :
    ip4a_new h = (Some n, h') -> built n
| built_insert n first last h r n' h' :
    built n ->
    ip4a_insert n first last h = Ret (r, n', h') ->
    built n'.

(** What insertions keep even when they fail, besides [awf]: every /32
    node counts its address. *)
Fixpoint sfe (h : nat) (n : ip4a_node) : Prop :=
  match h with
  | O => True
  | S h' =>
      forall i c, sub n !! i = Some (Some c) ->
        (h' = O -> coverage c = 1) /\ sfe h' c
  end.

(** The allocations of a call that returns [r] and leaves the oracle
    [hp'] of [hp]: it made [k] of them; all were granted and [r] is 0,
    or the last one was refused and [r] is -1. *)
Definition trace (r : Z) (hp hp' : heap) : Prop :=
  exists k : nat,
    hp' = drop k hp /\
    ((r = 0 /\ forall i, (i < k)%nat -> hp !! i = Some true) \/
     (r = -1 /\ (0 < k)%nat /\
      (forall i, (i < k - 1)%nat -> hp !! i = Some true) /\
      hp !! (k - 1)%nat <> Some true)).

End Ip4aggSpec.

(** * Properties of the aggregator *)

Module Ip4aggFacts.
Import Ip4agg.

Lemma nsub_16 : nsub = 16%nat.
Proof. reflexivity. Qed.

Lemma full_cover (h : nat) :
  (h <= 8)%nat ->
  u64 (u32 (Z.shiftr 4294967295 (32 - 4 * Z.of_nat h)) + 1) = 2 ^ (4 * Z.of_nat h).
Proof.
  intros Hh.
  do 9 (destruct h as [|h]; [reflexivity|]).
  lia.
Qed.

Lemma awf_plen h n : awf h n -> plen n = 32 - 4 * Z.of_nat h.
Proof. destruct h; simpl; tauto. Qed.

Lemma awf_height h n : awf h n -> (h <= 8)%nat.
Proof. destruct h; simpl; tauto. Qed.

Lemma host_mask_awf h n :
  awf h n ->
  host_mask n = Ret (u32 (Z.shiftr 4294967295 (32 - 4 * Z.of_nat h))).
Proof.
  intros Hn.
  pose proof (awf_height _ _ Hn) as Hh.
  pose proof (awf_plen _ _ Hn) as Hp.
  unfold host_mask. rewrite Hp.
  rewrite (proj2 (Z.leb_le _ _)) by lia.
  rewrite (proj2 (Z.ltb_lt _ _)) by lia.
  reflexivity.
Qed.

Lemma awf_length h n : awf h n -> length (sub n) = nsub.
Proof. destruct h; simpl; tauto. Qed.

Lemma awf_leaf h n :
  awf h n -> leaf n = true ->
  (coverage n = 0 \/ coverage n = 2 ^ (4 * Z.of_nat h)) /\
  sub n = replicate nsub None.
Proof. destruct h; simpl; tauto. Qed.

Lemma delete_sub n :
  length (sub n) = nsub -> sub (ip4a_delete n) = replicate nsub None.
Proof.
  intros Hl. unfold ip4a_delete, set_sub. cbn [sub].
  rewrite drop_ge by lia. apply app_nil_r.
Qed.

Lemma awf_child h n i c :
  awf (S h) n -> sub n !! i = Some (Some c) -> awf h c.
Proof. intros Hn. simpl in Hn. destruct Hn as (_ & _ & _ & _ & Hsub). apply Hsub. Qed.

Lemma awf_intro h n :
  (h <= 8)%nat ->
  plen n = 32 - 4 * Z.of_nat h ->
  length (sub n) = nsub ->
  (leaf n = true ->
     (coverage n = 0 \/ coverage n = 2 ^ (4 * Z.of_nat h)) /\
     sub n = replicate nsub None) ->
  (forall i c, sub n !! i = Some (Some c) -> exists h', h = S h' /\ awf h' c) ->
  (h = O -> sub n = replicate nsub None) ->
  awf h n.
Proof.
  intros Hh Hp Hl Hlf Hsub H0. destruct h; simpl; repeat split; auto; try tauto.
  intros i c Hi. destruct (Hsub i c Hi) as (h' & E & Hc). congruence.
Qed.

Lemma no_child_in_replicate i (c : ip4a_node) :
  replicate nsub (@None ip4a_node) !! i = Some (Some c) -> False.
Proof. intros Hi. apply lookup_replicate in Hi. destruct Hi as [Hi _]. discriminate. Qed.

Lemma collapse_awf h n :
  awf h n ->
  awf h (collapse (u32 (Z.shiftr 4294967295 (32 - 4 * Z.of_nat h))) n).
Proof.
  intros Hn.
  pose proof (awf_height _ _ Hn) as Hh.
  pose proof (awf_plen _ _ Hn) as Hp.
  pose proof (awf_length _ _ Hn) as Hl.
  assert (Hs : sub (collapse (u32 (Z.shiftr 4294967295 (32 - 4 * Z.of_nat h))) n)
               = replicate nsub None).
  { unfold collapse, set_coverage, set_leaf. cbn [sub]. apply delete_sub, Hl. }
  assert (Hc : coverage (collapse (u32 (Z.shiftr 4294967295 (32 - 4 * Z.of_nat h))) n)
               = 2 ^ (4 * Z.of_nat h)).
  { unfold collapse, set_coverage. cbn [coverage]. apply full_cover. exact Hh. }
  apply awf_intro.
  - exact Hh.
  - exact Hp.
  - rewrite Hs. apply length_replicate.
  - intros _. split; [right; exact Hc|exact Hs].
  - intros i c Hi. rewrite Hs in Hi. destruct (no_child_in_replicate _ _ Hi).
  - intros _. exact Hs.
Qed.

Lemma fresh_child_awf h a :
  (h <= 8)%nat ->
  awf h (Ip4aNode a (32 - 4 * Z.of_nat h) true 0 (replicate nsub None)).
Proof.
  intros Hh. apply awf_intro.
  - exact Hh.
  - reflexivity.
  - cbn [sub]. apply length_replicate.
  - intros _. split; [left|]; reflexivity.
  - intros i c Hi. cbn [sub] in Hi. destruct (no_child_in_replicate _ _ Hi).
  - reflexivity.
Qed.

(** Storing a well-formed child in a node that is no leaf afterwards. *)
Lemma store_child_awf h n i c n' :
  awf (S h) n -> awf h c ->
  leaf n' = false -> plen n' = plen n -> sub n' = <[i := Some c]> (sub n) ->
  awf (S h) n'.
Proof.
  intros Hn Hc Hlf Hp Hs.
  apply awf_intro.
  - exact (awf_height _ _ Hn).
  - rewrite Hp. exact (awf_plen _ _ Hn).
  - rewrite Hs, length_insert. exact (awf_length _ _ Hn).
  - rewrite Hlf. discriminate.
  - rewrite Hs. intros j d Hj. exists h. split; [reflexivity|].
    destruct (decide (i = j)) as [->|Hne].
    + destruct (decide (j < length (sub n))%nat) as [Hlt|Hge].
      * rewrite list_lookup_insert_eq in Hj by exact Hlt. congruence.
      * rewrite list_insert_ge in Hj by lia. exact (awf_child _ _ _ _ Hn Hj).
    + rewrite list_lookup_insert_ne in Hj by exact Hne. exact (awf_child _ _ _ _ Hn Hj).
  - discriminate.
Qed.

Section InsertInvariant.

Variable h : nat.
Variable rec : ip4a_node -> Z -> Z -> heap -> outcome insert_result.
Hypothesis rec_awf :
  forall c f l hp, awf h c ->
    exists r c' hp', rec c f l hp = Ret (r, c', hp') /\ awf h c'.

Lemma loop_awf splen first last idx :
  splen = 32 - 4 * Z.of_nat h ->
  Forall (fun i => 0 <= i < 16) idx ->
  forall n hp,
    awf (S h) n ->
    exists r n' hp',
      ip4a_insert_loop rec splen first last idx n hp = Ret (r, n', hp') /\
      awf (S h) n'.
Proof.
  intros Hsplen Hidx. induction Hidx as [|i idx Hi Hidx IH]; intros n hp Hn.
  - simpl. eauto.
  - pose proof (awf_height _ _ Hn) as Hh.
    pose proof (awf_length _ _ Hn) as Hl. rewrite nsub_16 in Hl.
    cbn [ip4a_insert_loop].
    destruct (lookup_lt_is_Some_2 (sub n) (Z.to_nat i)) as [slot Hslot]; [lia|].
    rewrite Hslot. destruct slot as [sn|].
    + (* the child exists *)
      cbn [obind].
      destruct (rec_awf sn first last hp (awf_child _ _ _ _ Hn Hslot))
        as (r & sn' & h2 & Hrec & Hsn').
      rewrite Hrec. cbn [obind].
      assert (Hlf : leaf n = false).
      { destruct (leaf n) eqn:E; [|reflexivity].
        destruct (awf_leaf _ _ Hn E) as [_ Hs]. rewrite Hs in Hslot.
        apply lookup_replicate in Hslot. destruct Hslot; discriminate. }
      match goal with |- context [if _ then ip4a_insert_loop _ _ _ _ _ ?n2 _ else _] =>
        assert (Hn2 : awf (S h) n2)
          by (eapply (store_child_awf h n (Z.to_nat i) sn'); eauto)
      end.
      destruct (r =? 0); [apply IH; exact Hn2 | eauto].
    + (* the child is created *)
      destruct hp as [|[|] hp']; cbn [calloc obind snd]; [eauto| |eauto].
      unfold shl32.
      assert (Hk : u32 (32 - splen) = 4 * Z.of_nat h).
      { subst splen. unfold u32. rewrite Z.mod_small; lia. }
      rewrite Hk.
      rewrite (proj2 (Z.leb_le _ _)) by lia.
      rewrite (proj2 (Z.ltb_lt _ _)) by lia.
      cbn [andb obind].
      assert (Hu8 : u8 splen = 32 - 4 * Z.of_nat h).
      { subst splen. unfold u8. rewrite Z.mod_small; lia. }
      rewrite Hu8.
      match goal with |- context [rec ?sn _ _ _] =>
        destruct (rec_awf sn first last hp' (fresh_child_awf h _ ltac:(lia)))
          as (r & sn' & h2 & Hrec & Hsn')
      end.
      rewrite Hrec. cbn [obind].
      match goal with |- context [if _ then ip4a_insert_loop _ _ _ _ _ ?n2 _ else _] =>
        assert (Hn2 : awf (S h) n2)
      end.
      { match goal with |- awf _ (set_coverage _ (set_sub _ ?n1)) =>
          assert (Hn1 : awf (S h) n1)
            by (eapply (store_child_awf h n (Z.to_nat i));
                [exact Hn | apply (fresh_child_awf h); lia
                | reflexivity | reflexivity | reflexivity]);
          apply (store_child_awf h n1 (Z.to_nat i) sn');
            [exact Hn1 | exact Hsn' | reflexivity | reflexivity | reflexivity]
        end. }
      destruct (r =? 0); [apply IH; exact Hn2 | eauto].
Qed.

End InsertInvariant.

Lemma seqZ_range (a n : Z) :
  0 <= a -> a + n <= 16 -> Forall (fun i => 0 <= i < 16) (seqZ a n).
Proof.
  intros Ha Hn. apply list.Forall_forall. intros x Hx.
  apply list_elem_of_lookup in Hx. destruct Hx as [i Hi].
  apply lookup_seqZ in Hi. lia.
Qed.

(** [ip4a_insert] returns on every well-formed tree, and the tree it
    leaves is well formed whatever it returns. *)
Lemma insert_awf h :
  forall fuel n f l hp,
    (h < fuel)%nat -> awf h n ->
    exists r n' hp',
      ip4a_insert_rec fuel n f l hp = Ret (r, n', hp') /\ awf h n'.
Proof.
  induction h as [|h IH]; intros fuel n f l hp Hfuel Hn;
    (destruct fuel as [|fuel]; [lia|]);
    pose proof (awf_height _ _ Hn) as Hh;
    pose proof (awf_plen _ _ Hn) as Hp;
    cbn [ip4a_insert_rec]; unfold ip4a_insert_body;
    rewrite (host_mask_awf _ _ Hn); cbn [obind].
  - (* a /32 node is always replaced by a full leaf *)
    rewrite Hp. change (32 - 4 * Z.of_nat 0) with 32.
    change (ip4a_minplen <=? 32) with true.
    change (ip4a_maxplen <? u32 (32 + ip4a_bits)) with true.
    rewrite orb_true_r. cbn [andb].
    do 3 eexists. split; [reflexivity|]. exact (collapse_awf 0%nat n Hn).
  - match goal with |- context [if ?b then Ret (0, collapse _ _, _) else _] =>
      destruct b
    end.
    { do 3 eexists. split; [reflexivity|]. exact (collapse_awf _ n Hn). }
    assert (Hsplen : u32 (plen n + ip4a_bits) = 32 - 4 * Z.of_nat h).
    { rewrite Hp. unfold u32, ip4a_bits. rewrite Z.mod_small; lia. }
    rewrite Hsplen.
    assert (Hk : u32 (32 - (32 - 4 * Z.of_nat h)) = 4 * Z.of_nat h).
    { unfold u32. rewrite Z.mod_small; lia. }
    rewrite Hk. unfold shr32.
    rewrite (proj2 (Z.leb_le _ _)) by lia.
    rewrite (proj2 (Z.ltb_lt _ _)) by lia.
    cbn [andb obind].
    change (Z.shiftl 1 ip4a_bits) with 16.
    match goal with |- context [ip4a_insert_loop _ _ ?f' ?l' (seqZ ?a ?len) _ _] =>
      destruct (loop_awf h (ip4a_insert_rec fuel)
                  (fun c f0 l0 hp0 Hc => IH fuel c f0 l0 hp0 ltac:(lia) Hc)
                  (32 - 4 * Z.of_nat h) f' l' (seqZ a len) eq_refl
                  (seqZ_range a len
                     ltac:(apply Z.mod_pos_bound; lia)
                     ltac:(pose proof (Z.mod_pos_bound (Z.shiftr l' (4 * Z.of_nat h)) 16);
                           lia))
                  n hp Hn)
        as (r & n1 & h1 & Hloop & Hn1)
    end.
    rewrite Hloop. cbn [obind].
    destruct (r =? 0); [|eauto].
    match goal with |- context [if ?b then _ else _] => destruct b end; [|eauto].
    do 3 eexists. split; [reflexivity|]. exact (collapse_awf _ n1 Hn1).
Qed.

Lemma new_awf h n h' : ip4a_new h = (Some n, h') -> awf 8 n.
Proof.
  unfold ip4a_new. destruct (calloc h) as [[|] h1]; intros E; inversion E; subst.
  apply awf_intro.
  - lia.
  - reflexivity.
  - reflexivity.
  - intros _. split; [left|]; reflexivity.
  - intros i c Hi. destruct (no_child_in_replicate _ _ Hi).
  - discriminate.
Qed.

Lemma reachable_awf n : reachable n -> awf 8 n.
Proof.
  induction 1 as [h n h' Hnew | n first last h n' h' _ IH Hins].
  - exact (new_awf _ _ _ Hnew).
  - unfold ip4a_insert in Hins.
    destruct (insert_awf 8 depth_fuel n (u32 first) (u32 last) h
                ltac:(unfold depth_fuel; lia) IH)
      as (r & n1 & h1 & E & Hn1).
    rewrite E in Hins. inversion Hins; subst. exact Hn1.
Qed.

Lemma subnode_awf m n :
  subnode m n -> forall h, awf h n -> exists h', awf h' m.
Proof.
  induction 1 as [|n i c Hi _ IH]; intros h Hn.
  - eauto.
  - destruct h as [|h].
    + simpl in Hn. destruct Hn as (_ & _ & _ & _ & Hs). rewrite Hs in Hi.
      destruct (no_child_in_replicate _ _ Hi).
    + exact (IH h (awf_child _ _ _ _ Hn Hi)).
Qed.

Lemma fresh_root_new : ip4a_new plenty = (Some fresh_root, replicate 63 true).
Proof. reflexivity. Qed.

End Ip4aggFacts.

Module Ip4aggClaims.
Import Ip4agg Ip4aggFacts.

(** [ip4a_insert] returns on every reachable tree: the fuel of the
    embedding always suffices and nothing undefined is met. *)
Lemma ip4a_insert_returns n first last h :
  reachable n ->
  exists r n' h', ip4a_insert n first last h = Ret (r, n', h').
Proof.
  intros Hn. unfold ip4a_insert.
  destruct (insert_awf 8 depth_fuel n (u32 first) (u32 last) h
              ltac:(unfold depth_fuel; lia) (reachable_awf n Hn))
    as (r & n1 & h1 & E & _).
  eauto.
Qed.

(** C1 (the code departs from it).  Lookup is meant to answer true exactly
    for the inserted addresses.  After inserting 10.0.0.0-10.0.0.14 and
    then 10.0.0.0 again into a new tree, both insertions returning 0,
    [ip4a_lookup] answers 1 for 10.0.0.15, which lies in neither range:
    the second insertion adds the coverage of the child for 10.0.0.0 to
    its parent a second time, the /28 node reaches 16 and is replaced by
    a full leaf.  After the first insertion alone the answer is 0. *)
Theorem C1_lookup_true_outside_inserted_ranges :
  let r1 := (quad 10 0 0 0, quad 10 0 0 14) in
  let r2 := (quad 10 0 0 0, quad 10 0 0 0) in
  let a := quad 10 0 0 15 in
  exists t1 h1 t2 h2,
    ip4a_insert fresh_root (fst r1) (snd r1) plenty = Ret (0, t1, h1) /\
    ip4a_insert t1 (fst r2) (snd r2) h1 = Ret (0, t2, h2) /\
    ip4a_lookup t1 a = Ret 0 /\
    ip4a_lookup t2 a = Ret 1 /\
    ~ (fst r1 <= a <= snd r1) /\ ~ (fst r2 <= a <= snd r2).
Proof.
  cbv zeta.
  destruct (ip4a_insert fresh_root (quad 10 0 0 0) (quad 10 0 0 14) plenty)
    as [[[r t1] h1]|] eqn:E1; [|vm_compute in E1; discriminate].
  destruct (ip4a_insert t1 (quad 10 0 0 0) (quad 10 0 0 0) h1)
    as [[[r' t2] h2]|] eqn:E2;
    [|vm_compute in E1; inversion E1; subst; vm_compute in E2; discriminate].
  exists t1, h1, t2, h2.
  vm_compute in E1. inversion E1; subst. clear E1.
  vm_compute in E2. inversion E2; subst. clear E2.
  repeat split; try reflexivity; unfold quad; cbn [fst snd]; try lia.
Qed.

(** C2 (the code departs from it).  Inserting a range twice is meant to
    leave the count and the dump as after inserting it once.  On a new
    tree and the range 10.0.0.0-10.0.0.14: once gives 15 addresses and
    fifteen lines; twice gives a larger count and the single line
    10.0.0.0/28.  The cause is the one of C1: [n->coverage += sn->coverage]
    adds the whole coverage of a child each time the child is visited. *)
Theorem C2_second_insert_changes_count_and_dump :
  let first := quad 10 0 0 0 in
  let last := quad 10 0 0 14 in
  exists t1 h1 t2 h2,
    ip4a_insert fresh_root first last plenty = Ret (0, t1, h1) /\
    ip4a_insert t1 first last h1 = Ret (0, t2, h2) /\
    ip4a_count t1 = 15 /\
    ip4a_count t2 = 121 /\
    ip4a_fprint t2 = String.append "10.0.0.0/28" nl /\
    ip4a_fprint t1 <> ip4a_fprint t2.
Proof.
  cbv zeta.
  destruct (ip4a_insert fresh_root (quad 10 0 0 0) (quad 10 0 0 14) plenty)
    as [[[r t1] h1]|] eqn:E1; [|vm_compute in E1; discriminate].
  destruct (ip4a_insert t1 (quad 10 0 0 0) (quad 10 0 0 14) h1)
    as [[[r' t2] h2]|] eqn:E2;
    [|vm_compute in E1; inversion E1; subst; vm_compute in E2; discriminate].
  exists t1, h1, t2, h2.
  vm_compute in E1. inversion E1; subst. clear E1.
  vm_compute in E2. inversion E2; subst. clear E2.
  repeat split; try reflexivity; vm_compute; discriminate.
Qed.

(** C5, as stated, fails on the tree that [ip4a_new] returns: its root
    is a leaf of prefix length 0 and coverage 0, not 2^32.  It also fails
    below the root: the insertion of 10.0.0.5-10.0.0.3, a range that holds
    no address, returns 0 and leaves 10.0.0.0/28 as a leaf of coverage 0. *)
Lemma C5_new_tree_leaf_is_empty :
  (reachable fresh_root /\
   subnode fresh_root fresh_root /\
   leaf fresh_root = true /\
   coverage fresh_root <> 2 ^ (32 - plen fresh_root)) /\
  (reachable ex_backwards /\
   subnode ex_backwards_leaf ex_backwards /\
   leaf ex_backwards_leaf = true /\
   coverage ex_backwards_leaf <> 2 ^ (32 - plen ex_backwards_leaf)).
Proof.
  pose proof (reachable_new plenty _ _ fresh_root_new) as Hnew.
  split.
  - split; [exact Hnew|]. split; [constructor|]. split; [reflexivity|].
    vm_compute. discriminate.
  - split.
    { apply (reachable_insert fresh_root (quad 10 0 0 5) (quad 10 0 0 3)
               plenty ex_backwards (replicate 57 true) Hnew).
      vm_compute. reflexivity. }
    split.
    { eapply (subnode_below _ _ 0%nat); [vm_compute; reflexivity|].
      eapply (subnode_below _ _ 10%nat); [vm_compute; reflexivity|].
      do 5 (eapply (subnode_below _ _ 0%nat); [vm_compute; reflexivity|]).
      apply subnode_here. }
    split; [reflexivity|]. vm_compute. discriminate.
Qed.

(** C5, amended.  In every tree built by [ip4a_new] and successful calls
    of [ip4a_insert], a leaf covers either nothing (a node that was
    allocated and never filled, as the root of a new tree) or its whole
    subnet, 2^(32 - prefix length) addresses: no leaf is partially
    covered. *)
Theorem C5_leaf_covers_nothing_or_whole_subnet t m :
  reachable t -> subnode m t -> leaf m = true ->
  coverage m = 0 \/ coverage m = 2 ^ (32 - plen m).
Proof.
  intros Ht Hm Hlf.
  destruct (subnode_awf m t Hm 8%nat (reachable_awf t Ht)) as [h Hh].
  destruct (awf_leaf h m Hh Hlf) as [Hc _].
  rewrite (awf_plen h m Hh).
  replace (32 - (32 - 4 * Z.of_nat h)) with (4 * Z.of_nat h) by lia.
  exact Hc.
Qed.

End Ip4aggClaims.

(** * Properties of the tracker *)

Module ArpBits.
Import Arp ArpSpec.

Lemma nibble_range h a : 0 <= nibble h a < 16.
Proof. unfold nibble. apply Z.mod_pos_bound. lia. Qed.

Lemma prefix_0 a : prefix 0 a = a.
Proof. unfold prefix. simpl. rewrite Z.shiftr_0_r, Z.shiftl_0_r. reflexivity. Qed.

Lemma prefix_8 a : 0 <= a < 2 ^ 32 -> prefix 8 a = 0.
Proof.
  intros Ha. unfold prefix. change (4 * Z.of_nat 8) with 32.
  rewrite Z.shiftr_div_pow2 by lia. rewrite Z.div_small by lia. reflexivity.
Qed.

Lemma shifted_nibble_u32 h a :
  (h <= 7)%nat ->
  u32 (Z.shiftl (nibble h a) (4 * Z.of_nat h)) = Z.shiftl (nibble h a) (4 * Z.of_nat h).
Proof.
  intros Hh. unfold u32. apply Z.mod_small.
  rewrite Z.shiftl_mul_pow2 by lia.
  pose proof (nibble_range h a) as Hn.
  assert (0 < 2 ^ (4 * Z.of_nat h) <= 2 ^ 28).
  { split; [apply Z.pow_pos_nonneg; lia|apply Z.pow_le_mono_r; lia]. }
  nia.
Qed.

Lemma prefix_step h a :
  Z.lor (prefix (S h) a) (Z.shiftl (nibble h a) (4 * Z.of_nat h)) = prefix h a.
Proof.
  unfold prefix, nibble.
  replace (4 * Z.of_nat (S h)) with (4 * Z.of_nat h + 4) by lia.
  set (k := 4 * Z.of_nat h). assert (Hk : 0 <= k) by lia. clearbody k.
  apply Z.bits_inj'. intros n Hn.
  rewrite Z.lor_spec, !Z.shiftl_spec by lia.
  change 16 with (2 ^ 4).
  destruct (Z.lt_ge_cases n k) as [Hlt|Hge].
  - rewrite !Z.testbit_neg_r by lia. reflexivity.
  - destruct (Z.lt_ge_cases n (k + 4)) as [Hlt4|Hge4].
    + rewrite (Z.testbit_neg_r _ (n - (k + 4))) by lia.
      rewrite Z.mod_pow2_bits_low by lia. reflexivity.
    + rewrite Z.mod_pow2_bits_high by lia. rewrite orb_false_r.
      rewrite !Z.shiftr_spec by lia. f_equal. lia.
Qed.

Lemma length_path_of h a : length (path_of h a) = h.
Proof. induction h; simpl; congruence. Qed.

Lemma key_of_path h a : key_of (path_of h a) = a mod 2 ^ (4 * Z.of_nat h).
Proof.
  induction h as [|h IH].
  - simpl. rewrite Z.mod_1_r. reflexivity.
  - cbn [path_of key_of]. rewrite length_path_of, IH.
    pose proof (nibble_range h a) as Hn. rewrite Z2Nat.id by lia.
    unfold nibble. rewrite Z.shiftr_div_pow2 by lia.
    replace (4 * Z.of_nat (S h)) with (4 * Z.of_nat h + 4) by lia.
    rewrite Z.pow_add_r by lia. change (2 ^ 4) with 16.
    assert (0 < 2 ^ (4 * Z.of_nat h)) by (apply Z.pow_pos_nonneg; lia).
    rewrite Z.rem_mul_r by lia. lia.
Qed.

Lemma path_of_inj a b :
  0 <= a < 2 ^ 32 -> 0 <= b < 2 ^ 32 -> path_of 8 a = path_of 8 b -> a = b.
Proof.
  intros Ha Hb E. apply (f_equal key_of) in E.
  rewrite !key_of_path in E. change (2 ^ (4 * Z.of_nat 8)) with (2 ^ 32) in E.
  rewrite !Z.mod_small in E by lia. exact E.
Qed.

Lemma octet_range b : 0 <= octet b < 256.
Proof. unfold octet. pose proof (Byte.to_N_bounded b). lia. Qed.

Lemma be32toh_q_range ip4 : 0 <= be32toh_q ip4 < 2 ^ 32.
Proof.
  unfold be32toh_q.
  pose proof (octet_range (o0 ip4)). pose proof (octet_range (o1 ip4)).
  pose proof (octet_range (o2 ip4)). pose proof (octet_range (o3 ip4)). lia.
Qed.

Lemma octet_inj b c : octet b = octet c -> b = c.
Proof.
  unfold octet. intros E. apply N2Z.inj in E.
  pose proof (Byte.of_to_N b) as Hb. pose proof (Byte.of_to_N c) as Hc.
  rewrite E in Hb. congruence.
Qed.

Lemma be32toh_q_inj x y : be32toh_q x = be32toh_q y -> x = y.
Proof.
  destruct x as [a0 a1 a2 a3], y as [b0 b1 b2 b3]. unfold be32toh_q. simpl.
  pose proof (octet_range a0). pose proof (octet_range a1).
  pose proof (octet_range a2). pose proof (octet_range a3).
  pose proof (octet_range b0). pose proof (octet_range b1).
  pose proof (octet_range b2). pose proof (octet_range b3).
  intros E.
  assert (octet a0 = octet b0) by lia. assert (octet a1 = octet b1) by lia.
  assert (octet a2 = octet b2) by lia. assert (octet a3 = octet b3) by lia.
  f_equal; apply octet_inj; assumption.
Qed.

(** The indices that [arp_lookup] takes from the octets are those that
    [arp_insert] takes from the 32-bit word. *)
Lemma lookup_indices ip4 :
  map Z.to_nat
    [octet (o0 ip4) / 16; octet (o0 ip4) mod 16;
     octet (o1 ip4) / 16; octet (o1 ip4) mod 16;
     octet (o2 ip4) / 16; octet (o2 ip4) mod 16;
     octet (o3 ip4) / 16; octet (o3 ip4) mod 16]
  = path_of 8 (be32toh_q ip4).
Proof.
  unfold be32toh_q.
  pose proof (octet_range (o0 ip4)). pose proof (octet_range (o1 ip4)).
  pose proof (octet_range (o2 ip4)). pose proof (octet_range (o3 ip4)).
  set (a := octet (o0 ip4)) in *. set (b := octet (o1 ip4)) in *.
  set (c := octet (o2 ip4)) in *. set (d := octet (o3 ip4)) in *.
  clearbody a b c d.
  assert (Hnib : forall k : nat,
             nibble k (a * 2 ^ 24 + b * 2 ^ 16 + c * 2 ^ 8 + d)
             = (a * 2 ^ 24 + b * 2 ^ 16 + c * 2 ^ 8 + d) / 2 ^ (4 * Z.of_nat k) mod 16).
  { intros k. unfold nibble. rewrite Z.shiftr_div_pow2 by lia. reflexivity. }
  cbn [path_of map]. rewrite !Hnib.
  change (2 ^ (4 * Z.of_nat 7)) with 268435456.
  change (2 ^ (4 * Z.of_nat 6)) with 16777216.
  change (2 ^ (4 * Z.of_nat 5)) with 1048576.
  change (2 ^ (4 * Z.of_nat 4)) with 65536.
  change (2 ^ (4 * Z.of_nat 3)) with 4096.
  change (2 ^ (4 * Z.of_nat 2)) with 256.
  change (2 ^ (4 * Z.of_nat 1)) with 16.
  change (2 ^ (4 * Z.of_nat 0)) with 1.
  change (2 ^ 24) with 16777216. change (2 ^ 16) with 65536. change (2 ^ 8) with 256.
  repeat match goal with
         | |- _ :: _ = _ :: _ => f_equal
         | |- Z.to_nat _ = Z.to_nat _ => f_equal; Z.div_mod_to_equations; lia
         end.
Qed.

End ArpBits.

Module ArpTree.
Import Arp ArpSpec ArpBits.

Lemma twf_height h n : twf h n -> (h <= 8)%nat.
Proof. destruct h; simpl; tauto. Qed.

Lemma twf_plen h n : twf h n -> plen n = 32 - 4 * Z.of_nat h.
Proof. destruct h; simpl; tauto. Qed.

Lemma twf_leaf n : twf 0 n -> exists e r, data n = Leaf e r.
Proof. simpl. tauto. Qed.

Lemma twf_sub h n :
  twf (S h) n ->
  exists s, data n = Sub s /\ length s = 16%nat /\
    forall i c, s !! i = Some (Some c) ->
      addr c = Z.lor (addr n) (Z.shiftl (Z.of_nat i) (4 * Z.of_nat h)) /\ twf h c.
Proof. simpl. tauto. Qed.

Lemma twf_leaf_intro n e r : plen n = 32 -> data n = Leaf e r -> twf 0 n.
Proof. intros Hp Hd. simpl. split; [lia|]. split; [exact Hp|]. eauto. Qed.

Lemma twf_sub_intro h n s :
  (S h <= 8)%nat -> plen n = 32 - 4 * Z.of_nat (S h) ->
  data n = Sub s -> length s = 16%nat ->
  (forall i c, s !! i = Some (Some c) ->
     addr c = Z.lor (addr n) (Z.shiftl (Z.of_nat i) (4 * Z.of_nat h)) /\ twf h c) ->
  twf (S h) n.
Proof. intros Hh Hp Hd Hl Hc. simpl. split; [exact Hh|]. split; [exact Hp|]. eauto. Qed.

Lemma zero_data_leaf : zero_data 32 = Leaf ether_zero 0.
Proof. reflexivity. Qed.

Lemma zero_data_sub h :
  (S h <= 8)%nat -> zero_data (32 - 4 * Z.of_nat (S h)) = Sub (replicate 16 None).
Proof.
  intros Hh. unfold zero_data.
  destruct (Z.eqb_spec (32 - 4 * Z.of_nat (S h)) 32) as [E|_]; [lia|reflexivity].
Qed.

Lemma no_child i (c : arpn) : replicate 16 (@None arpn) !! i = Some (Some c) -> False.
Proof. intros Hi. apply lookup_replicate in Hi. destruct Hi as [Hi _]. discriminate. Qed.

(** The node that [arp_insert] allocates is well formed at its level. *)
Lemma fresh_twf h x when :
  (h <= 8)%nat -> twf h (new_arpn x (32 - 4 * Z.of_nat h) when).
Proof.
  intros Hh. destruct h as [|h].
  - apply (twf_leaf_intro _ ether_zero 0); reflexivity.
  - apply (twf_sub_intro h _ (replicate 16 None)).
    + exact Hh.
    + reflexivity.
    + unfold new_arpn. cbn [data]. apply zero_data_sub. exact Hh.
    + apply length_replicate.
    + intros i c Hi. destruct (no_child _ _ Hi).
Qed.

(** Below a fresh node there is nothing. *)
Lemma deref_fresh h x when q :
  (S h <= 8)%nat -> length q = S h ->
  deref (new_arpn x (32 - 4 * Z.of_nat (S h)) when) q = None.
Proof.
  intros Hh Hq. destruct q as [|j q]; [discriminate|].
  cbn [deref new_arpn data]. rewrite (zero_data_sub h Hh).
  destruct (replicate 16 (@None arpn) !! j) as [[c|]|] eqn:E; try reflexivity.
  destruct (no_child _ _ E).
Qed.

(** Putting a well-formed child back in its slot. *)
Lemma rebuild_spec h n s i sn' :
  twf (S h) n -> data n = Sub s -> (i < 16)%nat ->
  twf h sn' ->
  addr sn' = Z.lor (addr n) (Z.shiftl (Z.of_nat i) (4 * Z.of_nat h)) ->
  let n' := set_data (Sub (<[i := Some sn']> s)) n in
  twf (S h) n' /\ addr n' = addr n /\
  (forall q, deref n' (i :: q) = deref sn' q) /\
  (forall j q, j <> i -> deref n' (j :: q) = deref n (j :: q)).
Proof.
  intros Hn Hd Hi Hsn Ha n'.
  destruct (twf_sub _ _ Hn) as (s0 & Hd0 & Hl & Hc).
  assert (s0 = s) by congruence. subst s0.
  split; [|split; [reflexivity|split]].
  - apply (twf_sub_intro h n' (<[i := Some sn']> s)).
    + exact (twf_height _ _ Hn).
    + exact (twf_plen _ _ Hn).
    + reflexivity.
    + rewrite length_insert. exact Hl.
    + intros j c Hj. destruct (decide (i = j)) as [->|Hne].
      * rewrite list_lookup_insert_eq in Hj by lia.
        inversion Hj; subst. split; [exact Ha|exact Hsn].
      * rewrite list_lookup_insert_ne in Hj by exact Hne. exact (Hc j c Hj).
  - intros q. subst n'. cbn [deref set_data data].
    rewrite list_lookup_insert_eq by lia. reflexivity.
  - intros j q Hne. subst n'. cbn [deref set_data data]. rewrite Hd.
    rewrite list_lookup_insert_ne by congruence. reflexivity.
Qed.

(** What a pointer of full length reaches is a /32 node. *)
Lemma deref_twf h : forall n q lf,
  twf h n -> length q = h -> deref n q = Some lf -> twf 0 lf.
Proof.
  induction h as [|h IH]; intros n q lf Hn Hq Hd.
  - destruct q; [|discriminate]. simpl in Hd. congruence.
  - destruct q as [|j q]; [discriminate|].
    destruct (twf_sub _ _ Hn) as (s & Hs & Hl & Hc).
    cbn [deref] in Hd. rewrite Hs in Hd.
    destruct (s !! j) as [[c|]|] eqn:E; try discriminate.
    apply (IH c q lf); [exact (proj2 (Hc j c E))|simpl in Hq; lia|exact Hd].
Qed.

(** The /32 node on the path of [a] has the address [a]. *)
Lemma deref_addr h : forall n a lf,
  twf h n -> addr n = prefix h a ->
  deref n (path_of h a) = Some lf -> addr lf = a.
Proof.
  induction h as [|h IH]; intros n a lf Hn Ha Hd.
  - simpl in Hd. inversion Hd; subst. rewrite Ha. apply prefix_0.
  - destruct (twf_sub _ _ Hn) as (s & Hs & Hl & Hc).
    cbn [deref path_of] in Hd. rewrite Hs in Hd.
    destruct (s !! Z.to_nat (nibble h a)) as [[c|]|] eqn:E; try discriminate.
    destruct (Hc _ c E) as [Hca Hcw].
    apply (IH c a lf Hcw); [|exact Hd].
    rewrite Hca, Ha. pose proof (nibble_range h a).
    rewrite Z2Nat.id by lia. apply prefix_step.
Qed.

(** [arp_insert] on a well-formed subtree that lies on the path of [a]:
    it returns, the tree stays well formed, no other /32 node changes,
    and the pointer returned is the path of [a], to the node that was
    there or to a new one. *)
Lemma insert_spec h : forall fuel n a when hp,
  (h < fuel)%nat -> twf h n -> addr n = prefix h a ->
  exists rn n' hp',
    arp_insert_rec fuel n a when hp = Ret (rn, n', hp') /\
    twf h n' /\ addr n' = addr n /\
    (forall q, length q = h -> q <> path_of h a -> deref n' q = deref n q) /\
    match rn with
    | Some p =>
        p = path_of h a /\
        exists lf, deref n' p = Some lf /\
          (deref n p = Some lf \/ (deref n p = None /\ lf = new_arpn a 32 when))
    | None => deref n' (path_of h a) = None /\ deref n (path_of h a) = None
    end.
Proof.
  induction h as [|h IH]; intros fuel n a when hp Hfuel Hn Ha;
    (destruct fuel as [|fuel]; [lia|]);
    pose proof (twf_plen _ _ Hn) as Hp; cbn [arp_insert_rec].
  - (* the /32 node: the assertion holds *)
    rewrite Hp. change (32 - 4 * Z.of_nat 0 =? 32) with true. cbv iota.
    assert (Haa : addr n = a) by (rewrite Ha; apply prefix_0).
    rewrite (proj2 (Z.eqb_eq (addr n) a) Haa).
    exists (Some []), n, hp. split; [reflexivity|]. split; [exact Hn|].
    split; [reflexivity|]. split.
    + intros q Hq Hne. destruct q; [contradiction|discriminate].
    + split; [reflexivity|]. exists n. simpl. eauto.
  - pose proof (twf_height _ _ Hn) as Hh.
    destruct (twf_sub _ _ Hn) as (s & Hs & Hl & Hc).
    destruct (Z.eqb_spec (plen n) 32) as [E|_]; [lia|].
    assert (Hsplen : u8 (plen n + 4) = 32 - 4 * Z.of_nat h).
    { rewrite Hp. unfold u8. rewrite Z.mod_small; lia. }
    rewrite Hsplen.
    replace (32 - (32 - 4 * Z.of_nat h)) with (4 * Z.of_nat h) by lia.
    unfold shr32, shl32.
    rewrite (proj2 (Z.leb_le 0 (4 * Z.of_nat h))) by lia.
    rewrite (proj2 (Z.ltb_lt (4 * Z.of_nat h) 32)) by lia.
    cbn [andb obind].
    change (Z.shiftr a (4 * Z.of_nat h) mod 16) with (nibble h a).
    pose proof (nibble_range h a) as Hnib.
    unfold get_sub. rewrite Hs. cbn [obind].
    destruct (lookup_lt_is_Some_2 s (Z.to_nat (nibble h a))) as [slot Hslot]; [lia|].
    rewrite Hslot.
    assert (Hoff : Z.lor (addr n) (Z.shiftl (Z.of_nat (Z.to_nat (nibble h a)))
                                      (4 * Z.of_nat h)) = prefix h a).
    { rewrite Z2Nat.id by lia. rewrite Ha. apply prefix_step. }
    destruct slot as [sn|].
    + (* the child exists *)
      cbn [obind]. destruct (Hc _ sn Hslot) as [Hsna Hsnw].
      destruct (IH fuel sn a when hp ltac:(lia) Hsnw ltac:(congruence))
        as (rn & sn' & h2 & E & Hw' & Ha' & Hframe & Hrn).
      rewrite E. cbn [obind].
      destruct (rebuild_spec h n s (Z.to_nat (nibble h a)) sn' Hn Hs ltac:(lia) Hw'
                  ltac:(congruence))
        as (Hnw & Hna & Hhit & Hmiss).
      do 3 eexists. split; [reflexivity|]. split; [exact Hnw|]. split; [exact Hna|].
      assert (Hold : forall q, deref n (Z.to_nat (nibble h a) :: q) = deref sn q).
      { intros q. cbn [deref]. rewrite Hs, Hslot. reflexivity. }
      split.
      * intros q Hq Hne. destruct q as [|j q]; [discriminate|].
        destruct (decide (j = Z.to_nat (nibble h a))) as [->|Hj].
        -- rewrite Hhit, Hold. apply Hframe; [simpl in Hq; lia|].
           intros Eq. apply Hne. cbn [path_of]. congruence.
        -- apply Hmiss. exact Hj.
      * destruct rn as [p|]; cbn [option_map path_of].
        -- destruct Hrn as (-> & lf & Hlf & Hwas). split; [reflexivity|].
           exists lf. rewrite Hhit, Hold. eauto.
        -- rewrite Hhit, Hold. exact Hrn.
    + (* the child is allocated *)
      assert (Hnone : forall q, deref n (Z.to_nat (nibble h a) :: q) = None).
      { intros q. cbn [deref]. rewrite Hs, Hslot. reflexivity. }
      destruct hp as [|[|] hp']; cbn [calloc obind snd].
      * exists None, n, []. split; [reflexivity|]. split; [exact Hn|].
        split; [reflexivity|]. split; [reflexivity|]. cbn [path_of]. eauto.
      * rewrite shifted_nibble_u32 by lia.
        assert (Haddr : Z.lor (addr n) (Z.shiftl (nibble h a) (4 * Z.of_nat h))
                        = prefix h a).
        { rewrite Ha. apply prefix_step. }
        rewrite Haddr.
        pose proof (fresh_twf h (prefix h a) when ltac:(lia)) as Hfw.
        destruct (IH fuel _ a when hp' ltac:(lia) Hfw eq_refl)
          as (rn & sn' & h2 & E & Hw' & Ha' & Hframe & Hrn).
        rewrite E. cbn [obind].
        destruct (rebuild_spec h n s (Z.to_nat (nibble h a)) sn' Hn Hs ltac:(lia) Hw'
                    ltac:(rewrite Ha'; cbn [addr new_arpn]; congruence))
          as (Hnw & Hna & Hhit & Hmiss).
        do 3 eexists. split; [reflexivity|]. split; [exact Hnw|]. split; [exact Hna|].
        assert (Hfresh : forall q, length q = h -> q <> path_of h a ->
                                   deref (new_arpn (prefix h a) (32 - 4 * Z.of_nat h) when) q
                                   = None).
        { intros q Hq Hne. destruct h as [|h'].
          - destruct q; [contradiction|discriminate].
          - apply deref_fresh; [lia|exact Hq]. }
        split.
        -- intros q Hq Hne. destruct q as [|j q]; [discriminate|].
           destruct (decide (j = Z.to_nat (nibble h a))) as [->|Hj].
           ++ rewrite Hhit, Hnone.
              assert (Hq' : length q = h) by (simpl in Hq; lia).
              assert (Hne' : q <> path_of h a)
                by (intros Eq; apply Hne; cbn [path_of]; congruence).
              rewrite (Hframe q Hq' Hne'). apply Hfresh; assumption.
           ++ apply Hmiss. exact Hj.
        -- destruct rn as [p|]; cbn [option_map path_of].
           ++ destruct Hrn as (-> & lf & Hlf & Hwas). split; [reflexivity|].
              exists lf. rewrite Hhit, Hnone. split; [exact Hlf|]. right.
              split; [reflexivity|].
              destruct Hwas as [Hwas|[_ Hwas]]; [|exact Hwas].
              destruct h as [|h'].
              ** simpl in Hwas. inversion Hwas. rewrite prefix_0. reflexivity.
              ** rewrite deref_fresh in Hwas; [discriminate|lia|apply length_path_of].
           ++ rewrite Hhit, Hnone. split; [exact (proj1 Hrn)|reflexivity].
      * exists None, n, hp'. split; [reflexivity|]. split; [exact Hn|].
        split; [reflexivity|]. split; [reflexivity|]. cbn [path_of]. eauto.
Qed.

(** Assignment through a pointer to a /32 node. *)
Lemma assign_spec h : forall n p lf v,
  twf h n -> length p = h -> deref n p = Some lf ->
  twf 0 v -> addr v = addr lf ->
  twf h (assign n p v) /\ addr (assign n p v) = addr n /\
  deref (assign n p v) p = Some v /\
  (forall q, length q = h -> q <> p -> deref (assign n p v) q = deref n q).
Proof.
  induction h as [|h IH]; intros n p lf v Hn Hp Hd Hv Hva.
  - destruct p; [|discriminate]. simpl in Hd. inversion Hd; subst.
    cbn [assign deref]. split; [exact Hv|]. split; [exact Hva|].
    split; [reflexivity|].
    intros q Hq Hne. destruct q; [contradiction|discriminate].
  - destruct p as [|i p]; [discriminate|].
    destruct (twf_sub _ _ Hn) as (s & Hs & Hl & Hc).
    cbn [deref] in Hd. rewrite Hs in Hd. cbn [assign]. rewrite Hs.
    destruct (s !! i) as [[c|]|] eqn:E; try discriminate.
    destruct (Hc i c E) as [Hca Hcw].
    destruct (IH c p lf v Hcw ltac:(simpl in Hp; lia) Hd Hv Hva)
      as (Hw' & Ha' & Hhit' & Hmiss').
    assert (Hi : (i < 16)%nat) by (rewrite <- Hl; eapply lookup_lt_Some; exact E).
    destruct (rebuild_spec h n s i (assign c p v) Hn Hs Hi Hw' ltac:(congruence))
      as (Hnw & Hna & Hhit & Hmiss).
    split; [exact Hnw|]. split; [exact Hna|]. split.
    + rewrite Hhit. exact Hhit'.
    + intros q Hq Hne. destruct q as [|j q]; [discriminate|].
      destruct (decide (j = i)) as [->|Hj].
      * rewrite Hhit. cbn [deref]. rewrite Hs, E.
        apply Hmiss'; [simpl in Hq; lia|congruence].
      * apply Hmiss. exact Hj.
Qed.

End ArpTree.

Module ArpWorld.
Import Arp ArpSpec ArpBits ArpTree.

Lemma bind_run {A B : Type} (m : M A) (k : A -> M B) w a w' :
  m w = Ret (a, w') -> bind m k w = k a w'.
Proof. intros E. unfold bind. rewrite E. reflexivity. Qed.

Lemma lift_run {A : Type} (o : outcome A) a w : o = Ret a -> lift o w = Ret (a, w).
Proof. intros E. unfold lift. rewrite E. reflexivity. Qed.

Lemma ether_eqb_eq a b : ether_eqb a b = true -> a = b.
Proof.
  destruct a, b. unfold ether_eqb. cbn [e0 e1 e2 e3 e4 e5].
  rewrite !andb_true_iff. intros [[[[[H0 H1] H2] H3] H4] H5].
  apply Byte.byte_dec_bl in H0, H1, H2, H3, H4, H5. congruence.
Qed.

Lemma ether_eqb_refl a : ether_eqb a a = true.
Proof.
  destruct a. unfold ether_eqb. cbn [e0 e1 e2 e3 e4 e5].
  rewrite !(Byte.byte_dec_lb eq_refl). reflexivity.
Qed.

Lemma wwf_init h tx : wwf (init h tx).
Proof.
  split; [|reflexivity]. cbn [init arp_root].
  apply (twf_sub_intro 7 arp_root_init (replicate 16 None)).
  - lia.
  - reflexivity.
  - reflexivity.
  - apply length_replicate.
  - intros i c Hi. destruct (no_child _ _ Hi).
Qed.

Lemma rec_at_init h tx a : rec_at (init h tx) a = None.
Proof.
  unfold rec_at. cbn [init arp_root path_of deref arp_root_init data].
  change (zero_data 0) with (@Sub arpn (replicate 16 None)). cbv iota.
  destruct (replicate 16 (@None arpn) !! Z.to_nat (nibble 7 a)) as [[c|]|] eqn:E;
    try reflexivity.
  destruct (no_child _ _ E).
Qed.

(** A /32 record is a leaf of the union, of prefix length 32, and it
    carries its own address. *)
Lemma rec_leaf w a lf :
  wwf w -> rec_at w a = Some lf ->
  plen lf = 32 /\ (exists e r, data lf = Leaf e r) /\
  (0 <= a < 2 ^ 32 -> addr lf = a).
Proof.
  intros [Hw H0] Hlf. unfold rec_at in Hlf.
  pose proof (deref_twf 8 _ _ _ Hw (length_path_of 8 a) Hlf) as Hl.
  split; [exact (twf_plen _ _ Hl)|]. split; [exact (twf_leaf _ Hl)|].
  intros Ha. apply (deref_addr 8 (arp_root w) a lf Hw); [|exact Hlf].
  rewrite H0. symmetry. apply prefix_8. exact Ha.
Qed.

Lemma u32_id a : 0 <= a < 2 ^ 32 -> u32 a = a.
Proof. intros Ha. unfold u32. apply Z.mod_small. exact Ha. Qed.

Lemma path_of_neq a b :
  0 <= a < 2 ^ 32 -> 0 <= b < 2 ^ 32 -> b <> a -> path_of 8 b <> path_of 8 a.
Proof. intros Ha Hb Hne E. apply Hne. apply path_of_inj; assumption. Qed.

(** [arp_insert] on the whole tree. *)
Lemma arp_insert_spec w a when :
  wwf w -> 0 <= a < 2 ^ 32 ->
  exists rn w',
    arp_insert a when w = Ret (rn, w') /\
    wwf w' /\ wire w' = wire w /\ sent w' = sent w /\
    (forall b, 0 <= b < 2 ^ 32 -> b <> a -> rec_at w' b = rec_at w b) /\
    match rn with
    | Some p =>
        p = path_of 8 a /\
        exists lf, rec_at w' a = Some lf /\
          (rec_at w a = Some lf \/
           (rec_at w a = None /\ lf = new_arpn a 32 (u64 when)))
    | None => rec_at w' a = None /\ rec_at w a = None
    end.
Proof.
  intros [Hw H0] Ha. unfold arp_insert. rewrite (u32_id a Ha).
  destruct (insert_spec 8 depth_fuel (arp_root w) a (u64 when) (mem w)
              ltac:(unfold depth_fuel; lia) Hw
              ltac:(rewrite H0; symmetry; apply prefix_8; exact Ha))
    as (rn & n' & h' & E & Hw' & Ha' & Hframe & Hrn).
  rewrite E. cbn [obind].
  do 2 eexists. split; [reflexivity|].
  split; [split; [exact Hw'|cbn [arp_root]; congruence]|].
  split; [reflexivity|]. split; [reflexivity|]. split.
  - intros b Hb Hne. unfold rec_at. cbn [arp_root].
    apply Hframe; [apply length_path_of|apply path_of_neq; assumption].
  - unfold rec_at. cbn [arp_root]. destruct rn as [p|]; [|exact Hrn].
    destruct Hrn as (-> & Hrn). split; [reflexivity|exact Hrn].
Qed.

Lemma load_spec w a lf :
  rec_at w a = Some lf -> load (path_of 8 a) w = Ret (lf, w).
Proof. intros E. unfold load. unfold rec_at in E. rewrite E. reflexivity. Qed.

(** Assignments to fields of a /32 record that leave its address, its
    prefix length and the live member of its union alone. *)
Lemma store_spec w a lf f lf' :
  wwf w -> 0 <= a < 2 ^ 32 -> rec_at w a = Some lf ->
  f lf = Ret lf' ->
  plen lf' = 32 -> (exists e r, data lf' = Leaf e r) -> addr lf' = addr lf ->
  exists w',
    store (path_of 8 a) f w = Ret (tt, w') /\
    wwf w' /\ mem w' = mem w /\ wire w' = wire w /\ sent w' = sent w /\
    rec_at w' a = Some lf' /\
    (forall b, 0 <= b < 2 ^ 32 -> b <> a -> rec_at w' b = rec_at w b).
Proof.
  intros [Hw H0] Ha Hlf Hf Hp (e & r & Hd) Haddr.
  unfold store. unfold rec_at in Hlf. rewrite Hlf, Hf. cbn [obind].
  destruct (assign_spec 8 (arp_root w) (path_of 8 a) lf lf' Hw
              (length_path_of 8 a) Hlf (twf_leaf_intro lf' e r Hp Hd) Haddr)
    as (Hw' & Ha' & Hhit & Hmiss).
  eexists. split; [reflexivity|].
  split; [split; [exact Hw'|cbn [arp_root]; congruence]|].
  split; [reflexivity|]. split; [reflexivity|]. split; [reflexivity|].
  split; [exact Hhit|].
  intros b Hb Hne. unfold rec_at. cbn [arp_root].
  apply Hmiss; [apply length_path_of|apply path_of_neq; assumption].
Qed.

(** The chain of [arp_lookup] follows the pointer. *)
Lemma chain_spec h : forall n idx,
  twf h n -> length idx = h -> Forall (fun i => 0 <= i < 16) idx ->
  arp_lookup_chain n idx = Ret (deref n (map Z.to_nat idx)).
Proof.
  induction h as [|h IH]; intros n idx Hn Hl Hidx.
  - destruct idx; [reflexivity|discriminate].
  - destruct idx as [|i idx]; [discriminate|].
    inversion Hidx as [|? ? Hi Hidx']; subst.
    destruct (twf_sub _ _ Hn) as (s & Hs & Hls & Hc).
    cbn [arp_lookup_chain map deref]. unfold get_sub. rewrite Hs. cbn [obind].
    destruct (lookup_lt_is_Some_2 s (Z.to_nat i)) as [slot Hslot]; [lia|].
    rewrite Hslot. destruct slot as [c|]; [|reflexivity].
    apply IH; [exact (proj2 (Hc _ c Hslot))|simpl in Hl; lia|exact Hidx'].
Qed.

Lemma arp_lookup_spec w ip4 ether :
  wwf w ->
  arp_lookup ip4 ether w =
  Ret (match rec_at w (be32toh_q ip4) with
       | Some lf => (0, ether_of lf)
       | None => (-1, ether)
       end, w).
Proof.
  intros Hw. unfold arp_lookup.
  pose proof (octet_range (o0 ip4)). pose proof (octet_range (o1 ip4)).
  pose proof (octet_range (o2 ip4)). pose proof (octet_range (o3 ip4)).
  rewrite (chain_spec 8 (arp_root w)); [|exact (proj1 Hw)|reflexivity|].
  - rewrite lookup_indices. cbn [obind]. fold (rec_at w (be32toh_q ip4)).
    destruct (rec_at w (be32toh_q ip4)) as [lf|] eqn:E; [|reflexivity].
    destruct (rec_leaf w _ lf Hw E) as (_ & (e & r & Hd) & _).
    unfold get_ether, ether_of. rewrite Hd. reflexivity.
  - repeat constructor;
      try (apply Z.div_pos; lia); try (apply Z.div_lt_upper_bound; lia);
      try (apply Z.mod_pos_bound; lia).
Qed.

Lemma leaf_form lf e r :
  plen lf = 32 -> data lf = Leaf e r ->
  lf = Arpn (addr lf) 32 (claimed lf) (reserved lf) (first lf) (last lf) (Leaf e r).
Proof. destruct lf. cbn. intros -> ->. reflexivity. Qed.

Lemma set_data_same lf d : data lf = d -> set_data d lf = lf.
Proof. destruct lf. cbn. intros ->. reflexivity. Qed.

(** [arp_register]: it returns; only the record of the address changes;
    on success the record, old or new, holds the link-layer address and
    a zero counter. *)
Lemma arp_register_spec w ip4 ether when :
  wwf w ->
  exists r w',
    arp_register ip4 ether when w = Ret (r, w') /\
    wwf w' /\ wire w' = wire w /\ sent w' = sent w /\
    (forall b, 0 <= b < 2 ^ 32 -> b <> be32toh_q ip4 -> rec_at w' b = rec_at w b) /\
    ((r = -1 /\ rec_at w' (be32toh_q ip4) = None /\ rec_at w (be32toh_q ip4) = None) \/
     (r = 0 /\ exists lf0,
         (rec_at w (be32toh_q ip4) = Some lf0 \/
          (rec_at w (be32toh_q ip4) = None /\
           lf0 = new_arpn (be32toh_q ip4) 32 (u64 when))) /\
         rec_at w' (be32toh_q ip4) = Some (registered ether lf0))).
Proof.
  intros Hw. pose proof (be32toh_q_range ip4) as Hk. set (k := be32toh_q ip4) in *.
  destruct (arp_insert_spec w k when Hw Hk)
    as (rn & w1 & E1 & Hw1 & Hwire1 & Hsent1 & Hframe1 & Hrn).
  unfold arp_register. fold k. rewrite (bind_run _ _ _ _ _ E1).
  destruct rn as [p|].
  - destruct Hrn as (-> & lf & Hlf & Hwas).
    rewrite (bind_run _ _ _ _ _ (load_spec w1 k lf Hlf)).
    destruct (rec_leaf w1 k lf Hw1 Hlf) as (Hp & (e0 & r0 & Hd) & Haddr).
    assert (Hge : get_ether lf = Ret e0) by (unfold get_ether; rewrite Hd; reflexivity).
    rewrite (bind_run _ _ _ _ _ (lift_run _ _ w1 Hge)).
    assert (Hmid : exists w2,
               (if negb (ether_eqb e0 ether)
                then store (path_of 8 k) (set_ether ether)
                else ret tt) w1 = Ret (tt, w2) /\
               wwf w2 /\ wire w2 = wire w1 /\ sent w2 = sent w1 /\
               (exists r1, rec_at w2 k = Some (set_data (Leaf ether r1) lf)) /\
               (forall b, 0 <= b < 2 ^ 32 -> b <> k -> rec_at w2 b = rec_at w1 b)).
    { destruct (ether_eqb e0 ether) eqn:Eq; cbn [negb].
      - apply ether_eqb_eq in Eq. subst e0. exists w1.
        split; [reflexivity|]. split; [exact Hw1|].
        split; [reflexivity|]. split; [reflexivity|]. split; [|reflexivity].
        exists r0. rewrite Hlf. f_equal. symmetry. apply set_data_same. exact Hd.
      - destruct (store_spec w1 k lf (set_ether ether) (set_data (Leaf ether r0) lf)
                    Hw1 Hk Hlf) as (w2 & E2 & Hw2 & _ & Hwire2 & Hsent2 & Hrec2 & Hframe2).
        + unfold set_ether. rewrite Hd. reflexivity.
        + exact Hp.
        + eauto.
        + reflexivity.
        + exists w2. repeat (split; [assumption|]). split; [eauto|exact Hframe2]. }
    destruct Hmid as (w2 & E2 & Hw2 & Hwire2 & Hsent2 & (r1 & Hrec2) & Hframe2).
    rewrite (bind_run _ _ _ _ _ E2).
    destruct (store_spec w2 k _ (set_nreq 0) (registered ether lf) Hw2 Hk Hrec2)
      as (w3 & E3 & Hw3 & _ & Hwire3 & Hsent3 & Hrec3 & Hframe3).
    + reflexivity.
    + exact Hp.
    + unfold registered. cbn [set_data data]. eauto.
    + reflexivity.
    + rewrite (bind_run _ _ _ _ _ E3). unfold ret.
      do 2 eexists. split; [reflexivity|]. split; [exact Hw3|].
      split; [congruence|]. split; [congruence|]. split.
      * intros b Hb Hne. rewrite Hframe3, Hframe2, Hframe1 by assumption. reflexivity.
      * right. split; [reflexivity|]. exists lf. split; [exact Hwas|exact Hrec3].
  - unfold ret. do 2 eexists. split; [reflexivity|]. split; [exact Hw1|].
    split; [exact Hwire1|]. split; [exact Hsent1|]. split; [exact Hframe1|].
    left. split; [reflexivity|exact Hrn].
Qed.

(** [arp_reserve]: as [arp_register], and on success the record is marked. *)
Lemma arp_reserve_spec w ip4 :
  wwf w ->
  exists r w',
    arp_reserve ip4 w = Ret (r, w') /\
    wwf w' /\ wire w' = wire w /\ sent w' = sent w /\
    (forall b, 0 <= b < 2 ^ 32 -> b <> be32toh_q ip4 -> rec_at w' b = rec_at w b) /\
    ((r = -1 /\ rec_at w' (be32toh_q ip4) = None /\ rec_at w (be32toh_q ip4) = None) \/
     (r = 0 /\ exists lf0,
         (rec_at w (be32toh_q ip4) = Some lf0 \/
          (rec_at w (be32toh_q ip4) = None /\
           lf0 = new_arpn (be32toh_q ip4) 32 0)) /\
         rec_at w' (be32toh_q ip4) = Some (set_reserved true lf0))).
Proof.
  intros Hw. pose proof (be32toh_q_range ip4) as Hk. set (k := be32toh_q ip4) in *.
  destruct (arp_insert_spec w k 0 Hw Hk)
    as (rn & w1 & E1 & Hw1 & Hwire1 & Hsent1 & Hframe1 & Hrn).
  unfold arp_reserve. fold k. rewrite (bind_run _ _ _ _ _ E1).
  destruct rn as [p|].
  - destruct Hrn as (-> & lf & Hlf & Hwas).
    destruct (rec_leaf w1 k lf Hw1 Hlf) as (Hp & (e0 & r0 & Hd) & Haddr).
    destruct (store_spec w1 k lf (fun n => Ret (set_reserved true n))
                (set_reserved true lf) Hw1 Hk Hlf eq_refl Hp
                ltac:(exists e0, r0; exact Hd) eq_refl)
      as (w2 & E2 & Hw2 & _ & Hwire2 & Hsent2 & Hrec2 & Hframe2).
    rewrite (bind_run _ _ _ _ _ E2). unfold ret.
    do 2 eexists. split; [reflexivity|]. split; [exact Hw2|].
    split; [congruence|]. split; [congruence|]. split.
    + intros b Hb Hne. rewrite Hframe2, Hframe1 by assumption. reflexivity.
    + right. split; [reflexivity|]. exists lf. split; [exact Hwas|exact Hrec2].
  - unfold ret. do 2 eexists. split; [reflexivity|]. split; [exact Hw1|].
    split; [exact Hwire1|]. split; [exact Hsent1|]. split; [exact Hframe1|].
    left. split; [reflexivity|exact Hrn].
Qed.

End ArpWorld.

Module ArpAnalyzer.
Import Arp ArpSpec ArpBits ArpTree ArpWorld.

Lemma wwf_root w w' : arp_root w' = arp_root w -> wwf w -> wwf w'.
Proof. unfold wwf. intros ->. tauto. Qed.

Lemma rec_at_root w w' b : arp_root w' = arp_root w -> rec_at w' b = rec_at w b.
Proof. unfold rec_at. intros ->. reflexivity. Qed.

Lemma u64_idem x : u64 (u64 x) = u64 x.
Proof. unfold u64. apply Z.mod_mod. lia. Qed.

(** A store to the record of [a], then [return (0)]. *)
Lemma store_done w a lf f lf' :
  wwf w -> 0 <= a < 2 ^ 32 -> rec_at w a = Some lf ->
  f lf = Ret lf' ->
  plen lf' = 32 -> (exists e r, data lf' = Leaf e r) -> addr lf' = addr lf ->
  exists w',
    bind (store (path_of 8 a) f) (fun _ => ret 0) w = Ret (0, w') /\
    wwf w' /\ sent w' = sent w /\
    rec_at w' a = Some lf' /\
    (forall b, 0 <= b < 2 ^ 32 -> b <> a -> rec_at w' b = rec_at w b).
Proof.
  intros Hw Ha Hlf Hf Hp Hd Haddr.
  destruct (store_spec w a lf f lf' Hw Ha Hlf Hf Hp Hd Haddr)
    as (w' & E & Hw' & _ & _ & Hsent & Hrec & Hframe).
  exists w'. rewrite (bind_run _ _ _ _ _ E). unfold ret. auto.
Qed.

Section Facts.

Variable env : arp_env.

Lemma arp_reply_spec fl iap p w :
  exists r w',
    arp_reply env fl iap p w = Ret (r, w') /\
    arp_root w' = arp_root w /\
    sent w' = sent w ++ [reply_to env fl iap] /\
    (r = 0 \/ r = -1).
Proof.
  unfold arp_reply, bind, ethernet_reply, reply_to.
  destruct (wire w) as [|x tx]; cbn [obind fst snd].
  - unfold ret. do 2 eexists. split; [reflexivity|]. cbn. auto.
  - destruct (x =? 0) eqn:E; cbn [negb]; unfold ret;
      do 2 eexists; (split; [reflexivity|]); cbn; auto.
Qed.

(** A store to the record of [a], then the reply. *)
Lemma store_reply w a lf f lf' fl iap :
  wwf w -> 0 <= a < 2 ^ 32 -> rec_at w a = Some lf ->
  f lf = Ret lf' ->
  plen lf' = 32 -> (exists e r, data lf' = Leaf e r) -> addr lf' = addr lf ->
  exists r w',
    bind (store (path_of 8 a) f)
         (fun _ => bind (arp_reply env fl iap (path_of 8 a))
                     (fun r => if negb (r =? 0) then ret (-1) else ret 0)) w
    = Ret (r, w') /\
    wwf w' /\ sent w' = sent w ++ [reply_to env fl iap] /\
    rec_at w' a = Some lf' /\
    (forall b, 0 <= b < 2 ^ 32 -> b <> a -> rec_at w' b = rec_at w b) /\
    (r = 0 \/ r = -1).
Proof.
  intros Hw Ha Hlf Hf Hp Hd Haddr.
  destruct (store_spec w a lf f lf' Hw Ha Hlf Hf Hp Hd Haddr)
    as (w1 & E & Hw1 & _ & _ & Hsent & Hrec & Hframe).
  rewrite (bind_run _ _ _ _ _ E).
  destruct (arp_reply_spec fl iap (path_of 8 a) w1)
    as (r & w2 & E2 & Hroot & Hsent2 & Hr).
  rewrite (bind_run _ _ _ _ _ E2).
  exists (if negb (r =? 0) then -1 else 0), w2.
  split; [destruct (negb (r =? 0)); reflexivity|].
  split; [exact (wwf_root _ _ Hroot Hw1)|].
  split; [congruence|].
  split; [rewrite (rec_at_root _ _ _ Hroot); exact Hrec|].
  split; [intros b Hb Hne; rewrite (rec_at_root _ _ _ Hroot); auto|].
  destruct (negb (r =? 0)); auto.
Qed.

(** Packets that fail validation. *)
Lemma analyze_short fl ap len w :
  len < (sizeof_arp_pkt env) -> packet_analyze_arp env fl ap len w = Ret (-1, w).
Proof.
  intros Hlen. unfold packet_analyze_arp.
  rewrite (proj2 (Z.ltb_lt _ _) Hlen). reflexivity.
Qed.

Lemma analyze_bad_header fl ap len w :
  (sizeof_arp_pkt env) <= len -> header_ok env ap = false -> packet_analyze_arp env fl ap len w = Ret (0, w).
Proof.
  intros Hlen Hh. unfold packet_analyze_arp.
  rewrite (proj2 (Z.ltb_ge _ _) Hlen).
  unfold header_ok in Hh.
  destruct (htype ap =? (arp_type_ether env)), (hlen ap =? 6),
           (ptype ap =? (arp_type_ip4 env)), (plen_ ap =? 4);
    try discriminate; reflexivity.
Qed.

Lemma analyze_unknown_oper fl ap len w :
  (sizeof_arp_pkt env) <= len -> header_ok env ap = true ->
  oper ap <> (arp_oper_who_has env) -> oper ap <> (arp_oper_is_at env) ->
  packet_analyze_arp env fl ap len w = Ret (0, w).
Proof.
  intros Hlen Hh Hw Hi. unfold packet_analyze_arp.
  rewrite (proj2 (Z.ltb_ge _ _) Hlen).
  unfold header_ok in Hh.
  destruct (htype ap =? (arp_type_ether env)), (hlen ap =? 6),
           (ptype ap =? (arp_type_ip4 env)), (plen_ ap =? 4);
    try discriminate. cbn [negb orb].
  rewrite (proj2 (Z.eqb_neq _ _) Hw), (proj2 (Z.eqb_neq _ _) Hi). reflexivity.
Qed.

Lemma analyze_out_of_bounds fl ap len w :
  is_request env ap len = true -> out_of_bounds env (be32toh_q (tpa ap)) = true ->
  packet_analyze_arp env fl ap len w = Ret (0, w).
Proof.
  intros Hreq Hoob. unfold is_request, header_ok in Hreq.
  apply andb_true_iff in Hreq. destruct Hreq as [Hreq Hop].
  apply andb_true_iff in Hreq. destruct Hreq as [Hlen Hh].
  unfold packet_analyze_arp.
  rewrite (proj2 (Z.ltb_ge _ _) (proj1 (Z.leb_le _ _) Hlen)).
  destruct (htype ap =? (arp_type_ether env)), (hlen ap =? 6),
           (ptype ap =? (arp_type_ip4 env)), (plen_ ap =? 4);
    try discriminate. cbn [negb orb].
  rewrite Hop. cbn [negb andb]. rewrite Hoob. reflexivity.
Qed.

(** A well-formed is-at packet: the two registrations, and success. *)
Lemma announcement_step fl ap len w :
  wwf w -> is_announcement env ap len = true ->
  exists r1 w1 r2 w2,
    arp_register (spa ap) (sha ap) (timestamp fl) w = Ret (r1, w1) /\
    arp_register (tpa ap) (tha ap) (timestamp fl) w1 = Ret (r2, w2) /\
    packet_analyze_arp env fl ap len w = Ret (0, w2) /\ wwf w1 /\ wwf w2.
Proof.
  intros Hw Hann. unfold is_announcement, header_ok in Hann.
  apply andb_true_iff in Hann. destruct Hann as [Hann Hat].
  apply andb_true_iff in Hann. destruct Hann as [Hann Hnw].
  apply andb_true_iff in Hann. destruct Hann as [Hlen Hh].
  destruct (arp_register_spec w (spa ap) (sha ap) (timestamp fl) Hw)
    as (r1 & w1 & E1 & Hw1 & _).
  destruct (arp_register_spec w1 (tpa ap) (tha ap) (timestamp fl) Hw1)
    as (r2 & w2 & E2 & Hw2 & _).
  exists r1, w1, r2, w2. split; [exact E1|]. split; [exact E2|].
  split; [|split; assumption].
  unfold packet_analyze_arp.
  rewrite (proj2 (Z.ltb_ge _ _) (proj1 (Z.leb_le _ _) Hlen)).
  destruct (htype ap =? (arp_type_ether env)), (hlen ap =? 6),
           (ptype ap =? (arp_type_ip4 env)), (plen_ ap =? 4);
    try discriminate. cbn [negb orb].
  rewrite Hat. destruct (oper ap =? (arp_oper_who_has env)); [discriminate|].
  cbn [negb andb].
  rewrite (bind_run _ _ _ _ _ E1), (bind_run _ _ _ _ _ E2). reflexivity.
Qed.

(** A well-formed request for a target in scope: the registration of
    the sender, then the step of the target's record that [probe]
    describes, and the reply if [probe] says so. *)
Lemma request_step fl ap len w :
  wwf w -> is_request env ap len = true -> out_of_bounds env (be32toh_q (tpa ap)) = false ->
  exists rr w1 r w',
    arp_register (spa ap) (sha ap) (timestamp fl) w = Ret (rr, w1) /\
    packet_analyze_arp env fl ap len w = Ret (r, w') /\
    wwf w' /\
    (forall b, 0 <= b < 2 ^ 32 -> b <> be32toh_q (tpa ap) ->
               rec_at w' b = rec_at w1 b) /\
    ((r = -1 /\ rec_at w' (be32toh_q (tpa ap)) = None /\
      rec_at w1 (be32toh_q (tpa ap)) = None /\ sent w' = sent w) \/
     (exists lf0,
         (rec_at w1 (be32toh_q (tpa ap)) = Some lf0 \/
          (rec_at w1 (be32toh_q (tpa ap)) = None /\
           lf0 = new_arpn (be32toh_q (tpa ap)) 32 (timestamp fl))) /\
         rec_at w' (be32toh_q (tpa ap)) = Some (fst (probe (timestamp fl) lf0)) /\
         sent w' = sent w ++ (if snd (probe (timestamp fl) lf0)
                              then [reply_to env fl ap] else []) /\
         (r = 0 \/ (r = -1 /\ snd (probe (timestamp fl) lf0) = true)))).
Proof.
  intros Hw Hreq Hoob. unfold is_request, header_ok in Hreq.
  apply andb_true_iff in Hreq. destruct Hreq as [Hreq Hop].
  apply andb_true_iff in Hreq. destruct Hreq as [Hlen Hh].
  pose proof (be32toh_q_range (tpa ap)) as Hk.
  set (kt := be32toh_q (tpa ap)) in *. set (when := timestamp fl).
  destruct (arp_register_spec w (spa ap) (sha ap) when Hw)
    as (rr & w1 & E1 & Hw1 & _ & Hsent1 & _).
  destruct (arp_insert_spec w1 kt when Hw1 Hk)
    as (rn & w2 & E2 & Hw2 & _ & Hsent2 & Hframe2 & Hrn).
  exists rr, w1.
  unfold packet_analyze_arp.
  rewrite (proj2 (Z.ltb_ge _ _) (proj1 (Z.leb_le _ _) Hlen)).
  destruct (htype ap =? (arp_type_ether env)), (hlen ap =? 6),
           (ptype ap =? (arp_type_ip4 env)), (plen_ ap =? 4);
    try discriminate. cbn [negb orb].
  rewrite Hop. cbn [negb andb]. fold kt. rewrite Hoob.
  fold when. rewrite (bind_run _ _ _ _ _ E1), (bind_run _ _ _ _ _ E2).
  destruct rn as [p|].
  2:{ (* the allocation failed *)
      unfold ret. do 2 eexists. split; [exact E1|]. split; [reflexivity|].
      split; [exact Hw2|]. split; [exact Hframe2|].
      left. split; [reflexivity|]. split; [exact (proj1 Hrn)|].
      split; [exact (proj2 Hrn)|congruence]. }
  destruct Hrn as (-> & lf & Hlf & Hwas).
  assert (Hwas' : rec_at w1 kt = Some lf \/
                  (rec_at w1 kt = None /\ lf = new_arpn kt 32 when)).
  { destruct Hwas as [Hwas|[Hwas ->]]; [left; exact Hwas|right].
    split; [exact Hwas|]. unfold when, timestamp. rewrite u64_idem. reflexivity. }
  clear Hwas.
  rewrite (bind_run _ _ _ _ _ (load_spec w2 kt lf Hlf)).
  destruct (rec_leaf w2 kt lf Hw2 Hlf) as (Hp & (e & nr & Hd) & _).
  assert (Hsent12 : sent w2 = sent w) by congruence.
  (* the five branches: each is a store, two of them with a reply *)
  assert (Hkeep : forall lf', lf' = fst (probe when lf) ->
                    plen lf' = 32 /\ (exists e r, data lf' = Leaf e r) /\
                    addr lf' = addr lf).
  { intros lf' ->. unfold probe.
    destruct (reserved lf), (claimed lf),
             ((nreq_of lf =? 0) || (30000 <=? u64 (when - last lf))),
             ((3 <=? nreq_of lf) && (3000 <=? u64 (when - first lf)));
      cbn; eauto. }
  assert (Hquiet : forall f,
             f lf = Ret (fst (probe when lf)) -> snd (probe when lf) = false ->
             exists r w',
               bind (store (path_of 8 kt) f) (fun _ => ret 0) w2 = Ret (r, w') /\
               wwf w' /\
               (forall b, 0 <= b < 2 ^ 32 -> b <> kt -> rec_at w' b = rec_at w1 b) /\
               rec_at w' kt = Some (fst (probe when lf)) /\
               sent w' = sent w ++ (if snd (probe when lf) then [reply_to env fl ap] else []) /\
               (r = 0 \/ (r = -1 /\ snd (probe when lf) = true))).
  { intros f Hf Hq.
    destruct (Hkeep _ eq_refl) as (Hp' & Hd' & Ha').
    destruct (store_done w2 kt lf f _ Hw2 Hk Hlf Hf Hp' Hd' Ha')
      as (w3 & E3 & Hw3 & Hsent3 & Hrec3 & Hframe3).
    exists 0, w3. split; [exact E3|]. split; [exact Hw3|].
    split; [intros b Hb Hne; rewrite Hframe3, Hframe2 by assumption; reflexivity|].
    split; [exact Hrec3|]. rewrite Hq, app_nil_r.
    split; [congruence|]. left. reflexivity. }
  assert (Hloud : forall f,
             f lf = Ret (fst (probe when lf)) -> snd (probe when lf) = true ->
             exists r w',
               bind (store (path_of 8 kt) f)
                    (fun _ => bind (arp_reply env fl ap (path_of 8 kt))
                                (fun r => if negb (r =? 0) then ret (-1) else ret 0)) w2
               = Ret (r, w') /\
               wwf w' /\
               (forall b, 0 <= b < 2 ^ 32 -> b <> kt -> rec_at w' b = rec_at w1 b) /\
               rec_at w' kt = Some (fst (probe when lf)) /\
               sent w' = sent w ++ (if snd (probe when lf) then [reply_to env fl ap] else []) /\
               (r = 0 \/ (r = -1 /\ snd (probe when lf) = true))).
  { intros f Hf Hq.
    destruct (Hkeep _ eq_refl) as (Hp' & Hd' & Ha').
    destruct (store_reply w2 kt lf f _ fl ap Hw2 Hk Hlf Hf Hp' Hd' Ha')
      as (r & w3 & E3 & Hw3 & Hsent3 & Hrec3 & Hframe3 & Hr).
    exists r, w3. split; [exact E3|]. split; [exact Hw3|].
    split; [intros b Hb Hne; rewrite Hframe3, Hframe2 by assumption; reflexivity|].
    split; [exact Hrec3|]. rewrite Hq.
    split; [congruence|]. destruct Hr; auto. }
  assert (Hgoal : forall (m : M Z),
             (exists r w',
                 m w2 = Ret (r, w') /\ wwf w' /\
                 (forall b, 0 <= b < 2 ^ 32 -> b <> kt -> rec_at w' b = rec_at w1 b) /\
                 rec_at w' kt = Some (fst (probe when lf)) /\
                 sent w' = sent w ++ (if snd (probe when lf) then [reply_to env fl ap] else []) /\
                 (r = 0 \/ (r = -1 /\ snd (probe when lf) = true))) ->
             exists r w',
               arp_register (spa ap) (sha ap) when w = Ret (rr, w1) /\
               m w2 = Ret (r, w') /\ wwf w' /\
               (forall b, 0 <= b < 2 ^ 32 -> b <> kt -> rec_at w' b = rec_at w1 b) /\
               ((r = -1 /\ rec_at w' kt = None /\ rec_at w1 kt = None /\
                 sent w' = sent w) \/
                (exists lf0,
                    (rec_at w1 kt = Some lf0 \/
                     (rec_at w1 kt = None /\ lf0 = new_arpn kt 32 when)) /\
                    rec_at w' kt = Some (fst (probe when lf0)) /\
                    sent w' = sent w ++ (if snd (probe when lf0)
                                         then [reply_to env fl ap] else []) /\
                    (r = 0 \/ (r = -1 /\ snd (probe when lf0) = true))))).
  { intros m (r & w' & Em & Hw' & Hfr & Hrec & Hsent & Hr).
    exists r, w'. split; [exact E1|]. split; [exact Em|]. split; [exact Hw'|].
    split; [exact Hfr|]. right. exists lf. auto. }
  assert (Hnr : get_nreq lf = Ret nr) by (unfold get_nreq; rewrite Hd; reflexivity).
  assert (Hnrq : nreq_of lf = nr) by (unfold nreq_of; rewrite Hd; reflexivity).
  assert (Heth : ether_of lf = e) by (unfold ether_of; rewrite Hd; reflexivity).
  destruct (reserved lf) eqn:Eres.
  { apply Hgoal, Hquiet; unfold probe; rewrite Eres; [|reflexivity].
    unfold set_nreq. rewrite Hd, Heth. reflexivity. }
  destruct (claimed lf) eqn:Ecl.
  { apply Hgoal, Hloud; unfold probe; rewrite Eres, Ecl; [|reflexivity].
    unfold set_nreq. rewrite Hd, Heth. reflexivity. }
  rewrite (bind_run _ _ _ _ _ (lift_run _ _ w2 Hnr)).
  destruct ((nr =? 0) || (30000 <=? u64 (when - last lf))) eqn:Enew.
  { apply Hgoal, Hquiet; unfold probe; rewrite Eres, Ecl, Hnrq, Enew; [|reflexivity].
    unfold set_nreq. rewrite Hd, Heth. reflexivity. }
  destruct ((3 <=? nr) && (3000 <=? u64 (when - first lf))) eqn:Eclaim.
  { apply Hgoal, Hloud; unfold probe; rewrite Eres, Ecl, Hnrq, Enew, Eclaim;
      [|reflexivity].
    unfold set_nreq. cbn [set_claimed data]. rewrite Hd, Heth. reflexivity. }
  apply Hgoal, Hquiet; unfold probe; rewrite Eres, Ecl, Hnrq, Enew, Eclaim;
    [|reflexivity].
  unfold set_nreq. rewrite Hd, Heth. reflexivity.
Qed.

(** Every packet is dropped, or is a request in scope, or an is-at. *)
Lemma analyze_cases fl ap len w :
  (exists r, packet_analyze_arp env fl ap len w = Ret (r, w)) \/
  (is_request env ap len = true /\ out_of_bounds env (be32toh_q (tpa ap)) = false) \/
  is_announcement env ap len = true.
Proof.
  destruct (Z.lt_ge_cases len (sizeof_arp_pkt env)) as [Hlen|Hlen].
  { left. exists (-1). apply analyze_short. exact Hlen. }
  destruct (header_ok env ap) eqn:Hh.
  2:{ left. exists 0. apply analyze_bad_header; assumption. }
  destruct (Z.eqb_spec (oper ap) (arp_oper_who_has env)) as [Hw|Hw].
  - assert (Hreq : is_request env ap len = true).
    { unfold is_request. rewrite Hh, Hw, Z.eqb_refl.
      rewrite (proj2 (Z.leb_le _ _)) by lia. reflexivity. }
    destruct (out_of_bounds env (be32toh_q (tpa ap))) eqn:Hoob.
    + left. exists 0. apply analyze_out_of_bounds; assumption.
    + right. left. split; [exact Hreq|reflexivity].
  - destruct (Z.eqb_spec (oper ap) (arp_oper_is_at env)) as [Hi|Hi].
    + right. right. unfold is_announcement. rewrite Hh, Hi, Z.eqb_refl.
      rewrite (proj2 (Z.leb_le _ _)) by lia.
      rewrite <- Hi. rewrite (proj2 (Z.eqb_neq _ _) Hw). reflexivity.
    + left. exists 0. apply analyze_unknown_oper; assumption.
Qed.

Lemma arp_insert_u32 a when w : arp_insert a when w = arp_insert (u32 a) when w.
Proof.
  unfold arp_insert. replace (u32 (u32 a)) with (u32 a); [reflexivity|].
  unfold u32. symmetry. apply Z.mod_mod. lia.
Qed.

Lemma u32_range a : 0 <= u32 a < 2 ^ 32.
Proof. unfold u32. apply Z.mod_pos_bound. lia. Qed.

(** The analyzer returns on every well-formed state and leaves it well
    formed. *)
Lemma analyze_wwf fl ap len w :
  wwf w -> exists r w', packet_analyze_arp env fl ap len w = Ret (r, w') /\ wwf w'.
Proof.
  intros Hw.
  destruct (analyze_cases fl ap len w) as [[r E]|[[Hreq Hoob]|Hann]].
  - eauto.
  - destruct (request_step fl ap len w Hw Hreq Hoob)
      as (rr & w1 & r & w' & _ & E & Hw' & _). eauto.
  - destruct (announcement_step fl ap len w Hw Hann)
      as (r1 & w1 & r2 & w2 & _ & _ & E & _ & Hw2). eauto.
Qed.

(** Every call returns on a well-formed state and leaves it well formed:
    no assertion fails, nothing undefined is met, the fuel suffices. *)
Lemma exec_wwf ev w : wwf w -> exists w', exec env ev w = Ret w' /\ wwf w'.
Proof.
  intros Hw. destruct ev as [a when|ip4 e when|ip4|fl ap len]; cbn [exec].
  - rewrite arp_insert_u32.
    destruct (arp_insert_spec w (u32 a) when Hw (u32_range a))
      as (rn & w' & E & Hw' & _). rewrite E. cbn. eauto.
  - destruct (arp_register_spec w ip4 e when Hw) as (r & w' & E & Hw' & _).
    rewrite E. cbn. eauto.
  - destruct (arp_reserve_spec w ip4 Hw) as (r & w' & E & Hw' & _).
    rewrite E. cbn. eauto.
  - destruct (analyze_wwf fl ap len w Hw) as (r & w' & E & Hw').
    rewrite E. cbn. eauto.
Qed.

Lemma reachable_wwf w : reachable env w -> wwf w.
Proof.
  induction 1 as [h tx|ev w w' _ IH E].
  - apply wwf_init.
  - destruct (exec_wwf ev w IH) as (w'' & E' & Hw''). congruence.
Qed.

Lemma never_registered_reachable ip4 w :
  never_registered env ip4 w -> reachable env w.
Proof.
  induction 1 as [h tx|ev w w' _ IH _ E].
  - constructor.
  - exact (reachable_step env ev w w' IH E).
Qed.

(** *** A reserved record stays as it is *)

Lemma register_keeps_reserved ip4 c w ip4' e when r w' :
  wwf w -> reserved_rec w ip4 c ->
  arp_register ip4' e when w = Ret (r, w') ->
  wwf w' /\ reserved_rec w' ip4 c /\ sent w' = sent w.
Proof.
  intros Hw (lf & Hlf & Hres & Hcl) E.
  destruct (arp_register_spec w ip4' e when Hw)
    as (r0 & w0 & E0 & Hw' & _ & Hsent & Hframe & Hcase).
  assert (w0 = w') by congruence. subst w0.
  split; [exact Hw'|]. split; [|exact Hsent].
  destruct (Z.eq_dec (be32toh_q ip4) (be32toh_q ip4')) as [Heq|Hne].
  - rewrite <- Heq in Hcase.
    destruct Hcase as [(_ & _ & Hnone)|(_ & lf0 & Hwas & Hrec)]; [congruence|].
    destruct Hwas as [Hwas|[Hnone _]]; [|congruence].
    assert (lf0 = lf) by congruence. subst lf0.
    exists (registered e lf). split; [exact Hrec|]. split; assumption.
  - exists lf. rewrite (Hframe _ (be32toh_q_range ip4) Hne). auto.
Qed.

Lemma reply_spa fl ap : spa (reply_to env fl ap) = tpa ap.
Proof. reflexivity. Qed.

Lemma analyze_keeps_reserved ip4 c fl ap len w :
  wwf w -> reserved_rec w ip4 c ->
  exists r w',
    packet_analyze_arp env fl ap len w = Ret (r, w') /\
    wwf w' /\ reserved_rec w' ip4 c /\
    exists new, sent w' = sent w ++ new /\ Forall (fun p => spa p <> ip4) new.
Proof.
  intros Hw Hinv.
  destruct (analyze_cases fl ap len w) as [[r E]|[[Hreq Hoob]|Hann]].
  - exists r, w. split; [exact E|]. split; [exact Hw|]. split; [exact Hinv|].
    exists []. rewrite app_nil_r. split; [reflexivity|constructor].
  - destruct (request_step fl ap len w Hw Hreq Hoob)
      as (rr & w1 & r & w' & E1 & E & Hw' & Hframe & Hcase).
    destruct (register_keeps_reserved ip4 c w _ _ _ _ _ Hw Hinv E1)
      as (Hw1 & (lf & Hlf & Hres & Hcl) & Hsent1).
    exists r, w'. split; [exact E|]. split; [exact Hw'|].
    destruct (Z.eq_dec (be32toh_q ip4) (be32toh_q (tpa ap))) as [Heq|Hne].
    + (* the target is the reserved address *)
      rewrite <- Heq in Hcase.
      destruct Hcase as [(_ & _ & Hnone & _)|(lf0 & Hwas & Hrec & Hsent & _)];
        [congruence|].
      destruct Hwas as [Hwas|[Hnone _]]; [|congruence].
      assert (lf0 = lf) by congruence. subst lf0.
      unfold probe in Hrec, Hsent. rewrite Hres in Hrec, Hsent.
      cbn [fst snd] in Hrec, Hsent.
      split; [exists (set_data (Leaf (ether_of lf) 0) lf); auto|].
      exists []. split; [exact Hsent|constructor].
    + split; [exists lf; rewrite (Hframe _ (be32toh_q_range ip4) Hne); auto|].
      destruct Hcase as [(_ & _ & _ & Hsent)|(lf0 & _ & _ & Hsent & _)].
      * exists []. rewrite app_nil_r. split; [exact Hsent|constructor].
      * eexists. split; [exact Hsent|].
        destruct (snd (probe (timestamp fl) lf0)); repeat constructor.
        rewrite reply_spa. intros Heq. apply Hne. rewrite Heq. reflexivity.
  - destruct (announcement_step fl ap len w Hw Hann)
      as (r1 & w1 & r2 & w2 & E1 & E2 & E & _).
    destruct (register_keeps_reserved ip4 c w _ _ _ _ _ Hw Hinv E1)
      as (Hw1 & Hinv1 & Hsent1).
    destruct (register_keeps_reserved ip4 c w1 _ _ _ _ _ Hw1 Hinv1 E2)
      as (Hw2 & Hinv2 & Hsent2).
    exists 0, w2. split; [exact E|]. split; [exact Hw2|]. split; [exact Hinv2|].
    exists []. rewrite app_nil_r. split; [congruence|constructor].
Qed.

(** *** A request for a target that is not the sender *)

Lemma request_on_target fl ap len w r w' :
  wwf w -> is_request env ap len = true -> out_of_bounds env (be32toh_q (tpa ap)) = false ->
  spa ap <> tpa ap ->
  packet_analyze_arp env fl ap len w = Ret (r, w') ->
  wwf w' /\
  ((r = -1 /\ rec_at w' (be32toh_q (tpa ap)) = None /\ sent w' = sent w) \/
   (exists lf0,
       (rec_at w (be32toh_q (tpa ap)) = Some lf0 \/
        (rec_at w (be32toh_q (tpa ap)) = None /\
         lf0 = new_arpn (be32toh_q (tpa ap)) 32 (timestamp fl))) /\
       rec_at w' (be32toh_q (tpa ap)) = Some (fst (probe (timestamp fl) lf0)) /\
       sent w' = sent w ++ (if snd (probe (timestamp fl) lf0)
                            then [reply_to env fl ap] else []) /\
       (r = 0 \/ (r = -1 /\ snd (probe (timestamp fl) lf0) = true)))).
Proof.
  intros Hw Hreq Hoob Hne E.
  destruct (request_step fl ap len w Hw Hreq Hoob)
    as (rr & w1 & r0 & w0 & E1 & E0 & Hw' & _ & Hcase).
  assert (r0 = r /\ w0 = w') as [-> ->] by (split; congruence).
  split; [exact Hw'|].
  destruct (arp_register_spec w (spa ap) (sha ap) (timestamp fl) Hw)
    as (rr' & w1' & E1' & _ & _ & _ & Hframe1 & _).
  assert (w1' = w1) by congruence. subst w1'.
  assert (Hk : be32toh_q (tpa ap) <> be32toh_q (spa ap)).
  { intros Heq. apply Hne. symmetry. apply be32toh_q_inj. exact Heq. }
  rewrite (Hframe1 _ (be32toh_q_range (tpa ap)) Hk) in Hcase.
  destruct Hcase as [(Hr & Hnone & _ & Hsent)|Hcase]; [left; auto|right; exact Hcase].
Qed.

Lemma probe_leaf_form when a c r f l e nr :
  exists c' f' l' nr',
    fst (probe when (Arpn a 32 c r f l (Leaf e nr)))
    = Arpn a 32 c' r f' l' (Leaf e nr').
Proof.
  unfold probe. cbn [reserved claimed nreq_of ether_of data first last].
  destruct r, c, ((nr =? 0) || (30000 <=? u64 (when - l))),
           ((3 <=? nr) && (3000 <=? u64 (when - f)));
    cbn; eauto.
Qed.

(** The request on a known record of the target. *)
Lemma request_effect fl ap len w w' c nr f l :
  wwf w -> is_request env ap len = true -> out_of_bounds env (be32toh_q (tpa ap)) = false ->
  spa ap <> tpa ap ->
  target_rec w (tpa ap) c nr f l ->
  packet_analyze_arp env fl ap len w = Ret (0, w') ->
  wwf w' /\
  exists a e,
    rec_at w' (be32toh_q (tpa ap))
    = Some (fst (probe (timestamp fl) (Arpn a 32 c false f l (Leaf e nr)))) /\
    sent w' = sent w ++
              (if snd (probe (timestamp fl) (Arpn a 32 c false f l (Leaf e nr)))
               then [reply_to env fl ap] else []).
Proof.
  intros Hw Hreq Hoob Hne (a & e & Hrec) E.
  destruct (request_on_target fl ap len w 0 w' Hw Hreq Hoob Hne E)
    as (Hw' & [(Hr & _)|(lf0 & Hwas & Hrec' & Hsent & _)]); [discriminate|].
  split; [exact Hw'|].
  destruct Hwas as [Hwas|[Hnone _]]; [|congruence].
  assert (lf0 = Arpn a 32 c false f l (Leaf e nr)) by congruence. subst lf0.
  eauto.
Qed.

(** The first request on an idle target starts the window. *)
Lemma request_on_idle fl ap len w w' :
  wwf w -> is_request env ap len = true -> out_of_bounds env (be32toh_q (tpa ap)) = false ->
  spa ap <> tpa ap ->
  idle w (tpa ap) ->
  packet_analyze_arp env fl ap len w = Ret (0, w') ->
  wwf w' /\
  target_rec w' (tpa ap) false 1 (timestamp fl) (timestamp fl) /\
  sent w' = sent w.
Proof.
  intros Hw Hreq Hoob Hne Hidle E.
  destruct (request_on_target fl ap len w 0 w' Hw Hreq Hoob Hne E)
    as (Hw' & [(Hr & _)|(lf0 & Hwas & Hrec' & Hsent & _)]); [discriminate|].
  split; [exact Hw'|].
  assert (Hlf0 : exists a f l e,
             lf0 = Arpn a 32 false false f l (Leaf e 0)).
  { destruct Hwas as [Hwas|[_ ->]].
    - destruct (Hidle lf0 Hwas) as (Hcl & Hres & Hnr).
      destruct (rec_leaf w _ lf0 Hw Hwas) as (Hp & (e & nr & Hd) & _).
      unfold nreq_of in Hnr. rewrite Hd in Hnr. subst nr.
      rewrite (leaf_form lf0 e 0 Hp Hd), Hcl, Hres. eauto.
    - unfold new_arpn. rewrite zero_data_leaf. eauto. }
  destruct Hlf0 as (a & f & l & e & ->).
  unfold probe in Hrec', Hsent.
  cbn [reserved claimed nreq_of ether_of data Z.eqb orb fst snd] in Hrec', Hsent.
  rewrite app_nil_r in Hsent. split; [|exact Hsent].
  exists a, e. exact Hrec'.
Qed.

(** *** A record that was never registered holds no address *)

Lemma probe_ether when lf :
  (exists e r, data lf = Leaf e r) ->
  ether_of (fst (probe when lf)) = ether_of lf.
Proof.
  intros (e & r & Hd). destruct lf as [a p c rs f l d]. cbn [data] in Hd. subst d.
  unfold probe. cbn [reserved claimed nreq_of ether_of data first last].
  destruct rs, c, ((r =? 0) || (30000 <=? u64 (when - l))),
           ((3 <=? r) && (3000 <=? u64 (when - f)));
    reflexivity.
Qed.

Lemma ether_of_new a when : ether_of (new_arpn a 32 when) = ether_zero.
Proof. reflexivity. Qed.

Lemma exec_unregistered ip4 ev w w' :
  wwf w -> unregistered w ip4 ->
  ~ registers env ev ip4 ->
  exec env ev w = Ret w' ->
  unregistered w' ip4.
Proof.
  intros Hw Hun Hnot E.
  pose proof (be32toh_q_range ip4) as Hk.
  assert (Hother : forall ip4' e when r w0,
             ip4' <> ip4 -> wwf w0 -> unregistered w0 ip4 ->
             arp_register ip4' e when w0 = Ret (r, w') -> unregistered w' ip4).
  { intros ip4' e when r w0 Hne Hw0 Hun0 Er.
    destruct (arp_register_spec w0 ip4' e when Hw0)
      as (r0 & w1 & E0 & _ & _ & _ & Hframe & _).
    assert (w1 = w') by congruence. subst w1.
    intros lf Hlf. rewrite Hframe in Hlf; [exact (Hun0 lf Hlf)|exact Hk|].
    intros Heq. apply Hne. symmetry. apply be32toh_q_inj. exact Heq. }
  destruct ev as [a when|ip4' e when|ip4'|fl ap len]; cbn [exec registers] in E, Hnot.
  - rewrite arp_insert_u32 in E.
    destruct (arp_insert_spec w (u32 a) when Hw (u32_range a))
      as (rn & w0 & E0 & _ & _ & _ & Hframe & Hrn).
    rewrite E0 in E. cbn in E. inversion E; subst w0. clear E.
    intros lf Hlf.
    destruct (Z.eq_dec (be32toh_q ip4) (u32 a)) as [Heq|Hne].
    + rewrite Heq in Hlf. destruct rn as [p|].
      * destruct Hrn as (_ & lf0 & Hrec & Hwas).
        assert (lf0 = lf) by congruence. subst lf0.
        destruct Hwas as [Hwas|[_ ->]]; [|reflexivity].
        apply Hun. rewrite Heq. exact Hwas.
      * destruct Hrn as [Hnone _]. congruence.
    + rewrite (Hframe _ Hk Hne) in Hlf. exact (Hun lf Hlf).
  - destruct (arp_register ip4' e when w) as [[r w0]|] eqn:Er; [|discriminate].
    cbn in E. inversion E; subst w0.
    exact (Hother ip4' e when r w Hnot Hw Hun Er).
  - destruct (arp_reserve_spec w ip4' Hw)
      as (r & w0 & E0 & _ & _ & _ & Hframe & Hcase).
    rewrite E0 in E. cbn in E. inversion E; subst w0. clear E.
    intros lf Hlf.
    destruct (Z.eq_dec (be32toh_q ip4) (be32toh_q ip4')) as [Heq|Hne].
    + rewrite <- Heq in Hcase.
      destruct Hcase as [(_ & Hnone & _)|(_ & lf0 & Hwas & Hrec)]; [congruence|].
      assert (lf = set_reserved true lf0) by congruence. subst lf.
      change (ether_of (set_reserved true lf0)) with (ether_of lf0).
      destruct Hwas as [Hwas|[_ ->]]; [exact (Hun lf0 Hwas)|reflexivity].
    + rewrite (Hframe _ Hk Hne) in Hlf. exact (Hun lf Hlf).
  - destruct (analyze_cases fl ap len w) as [[r Ed]|[[Hreq Hoob]|Hann]].
    + rewrite Ed in E. cbn in E. inversion E; subst w'. exact Hun.
    + destruct (request_step fl ap len w Hw Hreq Hoob)
        as (rr & w1 & r & w0 & E1 & E0 & _ & Hframe & Hcase).
      rewrite E0 in E. cbn in E. inversion E; subst w0. clear E.
      assert (Hsp : spa ap <> ip4) by (intros Heq; apply Hnot; left; auto).
      destruct (arp_register_spec w (spa ap) (sha ap) (timestamp fl) Hw)
        as (rr' & w1' & E1' & Hw1 & _ & _ & Hframe1 & _).
      assert (w1' = w1) by congruence. subst w1'.
      assert (Hun1 : unregistered w1 ip4).
      { intros lf Hlf. rewrite Hframe1 in Hlf; [exact (Hun lf Hlf)|exact Hk|].
        intros Heq. apply Hsp. symmetry. apply be32toh_q_inj. exact Heq. }
      intros lf Hlf.
      destruct (Z.eq_dec (be32toh_q ip4) (be32toh_q (tpa ap))) as [Heq|Hne].
      * rewrite <- Heq in Hcase.
        destruct Hcase as [(_ & Hnone & _)|(lf0 & Hwas & Hrec & _)]; [congruence|].
        assert (lf = fst (probe (timestamp fl) lf0)) by congruence. subst lf.
        destruct Hwas as [Hwas|[_ ->]].
        -- destruct (rec_leaf w1 _ lf0 Hw1 Hwas) as (_ & Hd & _).
           rewrite (probe_ether _ _ Hd). exact (Hun1 lf0 Hwas).
        -- rewrite probe_ether; [reflexivity|].
           unfold new_arpn. rewrite zero_data_leaf. cbn [data]. eauto.
      * rewrite (Hframe _ Hk Hne) in Hlf. exact (Hun1 lf Hlf).
    + destruct (announcement_step fl ap len w Hw Hann)
        as (r1 & w1 & r2 & w2 & E1 & E2 & E0 & Hw1 & _).
      rewrite E0 in E. cbn in E. inversion E; subst w2. clear E.
      assert (Hsp : spa ap <> ip4) by (intros Heq; apply Hnot; right; auto).
      assert (Htp : tpa ap <> ip4) by (intros Heq; apply Hnot; right; auto).
      destruct (arp_register_spec w (spa ap) (sha ap) (timestamp fl) Hw)
        as (r1' & w1' & E1' & _ & _ & _ & Hframe1 & _).
      assert (w1' = w1) by congruence. subst w1'.
      assert (Hun1 : unregistered w1 ip4).
      { intros lf Hlf. rewrite Hframe1 in Hlf; [exact (Hun lf Hlf)|exact Hk|].
        intros Heq. apply Hsp. symmetry. apply be32toh_q_inj. exact Heq. }
      exact (Hother (tpa ap) (tha ap) (timestamp fl) r2 w1 Htp Hw1 Hun1 E2).
Qed.

Lemma never_registered_unregistered ip4 w :
  never_registered env ip4 w ->
  unregistered w ip4.
Proof.
  induction 1 as [h tx|ev w w' Hn IH Hnot E].
  - intros lf Hlf. rewrite rec_at_init in Hlf. discriminate.
  - apply (exec_unregistered ip4 ev w w'); try assumption.
    apply reachable_wwf. apply (never_registered_reachable ip4). exact Hn.
Qed.

End Facts.

End ArpAnalyzer.

Module ArpClaims.
Import Arp ArpSpec ArpBits ArpTree ArpWorld ArpAnalyzer.

Section Claims.

Variable env : arp_env.

(** One request of the scenarios: the state machine on the known record
    of the target. *)
Lemma scenario_step target fl ap len w w' c nr f l :
  wwf w -> request_for env target ap len -> out_of_bounds env (be32toh_q target) = false ->
  target_rec w target c nr f l ->
  packet_analyze_arp env fl ap len w = Ret (0, w') ->
  wwf w' /\
  exists a e,
    rec_at w' (be32toh_q target)
    = Some (fst (probe (timestamp fl) (Arpn a 32 c false f l (Leaf e nr)))) /\
    sent w' = sent w ++
              (if snd (probe (timestamp fl) (Arpn a 32 c false f l (Leaf e nr)))
               then [reply_to env fl ap] else []).
Proof.
  intros Hw (Hreq & <- & Hne) Hoob Hrec E.
  exact (request_effect env fl ap len w w' c nr f l
           Hw Hreq Hoob Hne Hrec E).
Qed.

(** C3, amended.  With the thresholds of the code (3 requests, 3000 ms,
    30000 ms), requests at 0, 1000 and 3000 ms for a target whose record
    is absent or idle leave the record unclaimed, with a count of 3, and
    send nothing.  The fourth request, at 3500 ms, sets the claimed flag
    and sends the one reply of the four.  Every request after that sends
    a refresh reply and leaves the flag set. *)
Theorem C3_claimed_at_fourth_request
    target fl1 ap1 len1 fl2 ap2 len2 fl3 ap3 len3 fl4 ap4 len4 w0 w1 w2 w3 w4 :
  reachable env w0 -> idle w0 target -> out_of_bounds env (be32toh_q target) = false ->
  request_for env target ap1 len1 -> request_for env target ap2 len2 ->
  request_for env target ap3 len3 -> request_for env target ap4 len4 ->
  timestamp fl1 = 0 -> timestamp fl2 = 1000 ->
  timestamp fl3 = 3000 -> timestamp fl4 = 3500 ->
  packet_analyze_arp env fl1 ap1 len1 w0 = Ret (0, w1) ->
  packet_analyze_arp env fl2 ap2 len2 w1 = Ret (0, w2) ->
  packet_analyze_arp env fl3 ap3 len3 w2 = Ret (0, w3) ->
  packet_analyze_arp env fl4 ap4 len4 w3 = Ret (0, w4) ->
  (target_rec w3 target false 3 0 3000 /\ sent w3 = sent w0) /\
  (target_rec w4 target true 0 0 3500 /\ sent w4 = sent w0 ++ [reply_to env fl4 ap4]) /\
  (forall fl5 ap5 len5 w5,
      request_for env target ap5 len5 ->
      packet_analyze_arp env fl5 ap5 len5 w4 = Ret (0, w5) ->
      target_rec w5 target true 0 0 (timestamp fl5) /\
      sent w5 = sent w4 ++ [reply_to env fl5 ap5]).
Proof.
  intros Hreach Hidle Hoob R1 R2 R3 R4 T1 T2 T3 T4 E1 E2 E3 E4.
  pose proof (reachable_wwf env w0 Hreach) as Hw0.
  (* first request *)
  destruct R1 as (Hreq1 & Htp1 & Hsp1). subst target.
  destruct (request_on_idle env fl1 ap1 len1 w0 w1 Hw0 Hreq1 Hoob
              Hsp1 Hidle E1) as (Hw1 & Hrec1 & Hsent1).
  rewrite T1 in Hrec1.
  (* second request *)
  destruct (scenario_step _ fl2 ap2 len2 w1 w2 _ _ _ _ Hw1 R2 Hoob Hrec1 E2)
    as (Hw2 & a2 & e2 & Hrec2 & Hsent2).
  rewrite T2 in Hrec2, Hsent2.
  change (probe 1000 (Arpn a2 32 false false 0 0 (Leaf e2 1)))
    with (Arpn a2 32 false false 0 1000 (Leaf e2 2), false) in Hrec2, Hsent2.
  cbn [fst snd] in Hrec2, Hsent2. rewrite app_nil_r in Hsent2.
  assert (Ht2 : target_rec w2 (tpa ap1) false 2 0 1000) by (exists a2, e2; exact Hrec2).
  (* third request *)
  destruct (scenario_step _ fl3 ap3 len3 w2 w3 _ _ _ _ Hw2 R3 Hoob Ht2 E3)
    as (Hw3 & a3 & e3 & Hrec3 & Hsent3).
  rewrite T3 in Hrec3, Hsent3.
  change (probe 3000 (Arpn a3 32 false false 0 1000 (Leaf e3 2)))
    with (Arpn a3 32 false false 0 3000 (Leaf e3 3), false) in Hrec3, Hsent3.
  cbn [fst snd] in Hrec3, Hsent3. rewrite app_nil_r in Hsent3.
  assert (Ht3 : target_rec w3 (tpa ap1) false 3 0 3000) by (exists a3, e3; exact Hrec3).
  (* fourth request *)
  destruct (scenario_step _ fl4 ap4 len4 w3 w4 _ _ _ _ Hw3 R4 Hoob Ht3 E4)
    as (Hw4 & a4 & e4 & Hrec4 & Hsent4).
  rewrite T4 in Hrec4, Hsent4.
  change (probe 3500 (Arpn a4 32 false false 0 3000 (Leaf e4 3)))
    with (Arpn a4 32 true false 0 3500 (Leaf e4 0), true) in Hrec4, Hsent4.
  cbn [fst snd] in Hrec4, Hsent4.
  assert (Ht4 : target_rec w4 (tpa ap1) true 0 0 3500) by (exists a4, e4; exact Hrec4).
  split; [split; [exact Ht3|congruence]|].
  split; [split; [exact Ht4|congruence]|].
  (* any later request *)
  intros fl5 ap5 len5 w5 R5 E5.
  destruct (scenario_step _ fl5 ap5 len5 w4 w5 _ _ _ _ Hw4 R5 Hoob Ht4 E5)
    as (Hw5 & a5 & e5 & Hrec5 & Hsent5).
  unfold probe in Hrec5, Hsent5.
  cbn [reserved claimed ether_of nreq_of data fst snd set_last set_data
       addr plen first last] in Hrec5, Hsent5.
  split; [exists a5, e5; exact Hrec5|exact Hsent5].
Qed.

(** C7.  With the thresholds of the code, requests at 0 and 31000 ms for
    a target whose record is absent or idle leave the record with a
    count of 1 and first seen = last seen = 31000, unclaimed, and send
    nothing. *)
Theorem C7_stale_gap_restarts_window
    target fl1 ap1 len1 fl2 ap2 len2 w0 w1 w2 :
  reachable env w0 -> idle w0 target -> out_of_bounds env (be32toh_q target) = false ->
  request_for env target ap1 len1 -> request_for env target ap2 len2 ->
  timestamp fl1 = 0 -> timestamp fl2 = 31000 ->
  packet_analyze_arp env fl1 ap1 len1 w0 = Ret (0, w1) ->
  packet_analyze_arp env fl2 ap2 len2 w1 = Ret (0, w2) ->
  target_rec w1 target false 1 0 0 /\
  target_rec w2 target false 1 31000 31000 /\
  sent w2 = sent w0.
Proof.
  intros Hreach Hidle Hoob R1 R2 T1 T2 E1 E2.
  pose proof (reachable_wwf env w0 Hreach) as Hw0.
  destruct R1 as (Hreq1 & Htp1 & Hsp1). subst target.
  destruct (request_on_idle env fl1 ap1 len1 w0 w1 Hw0 Hreq1 Hoob
              Hsp1 Hidle E1) as (Hw1 & Hrec1 & Hsent1).
  rewrite T1 in Hrec1.
  destruct (scenario_step _ fl2 ap2 len2 w1 w2 _ _ _ _ Hw1 R2 Hoob Hrec1 E2)
    as (Hw2 & a2 & e2 & Hrec2 & Hsent2).
  rewrite T2 in Hrec2, Hsent2.
  change (probe 31000 (Arpn a2 32 false false 0 0 (Leaf e2 1)))
    with (Arpn a2 32 false false 31000 31000 (Leaf e2 1), false) in Hrec2, Hsent2.
  cbn [fst snd] in Hrec2, Hsent2. rewrite app_nil_r in Hsent2.
  split; [exact Hrec1|]. split; [exists a2, e2; exact Hrec2|congruence].
Qed.

(** C4, amended.  A packet that fails validation leaves the state of the
    tracker as it is, and nothing is sent.  The analyzer returns 0 when
    a hardware or protocol field does not match or the operation is
    unknown; it returns -1, an error, when the packet is shorter than
    [arp_pkt]. *)
Theorem C4_invalid_packet_is_dropped fl ap len w :
  (len < (sizeof_arp_pkt env) -> packet_analyze_arp env fl ap len w = Ret (-1, w)) /\
  (sizeof_arp_pkt env <= len -> header_ok env ap = false ->
   packet_analyze_arp env fl ap len w = Ret (0, w)) /\
  (sizeof_arp_pkt env <= len -> header_ok env ap = true ->
   oper ap <> (arp_oper_who_has env) -> oper ap <> (arp_oper_is_at env) ->
   packet_analyze_arp env fl ap len w = Ret (0, w)).
Proof.
  split; [apply analyze_short|]. split; [apply analyze_bad_header|].
  apply analyze_unknown_oper.
Qed.

(** C6.  Once [arp_reserve] has succeeded for an address, the analyzer
    returns on every sequence of packets, whatever they are and whenever
    they arrive, and at the end the record of the address is still
    reserved, its claimed flag is what it was, and none of the replies
    sent answers for the address. *)
Theorem C6_reserved_never_claimed ip4 w0 w1 pkts :
  reachable env w0 -> arp_reserve ip4 w0 = Ret (0, w1) ->
  exists c rs w2,
    reserved_rec w1 ip4 c /\
    analyze_all env pkts w1 = Ret (rs, w2) /\
    reserved_rec w2 ip4 c /\
    exists new, sent w2 = sent w1 ++ new /\ Forall (fun p => spa p <> ip4) new.
Proof.
  intros Hreach E.
  pose proof (reachable_wwf env w0 Hreach) as Hw0.
  destruct (arp_reserve_spec w0 ip4 Hw0)
    as (r & w1' & E' & Hw1 & _ & _ & _ & Hcase).
  assert (r = 0 /\ w1' = w1) as [-> ->] by (split; congruence).
  destruct Hcase as [(Hr & _)|(_ & lf0 & _ & Hrec)]; [discriminate|].
  exists (claimed lf0).
  assert (Hinv : reserved_rec w1 ip4 (claimed lf0)).
  { exists (set_reserved true lf0). split; [exact Hrec|]. split; reflexivity. }
  clear E E' Hrec Hreach Hw0.
  revert w1 Hw1 Hinv. induction pkts as [|[[fl ap] len] pkts IH]; intros w1 Hw1 Hinv.
  - exists [], w1. split; [exact Hinv|]. split; [reflexivity|]. split; [exact Hinv|].
    exists []. rewrite app_nil_r. split; [reflexivity|constructor].
  - destruct (analyze_keeps_reserved env
                ip4 (claimed lf0) fl ap len w1 Hw1 Hinv)
      as (r & w2 & E & Hw2 & Hinv2 & new & Hsent & Hnew).
    destruct (IH w2 Hw2 Hinv2) as (rs & w3 & _ & Eall & Hinv3 & new' & Hsent' & Hnew').
    exists (r :: rs), w3. split; [exact Hinv|]. split.
    + cbn [analyze_all]. rewrite E. cbn [obind fst snd].
      rewrite Eall. reflexivity.
    + split; [exact Hinv3|]. exists (new ++ new'). split.
      * rewrite Hsent', Hsent, app_assoc. reflexivity.
      * apply Forall_app. split; assumption.
Qed.

(** C8.  In every reachable state, [arp_lookup] after a successful
    [arp_register] of the same address succeeds and yields the
    registered link-layer address; and where the tree has no /32 node
    for an address, [arp_lookup] fails and leaves [*ether] alone. *)
Theorem C8_lookup_after_register w :
  reachable env w ->
  (forall ip4 mac when w' ether,
      arp_register ip4 mac when w = Ret (0, w') ->
      arp_lookup ip4 ether w' = Ret ((0, mac), w')) /\
  (forall ip4 ether,
      rec_at w (be32toh_q ip4) = None ->
      arp_lookup ip4 ether w = Ret ((-1, ether), w)).
Proof.
  intros Hreach.
  pose proof (reachable_wwf env w Hreach) as Hw.
  split.
  - intros ip4 mac when w' ether E.
    destruct (arp_register_spec w ip4 mac when Hw)
      as (r & w1 & E' & Hw1 & _ & _ & _ & Hcase).
    assert (r = 0 /\ w1 = w') as [-> ->] by (split; congruence).
    destruct Hcase as [(Hr & _)|(_ & lf0 & _ & Hrec)]; [discriminate|].
    rewrite (arp_lookup_spec w' ip4 ether Hw1), Hrec. reflexivity.
  - intros ip4 ether Hnone.
    rewrite (arp_lookup_spec w ip4 ether Hw), Hnone. reflexivity.
Qed.

(** C9.  In every reachable state and for every 32-bit address,
    [arp_insert] returns: the assertion at the /32 node holds.  When it
    does not return [NULL], the node it returns is a /32 node whose
    stored address is the address inserted. *)
Theorem C9_assertion_never_fails w a when :
  reachable env w -> 0 <= a < 2 ^ 32 ->
  exists rn w',
    arp_insert a when w = Ret (rn, w') /\
    forall p, rn = Some p ->
      exists lf, deref (arp_root w') p = Some lf /\ plen lf = 32 /\ addr lf = a.
Proof.
  intros Hreach Ha.
  pose proof (reachable_wwf env w Hreach) as Hw.
  destruct (arp_insert_spec w a when Hw Ha) as (rn & w' & E & Hw' & _ & _ & _ & Hrn).
  exists rn, w'. split; [exact E|].
  intros p ->. destruct Hrn as (-> & lf & Hlf & _).
  exists lf. destruct (rec_leaf w' a lf Hw' Hlf) as (Hp & _ & Haddr).
  split; [exact Hlf|]. split; [exact Hp|exact (Haddr Ha)].
Qed.

(** C10.  After the analyzer has processed, with result 0, a well-formed
    request in scope for a target that was never passed to
    [arp_register], the tree has a /32 node for the target and
    [arp_lookup] on the target succeeds with the all-zero link-layer
    address. *)
Theorem C10_lookup_of_probed_target fl ap len w w' :
  never_registered env (tpa ap) w ->
  is_request env ap len = true -> out_of_bounds env (be32toh_q (tpa ap)) = false ->
  spa ap <> tpa ap ->
  packet_analyze_arp env fl ap len w = Ret (0, w') ->
  (exists lf, rec_at w' (be32toh_q (tpa ap)) = Some lf /\ plen lf = 32) /\
  (forall ether, arp_lookup (tpa ap) ether w' = Ret ((0, ether_zero), w')).
Proof.
  intros Hnever Hreq Hoob Hne E.
  pose proof (never_registered_reachable env _ _ Hnever) as Hreach.
  pose proof (reachable_wwf env w Hreach) as Hw.
  pose proof (never_registered_unregistered env _ _ Hnever) as Hun.
  destruct (request_on_target env fl ap len w 0 w' Hw Hreq Hoob Hne E)
    as (Hw' & [(Hr & _)|(lf0 & Hwas & Hrec & _)]); [discriminate|].
  destruct (rec_leaf w' _ _ Hw' Hrec) as (Hp & _ & _).
  split; [eauto|].
  intros ether. rewrite (arp_lookup_spec w' (tpa ap) ether Hw'), Hrec.
  assert (Hzero : ether_of (fst (probe (timestamp fl) lf0)) = ether_zero).
  { destruct Hwas as [Hwas|[_ ->]].
    - destruct (rec_leaf w _ lf0 Hw Hwas) as (_ & Hd & _).
      rewrite (probe_ether _ _ Hd). exact (Hun lf0 Hwas).
    - rewrite probe_ether; [reflexivity|].
      unfold new_arpn. rewrite zero_data_leaf. cbn [data]. eauto. }
  rewrite Hzero. reflexivity.
Qed.

End Claims.

End ArpClaims.

(** * The claims on concrete inputs *)

Module ArpWitnesses.
Import Arp ArpSpec ArpExamples ArpWorld ArpClaims.

(** The initial state has no record, so every address is idle in it. *)
Lemma ex_idle : idle ex_init ex_target.
Proof. intros lf H. unfold ex_init in H. rewrite rec_at_init in H. discriminate. Defined.

(** The request of the example is one for its target. *)
Lemma ex_request_for : request_for ex_env ex_target ex_request 28.
Proof. split; [reflexivity|]. split; [reflexivity|discriminate]. Defined.

(** C3, as stated, fails on the initial state: after the requests at 0,
    1000 and 3000 ms, each processed with result 0, the record of the
    target is unclaimed with a count of 3 and nothing has been sent; the
    request at 3500 ms is the one that claims and replies. *)
Lemma C3_third_request_does_not_claim :
  ex_analyze (ex_flow 0) ex_request 28 ex_init = Ret (0, ex_w1) /\
  ex_analyze (ex_flow 1000) ex_request 28 ex_w1 = Ret (0, ex_w2) /\
  ex_analyze (ex_flow 3000) ex_request 28 ex_w2 = Ret (0, ex_w3) /\
  ex_analyze (ex_flow 3500) ex_request 28 ex_w3 = Ret (0, ex_w4) /\
  (exists lf, rec_at ex_w3 (be32toh_q ex_target) = Some lf /\
              claimed lf = false /\ nreq_of lf = 3) /\
  sent ex_w3 = [] /\
  (exists lf, rec_at ex_w4 (be32toh_q ex_target) = Some lf /\ claimed lf = true) /\
  sent ex_w4 = [reply_to ex_env (ex_flow 3500) ex_request].
Proof.
  repeat split; try (vm_compute; reflexivity);
    eexists; (split; [vm_compute; reflexivity|]); repeat split; reflexivity.
Qed.

(** C3, amended, on the run of the example from the initial state. *)
Lemma C3_witness :
  (target_rec ex_w3 ex_target false 3 0 3000 /\ sent ex_w3 = sent ex_init) /\
  (target_rec ex_w4 ex_target true 0 0 3500 /\
   sent ex_w4 = sent ex_init ++ [reply_to ex_env (ex_flow 3500) ex_request]) /\
  (forall fl5 ap5 len5 w5,
      request_for ex_env ex_target ap5 len5 ->
      ex_analyze fl5 ap5 len5 ex_w4 = Ret (0, w5) ->
      target_rec w5 ex_target true 0 0 (timestamp fl5) /\
      sent w5 = sent ex_w4 ++ [reply_to ex_env fl5 ap5]).
Proof.
  apply (C3_claimed_at_fourth_request ex_env
           ex_target
           (ex_flow 0) ex_request 28 (ex_flow 1000) ex_request 28
           (ex_flow 3000) ex_request 28 (ex_flow 3500) ex_request 28
           ex_init ex_w1 ex_w2 ex_w3 ex_w4).
  - apply reachable_init.
  - exact ex_idle.
  - reflexivity.
  - exact ex_request_for.
  - exact ex_request_for.
  - exact ex_request_for.
  - exact ex_request_for.
  - reflexivity.
  - reflexivity.
  - reflexivity.
  - reflexivity.
  - vm_compute. reflexivity.
  - vm_compute. reflexivity.
  - vm_compute. reflexivity.
  - vm_compute. reflexivity.
Defined.

(** C4, as stated, fails on a packet of 27 bytes: the analyzer returns -1. *)
Lemma C4_short_packet_is_an_error :
  ex_analyze (ex_flow 0) ex_request 27 ex_init = Ret (-1, ex_init).
Proof. reflexivity. Qed.

(** C4, amended, on a short packet, a packet of another hardware type and
    a packet of operation 3. *)
Lemma C4_witness :
  ex_analyze (ex_flow 0) ex_request 27 ex_init = Ret (-1, ex_init) /\
  ex_analyze (ex_flow 0) (ArpPkt 6 2048 6 4 1 ex_mac ex_sender ether_zero ex_target)
             28 ex_init = Ret (0, ex_init) /\
  ex_analyze (ex_flow 0) (ArpPkt 1 2048 6 4 3 ex_mac ex_sender ether_zero ex_target)
             28 ex_init = Ret (0, ex_init).
Proof.
  split; [|split].
  - apply (proj1 (C4_invalid_packet_is_dropped ex_env
                    (ex_flow 0) ex_request 27 ex_init)). cbn. lia.
  - apply (proj1 (proj2 (C4_invalid_packet_is_dropped ex_env (ex_flow 0)
                           (ArpPkt 6 2048 6 4 1 ex_mac ex_sender ether_zero ex_target)
                           28 ex_init))); [cbn; lia|reflexivity].
  - apply (proj2 (proj2 (C4_invalid_packet_is_dropped ex_env (ex_flow 0)
                           (ArpPkt 1 2048 6 4 3 ex_mac ex_sender ether_zero ex_target)
                           28 ex_init))); [cbn; lia|reflexivity|cbn; lia|cbn; lia].
Defined.

(** C6 on the example: 10.0.0.5 reserved, then four requests for it. *)
Lemma C6_witness :
  exists c rs w2,
    reserved_rec ex_reserved ex_target c /\
    analyze_all ex_env
      [(ex_flow 0, ex_request, 28); (ex_flow 1000, ex_request, 28);
       (ex_flow 3000, ex_request, 28); (ex_flow 3500, ex_request, 28)]
      ex_reserved = Ret (rs, w2) /\
    reserved_rec w2 ex_target c /\
    exists new, sent w2 = sent ex_reserved ++ new /\
                Forall (fun p => spa p <> ex_target) new.
Proof.
  apply (C6_reserved_never_claimed ex_env
           ex_target ex_init ex_reserved).
  - apply reachable_init.
  - vm_compute. reflexivity.
Defined.

(** C7 on the example: requests at 0 and 31000 ms. *)
Lemma C7_witness :
  target_rec ex_w1 ex_target false 1 0 0 /\
  target_rec ex_v2 ex_target false 1 31000 31000 /\
  sent ex_v2 = sent ex_init.
Proof.
  apply (C7_stale_gap_restarts_window ex_env
           ex_target (ex_flow 0) ex_request 28 (ex_flow 31000) ex_request 28
           ex_init ex_w1 ex_v2).
  - apply reachable_init.
  - exact ex_idle.
  - reflexivity.
  - exact ex_request_for.
  - exact ex_request_for.
  - reflexivity.
  - reflexivity.
  - vm_compute. reflexivity.
  - vm_compute. reflexivity.
Defined.

(** C8 on the example: 10.0.0.5 registered, 10.0.0.1 unknown. *)
Lemma C8_witness :
  arp_lookup ex_target ether_zero ex_registered = Ret ((0, ex_mac), ex_registered) /\
  arp_lookup ex_sender ex_mac ex_init = Ret ((-1, ex_mac), ex_init).
Proof.
  destruct (C8_lookup_after_register ex_env
              ex_init (reachable_init ex_env _ _)) as [Hreg Hnone].
  split.
  - apply (Hreg ex_target ex_mac 0 ex_registered ether_zero). vm_compute. reflexivity.
  - apply (Hnone ex_sender ex_mac). vm_compute. reflexivity.
Defined.

(** C9 on the example: a second insertion of 10.0.0.5. *)
Lemma C9_witness :
  exists rn w',
    arp_insert (be32toh_q ex_target) 5000 ex_w1 = Ret (rn, w') /\
    forall p, rn = Some p ->
      exists lf, deref (arp_root w') p = Some lf /\ plen lf = 32 /\
                 addr lf = be32toh_q ex_target.
Proof.
  apply (C9_assertion_never_fails ex_env).
  - apply (reachable_step ex_env
             (EvAnalyze (ex_flow 0) ex_request 28) ex_init ex_w1).
    + apply reachable_init.
    + vm_compute. reflexivity.
  - vm_compute. split; [discriminate|reflexivity].
Defined.

(** C10 on the example: 10.0.0.5 after the first request for it. *)
Lemma C10_witness :
  (exists lf, rec_at ex_w1 (be32toh_q ex_target) = Some lf /\ plen lf = 32) /\
  (forall ether, arp_lookup ex_target ether ex_w1 = Ret ((0, ether_zero), ex_w1)).
Proof.
  apply (C10_lookup_of_probed_target ex_env
           (ex_flow 0) ex_request 28 ex_init ex_w1).
  - apply never_registered_init.
  - reflexivity.
  - reflexivity.
  - discriminate.
  - vm_compute. reflexivity.
Defined.

End ArpWitnesses.

Module Ip4aggWitnesses.
Import Ip4agg Ip4aggFacts Ip4aggClaims.

(** C5, amended, on the /8 leaf of the tree that holds 10.0.0.0/8. *)
Lemma C5_witness :
  reachable ex_net10 /\ subnode ex_net10_leaf ex_net10 /\
  leaf ex_net10_leaf = true /\
  (coverage ex_net10_leaf = 0 \/
   coverage ex_net10_leaf = 2 ^ (32 - plen ex_net10_leaf)).
Proof.
  assert (Hr : reachable ex_net10).
  { apply (reachable_insert fresh_root (quad 10 0 0 0) (quad 10 255 255 255)
             plenty ex_net10 (replicate 62 true)).
    - exact (reachable_new plenty _ _ fresh_root_new).
    - vm_compute. reflexivity. }
  assert (Hs : subnode ex_net10_leaf ex_net10).
  { eapply (subnode_below _ _ 0%nat); [vm_compute; reflexivity|].
    eapply (subnode_below _ _ 10%nat); [vm_compute; reflexivity|].
    apply subnode_here. }
  split; [exact Hr|]. split; [exact Hs|]. split; [reflexivity|].
  exact (C5_leaf_covers_nothing_or_whole_subnet ex_net10 ex_net10_leaf Hr Hs eq_refl).
Defined.

End Ip4aggWitnesses.

(** * Further properties of the tracker *)

Module ArpMore.
Import Arp ArpSpec MoreSpec ArpBits ArpTree ArpWorld ArpAnalyzer.

(** What [probe] does to the flags, and when it replies or claims. *)
Ltac probe_cases lf when :=
  let a := fresh "a" in let p := fresh "p" in let c := fresh "c" in
  let r := fresh "r" in let f := fresh "f" in let l := fresh "l" in
  let d := fresh "d" in
  destruct lf as [a p c r f l d]; unfold probe;
  cbn [reserved claimed first last];
  set (nr := nreq_of (Arpn a p c r f l d)); clearbody nr;
  destruct r, c, ((nr =? 0) || (30000 <=? u64 (when - l))) eqn:?,
           ((3 <=? nr) && (3000 <=? u64 (when - f))) eqn:?;
  cbn [fst snd reserved claimed first last set_last set_first set_data
       set_claimed addr plen data].

Lemma probe_reserved when lf : reserved (fst (probe when lf)) = reserved lf.
Proof. probe_cases lf when; reflexivity. Qed.

Lemma probe_claimed_kept when lf :
  claimed lf = true -> claimed (fst (probe when lf)) = true.
Proof. probe_cases lf when; intros H; try discriminate; reflexivity. Qed.

Lemma probe_reply when lf :
  snd (probe when lf) = true ->
  claimed (fst (probe when lf)) = true /\ reserved lf = false.
Proof. probe_cases lf when; intros H; try discriminate; auto. Qed.

Lemma probe_claims when lf :
  claimed lf = false -> claimed (fst (probe when lf)) = true ->
  reserved lf = false /\ 3 <= nreq_of lf /\
  3000 <= u64 (when - first lf) /\ u64 (when - last lf) < 30000 /\
  snd (probe when lf) = true.
Proof.
  destruct lf as [a p c r f l d]. unfold probe.
  cbn [reserved claimed first last]. intros ->.
  destruct r; [cbn; congruence|].
  destruct ((nreq_of (Arpn a p false false f l d) =? 0) || (30000 <=? u64 (when - l)))
    eqn:Enew; [cbn; congruence|].
  destruct ((3 <=? nreq_of (Arpn a p false false f l d)) && (3000 <=? u64 (when - f)))
    eqn:Ecl; [|cbn; congruence].
  intros _. apply orb_false_iff in Enew. destruct Enew as [_ Hgap].
  apply andb_true_iff in Ecl. destruct Ecl as [Hn Hwin].
  apply Z.leb_le in Hn, Hwin. apply Z.leb_gt in Hgap. auto.
Qed.

(** [arp_register] and a record that is there: the record stays, with
    its flags and times; it is rewritten only if it is the record of the
    address registered. *)
Lemma register_rec w ip4 e when r w' k lf :
  wwf w -> 0 <= k < 2 ^ 32 ->
  arp_register ip4 e when w = Ret (r, w') ->
  rec_at w k = Some lf ->
  exists lf',
    rec_at w' k = Some lf' /\
    claimed lf' = claimed lf /\ reserved lf' = reserved lf /\
    first lf' = first lf /\ last lf' = last lf /\
    (k <> be32toh_q ip4 -> lf' = lf) /\
    (k = be32toh_q ip4 -> lf' = registered e lf).
Proof.
  intros Hw Hk E Hlf.
  destruct (arp_register_spec w ip4 e when Hw)
    as (r0 & w0 & E0 & _ & _ & _ & Hframe & Hcase).
  assert (r0 = r /\ w0 = w') as [-> ->] by (split; congruence).
  destruct (Z.eq_dec k (be32toh_q ip4)) as [->|Hne].
  - destruct Hcase as [(_ & _ & Hnone)|(_ & lf0 & Hwas & Hrec)]; [congruence|].
    destruct Hwas as [Hwas|[Hnone _]]; [|congruence].
    assert (lf0 = lf) by congruence. subst lf0.
    exists (registered e lf). repeat split; auto. intros H. contradiction.
  - exists lf. rewrite (Hframe _ Hk Hne). repeat split; auto. intros H. contradiction.
Qed.

Lemma lookup_found w ip4 ether lf :
  wwf w -> rec_at w (be32toh_q ip4) = Some lf ->
  arp_lookup ip4 ether w = Ret ((0, ether_of lf), w).
Proof. intros Hw Hlf. rewrite (arp_lookup_spec w ip4 ether Hw), Hlf. reflexivity. Qed.

Lemma lookup_missing w ip4 ether :
  wwf w -> rec_at w (be32toh_q ip4) = None ->
  arp_lookup ip4 ether w = Ret ((-1, ether), w).
Proof. intros Hw Hlf. rewrite (arp_lookup_spec w ip4 ether Hw), Hlf. reflexivity. Qed.

Lemma key_neq ip4 ip4' : ip4' <> ip4 -> be32toh_q ip4' <> be32toh_q ip4.
Proof. intros Hne Heq. apply Hne. apply be32toh_q_inj. exact Heq. Qed.

Lemma probe_claimed when lf :
  reserved lf = false -> claimed lf = true ->
  probe when lf = (set_last when (set_data (Leaf (ether_of lf) 0) lf), true).
Proof. intros Hr Hc. unfold probe. rewrite Hr, Hc. reflexivity. Qed.

Lemma flags_kept_refl lf : flags_kept lf lf.
Proof. split; auto. Qed.

Lemma flags_kept_trans a b c : flags_kept a b -> flags_kept b c -> flags_kept a c.
Proof. intros [H1 H2] [H3 H4]. split; auto. Qed.

Lemma flags_kept_eq lf lf' :
  claimed lf' = claimed lf -> reserved lf' = reserved lf -> flags_kept lf lf'.
Proof. intros Hc Hr. split; congruence. Qed.

(** [arp_register] and a record that is not claimed, or not there. *)
Lemma register_unclaimed w ip4 e when r w1 k :
  wwf w -> 0 <= k < 2 ^ 32 ->
  arp_register ip4 e when w = Ret (r, w1) ->
  (forall lf, rec_at w k = Some lf -> claimed lf = false) ->
  forall lf1, rec_at w1 k = Some lf1 ->
    claimed lf1 = false /\
    (nreq_of lf1 = 0 \/ (k <> be32toh_q ip4 /\ rec_at w k = Some lf1)).
Proof.
  intros Hw Hk E Hunc lf1 Hlf1.
  destruct (arp_register_spec w ip4 e when Hw)
    as (r0 & w0 & E0 & _ & _ & _ & Hframe & Hcase).
  assert (r0 = r /\ w0 = w1) as [-> ->] by (split; congruence).
  destruct (Z.eq_dec k (be32toh_q ip4)) as [->|Hne].
  - destruct Hcase as [(_ & Hnone & _)|(_ & lf0 & Hwas & Hrec)]; [congruence|].
    assert (lf1 = registered e lf0) by congruence. subst lf1.
    split; [|left; reflexivity].
    destruct Hwas as [Hwas|[_ ->]]; [|reflexivity].
    exact (Hunc _ Hwas).
  - rewrite (Hframe _ Hk Hne) in Hlf1. split; [exact (Hunc _ Hlf1)|]. right. auto.
Qed.

(** *** [arp_insert] and the allocator *)

(** One level of [arp_insert] at a node above the /32 nodes. *)
Lemma insert_rec_step h fuel n a when hp s :
  twf (S h) n -> data n = Sub s ->
  arp_insert_rec (S fuel) n a when hp =
  match s !! Z.to_nat (nibble h a) with
  | None => Stuck Undefined
  | Some (Some sn) =>
      r <-- arp_insert_rec fuel sn a when hp ;;
      let '(rn, sn', h2) := r in
      Ret (option_map (cons (Z.to_nat (nibble h a))) rn,
           set_data (Sub (<[Z.to_nat (nibble h a) := Some sn']> s)) n, h2)
  | Some None =>
      match calloc hp with
      | (false, h') => Ret (None, n, h')
      | (true, h') =>
          r <-- arp_insert_rec fuel
                  (new_arpn (Z.lor (addr n) (Z.shiftl (nibble h a) (4 * Z.of_nat h)))
                            (32 - 4 * Z.of_nat h) when) a when h' ;;
          let '(rn, sn', h2) := r in
          Ret (option_map (cons (Z.to_nat (nibble h a))) rn,
               set_data (Sub (<[Z.to_nat (nibble h a) := Some sn']> s)) n, h2)
      end
  end.
Proof.
  intros Hn Hs.
  pose proof (twf_plen _ _ Hn) as Hp. pose proof (twf_height _ _ Hn) as Hh.
  cbn [arp_insert_rec].
  destruct (Z.eqb_spec (plen n) 32) as [E|_]; [lia|].
  assert (Hsplen : u8 (plen n + 4) = 32 - 4 * Z.of_nat h).
  { rewrite Hp. unfold u8. rewrite Z.mod_small; lia. }
  rewrite Hsplen.
  replace (32 - (32 - 4 * Z.of_nat h)) with (4 * Z.of_nat h) by lia.
  unfold shr32, shl32.
  rewrite (proj2 (Z.leb_le 0 (4 * Z.of_nat h))) by lia.
  rewrite (proj2 (Z.ltb_lt (4 * Z.of_nat h) 32)) by lia.
  cbn [andb obind].
  change (Z.shiftr a (4 * Z.of_nat h) mod 16) with (nibble h a).
  unfold get_sub. rewrite Hs. cbn [obind].
  destruct (s !! Z.to_nat (nibble h a)) as [[sn|]|]; [reflexivity| |reflexivity].
  destruct hp as [|[|] hp']; cbn [calloc obind snd]; try reflexivity.
  rewrite shifted_nibble_u32 by lia. reflexivity.
Qed.

(** [arp_insert] takes at most one allocation per level, succeeds if
    they all succeed, and allocates and changes nothing if the record
    is there. *)
Lemma insert_alloc h : forall fuel n a when hp rn n' hp',
  (h < fuel)%nat -> twf h n -> addr n = prefix h a ->
  arp_insert_rec fuel n a when hp = Ret (rn, n', hp') ->
  exists k, (k <= h)%nat /\ hp' = drop k hp /\
    ((forall i, (i < h)%nat -> hp !! i = Some true) -> rn <> None) /\
    (deref n (path_of h a) <> None -> k = 0%nat /\ n' = n).
Proof.
  induction h as [|h IH]; intros fuel n a when hp rn n' hp' Hfuel Hn Ha E;
    (destruct fuel as [|fuel]; [lia|]).
  - pose proof (twf_plen _ _ Hn) as Hp. cbn [arp_insert_rec] in E.
    rewrite Hp in E. change (32 - 4 * Z.of_nat 0 =? 32) with true in E. cbv iota in E.
    assert (Haa : addr n = a) by (rewrite Ha; apply prefix_0).
    rewrite (proj2 (Z.eqb_eq (addr n) a) Haa) in E. inversion E. subst.
    exists 0%nat. split; [lia|]. split; [reflexivity|].
    split; [discriminate|auto].
  - pose proof (twf_height _ _ Hn) as Hh.
    destruct (twf_sub _ _ Hn) as (s & Hs & Hl & Hc).
    rewrite (insert_rec_step h fuel n a when hp s Hn Hs) in E.
    pose proof (nibble_range h a) as Hnib.
    cbn [path_of deref]. rewrite Hs.
    destruct (s !! Z.to_nat (nibble h a)) as [[sn|]|] eqn:Hslot; [| |discriminate].
    + destruct (Hc _ sn Hslot) as [Hsna Hsnw].
      assert (Hsa : addr sn = prefix h a).
      { rewrite Hsna, Z2Nat.id, Ha by lia. apply prefix_step. }
      destruct (arp_insert_rec fuel sn a when hp) as [[[rn0 sn'] h2]|f] eqn:E0;
        [|discriminate].
      cbn [obind] in E. inversion E. subst rn n' hp'. clear E.
      destruct (IH fuel sn a when hp rn0 sn' h2 ltac:(lia) Hsnw Hsa E0)
        as (k & Hk & Hdrop & Hall & Hsame).
      exists k. split; [lia|]. split; [exact Hdrop|]. split.
      * intros Htrue. destruct rn0; [discriminate|].
        exfalso. apply Hall; [|reflexivity]. intros i Hi. apply Htrue. lia.
      * intros Hthere. destruct (Hsame Hthere) as [-> ->].
        split; [reflexivity|].
        rewrite (list_insert_id s _ _ Hslot). apply set_data_same. exact Hs.
    + destruct hp as [|[|] hp0]; cbn [calloc] in E.
      * inversion E. subst. exists 0%nat. split; [lia|]. split; [reflexivity|].
        split; [|intros Hx; contradiction].
        intros Htrue. specialize (Htrue 0%nat ltac:(lia)). discriminate.
      * assert (Hfa : Z.lor (addr n) (Z.shiftl (nibble h a) (4 * Z.of_nat h))
                      = prefix h a).
        { rewrite Ha. apply prefix_step. }
        rewrite Hfa in E.
        destruct (arp_insert_rec fuel _ a when hp0) as [[[rn0 sn'] h2]|f] eqn:E0;
          [|discriminate].
        cbn [obind] in E. inversion E. subst rn n' hp'. clear E.
        destruct (IH fuel _ a when hp0 rn0 sn' h2 ltac:(lia)
                    (fresh_twf h (prefix h a) when ltac:(lia)) eq_refl E0)
          as (k & Hk & Hdrop & Hall & _).
        exists (S k). split; [lia|]. split; [exact Hdrop|].
        split; [|intros Hx; contradiction].
        intros Htrue. destruct rn0; [discriminate|].
        exfalso. apply Hall; [|reflexivity].
        intros i Hi. apply (Htrue (S i)). lia.
      * inversion E. subst. exists 1%nat. split; [lia|]. split; [reflexivity|].
        split; [|intros Hx; contradiction].
        intros Htrue. specialize (Htrue 0%nat ltac:(lia)). discriminate.
Qed.

(** Assigning to a pointer the value it points to changes nothing. *)
Lemma assign_id : forall p n lf, deref n p = Some lf -> assign n p lf = n.
Proof.
  induction p as [|i p IH]; intros n lf Hd; cbn [assign deref] in *.
  - congruence.
  - destruct (data n) as [s|e r] eqn:Hs; [|discriminate].
    destruct (s !! i) as [[c|]|] eqn:Hslot; try discriminate.
    rewrite (IH c lf Hd), (list_insert_id s _ _ Hslot).
    apply set_data_same. exact Hs.
Qed.

Lemma world_eta w : World (arp_root w) (mem w) (wire w) (sent w) = w.
Proof. destruct w. reflexivity. Qed.

(** [arp_insert] and the allocator, on a well-formed state. *)
Lemma arp_insert_alloc w a when rn w' :
  wwf w ->
  arp_insert a when w = Ret (rn, w') ->
  exists k, (k <= 8)%nat /\ mem w' = drop k (mem w) /\
    ((forall i, (i < 8)%nat -> mem w !! i = Some true) -> rn <> None) /\
    (rec_at w (u32 a) <> None -> w' = w).
Proof.
  intros [Hw H0] E. unfold arp_insert in E.
  destruct (arp_insert_rec depth_fuel (arp_root w) (u32 a) (u64 when) (mem w))
    as [[[rn0 n'] h']|f] eqn:E0; [|discriminate].
  cbn [obind] in E. inversion E. subst rn w'. clear E.
  destruct (insert_alloc 8 depth_fuel (arp_root w) (u32 a) (u64 when) (mem w)
              rn0 n' h' ltac:(unfold depth_fuel; lia) Hw) as (k & Hk & Hdrop & Hall & Hsame).
  { rewrite H0. symmetry. apply prefix_8. apply u32_range. }
  { exact E0. }
  exists k. cbn [mem]. split; [exact Hk|]. split; [exact Hdrop|].
  split; [exact Hall|].
  intros Hthere. destruct (Hsame Hthere) as [-> ->].
  rewrite drop_0 in Hdrop. subst h'. apply world_eta.
Qed.

Lemma insert_present w k when lf :
  wwf w -> 0 <= k < 2 ^ 32 -> rec_at w k = Some lf ->
  arp_insert k when w = Ret (Some (path_of 8 k), w).
Proof.
  intros Hw Hk Hlf.
  destruct (arp_insert_spec w k when Hw Hk) as (rn & w' & E & _ & _ & _ & _ & Hrn).
  destruct (arp_insert_alloc w k when rn w' Hw E) as (_ & _ & _ & _ & Hsame).
  rewrite (u32_id k Hk) in Hsame. rewrite Hsame in E by congruence.
  destruct rn as [p|].
  - destruct Hrn as [-> _]. exact E.
  - destruct Hrn as [_ Hnone]. congruence.
Qed.

(** [arp_register] and [arp_reserve] start with [arp_insert]: once it
    has succeeded, they run as on the state it leaves. *)
Lemma register_after_insert w ip4 e when p w1 :
  wwf w ->
  arp_insert (be32toh_q ip4) when w = Ret (Some p, w1) ->
  arp_register ip4 e when w = arp_register ip4 e when w1 /\ wwf w1 /\
  rec_at w1 (be32toh_q ip4) <> None.
Proof.
  intros Hw E. pose proof (be32toh_q_range ip4) as Hk.
  destruct (arp_insert_spec w _ when Hw Hk) as (rn & w' & E' & Hw1 & _ & _ & _ & Hrn).
  rewrite E in E'. inversion E'. subst rn w'. clear E'.
  destruct Hrn as (-> & lf & Hlf & _).
  split; [|split; [exact Hw1|congruence]].
  unfold arp_register.
  rewrite (bind_run _ _ _ _ _ E).
  rewrite (bind_run _ _ _ _ _ (insert_present w1 _ when lf Hw1 Hk Hlf)).
  reflexivity.
Qed.

Lemma reserve_after_insert w ip4 p w1 :
  wwf w ->
  arp_insert (be32toh_q ip4) 0 w = Ret (Some p, w1) ->
  arp_reserve ip4 w = arp_reserve ip4 w1 /\ wwf w1 /\
  rec_at w1 (be32toh_q ip4) <> None.
Proof.
  intros Hw E. pose proof (be32toh_q_range ip4) as Hk.
  destruct (arp_insert_spec w _ 0 Hw Hk) as (rn & w' & E' & Hw1 & _ & _ & _ & Hrn).
  rewrite E in E'. inversion E'. subst rn w'. clear E'.
  destruct Hrn as (-> & lf & Hlf & _).
  split; [|split; [exact Hw1|congruence]].
  unfold arp_reserve.
  rewrite (bind_run _ _ _ _ _ E).
  rewrite (bind_run _ _ _ _ _ (insert_present w1 _ 0 lf Hw1 Hk Hlf)).
  reflexivity.
Qed.

Section More.

Variable env : arp_env.

(** X1.  [arp_register] changes what [arp_lookup] finds for the address
    registered and for no other: the lookup of any other address gives
    the same result before and after, whether the registration succeeds
    or fails. *)
Theorem X1_register_touches_one_address w ip4 mac when r w' ip4' ether :
  reachable env w ->
  arp_register ip4 mac when w = Ret (r, w') ->
  ip4' <> ip4 ->
  exists x,
    arp_lookup ip4' ether w = Ret (x, w) /\
    arp_lookup ip4' ether w' = Ret (x, w').
Proof.
  intros Hreach E Hne.
  pose proof (reachable_wwf env w Hreach) as Hw.
  destruct (arp_register_spec w ip4 mac when Hw)
    as (r0 & w0 & E0 & Hw' & _ & _ & Hframe & _).
  assert (w0 = w') by congruence. subst w0.
  rewrite (arp_lookup_spec w ip4' ether Hw), (arp_lookup_spec w' ip4' ether Hw').
  rewrite (Hframe _ (be32toh_q_range ip4') (key_neq _ _ Hne)). eauto.
Qed.

(** X2.  [arp_reserve] changes no link-layer address: an address that
    [arp_lookup] found before is found after with the same link-layer
    address, an address other than the reserved one that was not found
    is still not found, and after a successful call the reserved address
    is found. *)
Theorem X2_reserve_keeps_mappings w ip4 r w' :
  reachable env w ->
  arp_reserve ip4 w = Ret (r, w') ->
  (forall ip4' ether mac,
      arp_lookup ip4' ether w = Ret ((0, mac), w) ->
      arp_lookup ip4' ether w' = Ret ((0, mac), w')) /\
  (forall ip4' ether,
      ip4' <> ip4 ->
      arp_lookup ip4' ether w = Ret ((-1, ether), w) ->
      arp_lookup ip4' ether w' = Ret ((-1, ether), w')) /\
  (r = 0 -> forall ether, exists mac,
      arp_lookup ip4 ether w' = Ret ((0, mac), w')).
Proof.
  intros Hreach E.
  pose proof (reachable_wwf env w Hreach) as Hw.
  destruct (arp_reserve_spec w ip4 Hw)
    as (r0 & w0 & E0 & Hw' & _ & _ & Hframe & Hcase).
  assert (r0 = r /\ w0 = w') as [-> ->] by (split; congruence).
  split; [|split].
  - intros ip4' ether mac.
    rewrite (arp_lookup_spec w ip4' ether Hw), (arp_lookup_spec w' ip4' ether Hw').
    destruct (rec_at w (be32toh_q ip4')) as [lf|] eqn:Hlf; [|discriminate].
    intros Hx. inversion Hx as [Hmac]. clear Hx.
    destruct (Z.eq_dec (be32toh_q ip4') (be32toh_q ip4)) as [Heq|Hne].
    + rewrite Heq in *.
      destruct Hcase as [(_ & _ & Hnone)|(_ & lf0 & Hwas & Hrec)]; [congruence|].
      destruct Hwas as [Hwas|[Hnone _]]; [|congruence].
      assert (lf0 = lf) by congruence. subst lf0. rewrite Hrec. reflexivity.
    + rewrite (Hframe _ (be32toh_q_range ip4') Hne), Hlf. reflexivity.
  - intros ip4' ether Hne.
    rewrite (arp_lookup_spec w ip4' ether Hw), (arp_lookup_spec w' ip4' ether Hw').
    rewrite (Hframe _ (be32toh_q_range ip4') (key_neq _ _ Hne)).
    destruct (rec_at w (be32toh_q ip4')); [discriminate|reflexivity].
  - intros -> ether.
    destruct Hcase as [(Hr & _)|(_ & lf0 & _ & Hrec)]; [discriminate|].
    rewrite (arp_lookup_spec w' ip4 ether Hw'), Hrec. eauto.
Qed.

(** One call keeps every record, and its flags. *)
Lemma exec_kept ev w w' k lf :
  wwf w -> 0 <= k < 2 ^ 32 ->
  exec env ev w = Ret w' ->
  rec_at w k = Some lf ->
  exists lf', rec_at w' k = Some lf' /\ flags_kept lf lf'.
Proof.
  intros Hw Hk E Hlf.
  destruct ev as [a when|ip4 e when|ip4|fl ap len]; cbn [exec] in E.
  - rewrite arp_insert_u32 in E.
    destruct (arp_insert_spec w (u32 a) when Hw (u32_range a))
      as (rn & w0 & E0 & _ & _ & _ & Hframe & Hrn).
    rewrite E0 in E. cbn in E. inversion E. subst w0. clear E.
    exists lf. split; [|apply flags_kept_refl].
    destruct (Z.eq_dec k (u32 a)) as [->|Hne].
    + destruct rn as [p|].
      * destruct Hrn as (_ & lf0 & Hrec & [Hwas|[Hnone _]]); congruence.
      * destruct Hrn as [_ Hnone]. congruence.
    + rewrite (Hframe _ Hk Hne). exact Hlf.
  - destruct (arp_register ip4 e when w) as [[r w0]|f] eqn:E0; [|discriminate].
    cbn in E. inversion E. subst w0. clear E.
    destruct (register_rec w ip4 e when r w' k lf Hw Hk E0 Hlf)
      as (lf' & Hlf' & Hc & Hr & _).
    exists lf'. split; [exact Hlf'|]. apply flags_kept_eq; assumption.
  - destruct (arp_reserve_spec w ip4 Hw)
      as (r & w0 & E0 & _ & _ & _ & Hframe & Hcase).
    rewrite E0 in E. cbn in E. inversion E. subst w0. clear E.
    destruct (Z.eq_dec k (be32toh_q ip4)) as [->|Hne].
    + destruct Hcase as [(_ & _ & Hnone)|(_ & lf0 & Hwas & Hrec)]; [congruence|].
      destruct Hwas as [Hwas|[Hnone _]]; [|congruence].
      assert (lf0 = lf) by congruence. subst lf0.
      exists (set_reserved true lf). split; [exact Hrec|].
      destruct lf. split; auto.
    + exists lf. rewrite (Hframe _ Hk Hne). split; [exact Hlf|apply flags_kept_refl].
  - destruct (packet_analyze_arp env fl ap len w) as [[r w0]|f] eqn:E0; [|discriminate].
    cbn in E. inversion E. subst w0. clear E.
    destruct (analyze_cases env fl ap len w) as [[r0 E1]|[[Hreq Hoob]|Hann]].
    + assert (w' = w) by congruence. subst w'.
      exists lf. split; [exact Hlf|apply flags_kept_refl].
    + destruct (request_step env fl ap len w Hw Hreq Hoob)
        as (rr & w1 & r1 & w2 & E1 & E2 & _ & Hframe & Hcase).
      assert (w2 = w') by congruence. subst w2.
      destruct (register_rec w _ _ _ _ _ k lf Hw Hk E1 Hlf)
        as (lf1 & Hlf1 & Hc & Hr & _).
      pose proof (flags_kept_eq lf lf1 Hc Hr) as Hk1.
      destruct (Z.eq_dec k (be32toh_q (tpa ap))) as [->|Hne].
      * destruct Hcase as [(_ & _ & Hnone & _)|(lf0 & Hwas & Hrec & _)]; [congruence|].
        destruct Hwas as [Hwas|[Hnone _]]; [|congruence].
        assert (lf0 = lf1) by congruence. subst lf0.
        exists (fst (probe (timestamp fl) lf1)). split; [exact Hrec|].
        apply (flags_kept_trans _ _ _ Hk1). split.
        -- rewrite probe_reserved. auto.
        -- apply probe_claimed_kept.
      * exists lf1. rewrite (Hframe _ Hk Hne). auto.
    + destruct (announcement_step env fl ap len w Hw Hann)
        as (r1 & w1 & r2 & w2 & E1 & E2 & E3 & Hw1 & _).
      assert (w2 = w') by congruence. subst w2.
      destruct (register_rec w _ _ _ _ _ k lf Hw Hk E1 Hlf)
        as (lf1 & Hlf1 & Hc & Hr & _).
      destruct (register_rec w1 _ _ _ _ _ k lf1 Hw1 Hk E2 Hlf1)
        as (lf2 & Hlf2 & Hc2 & Hr2 & _).
      exists lf2. split; [exact Hlf2|]. apply flags_kept_eq; congruence.
Qed.

(** X3.  No call removes a record or clears a flag: after any sequence
    of calls of [arp_insert], [arp_register], [arp_reserve] and the
    analyzer, an address that had a record still has one, found by
    [arp_lookup], and the record is still reserved if it was reserved
    and still claimed if it was claimed. *)
Theorem X3_records_and_flags_persist evs w w' ip4 lf ether :
  reachable env w ->
  run env evs w = Ret w' ->
  rec_at w (be32toh_q ip4) = Some lf ->
  exists lf',
    rec_at w' (be32toh_q ip4) = Some lf' /\ flags_kept lf lf' /\
    arp_lookup ip4 ether w' = Ret ((0, ether_of lf'), w').
Proof.
  revert w lf. induction evs as [|ev evs IH]; intros w lf Hreach E Hlf.
  - cbn in E. inversion E. subst w'. exists lf.
    split; [exact Hlf|]. split; [apply flags_kept_refl|].
    apply lookup_found; [exact (reachable_wwf env w Hreach)|exact Hlf].
  - cbn [run] in E.
    destruct (exec env ev w) as [w1|f] eqn:E1; [|discriminate]. cbn in E.
    destruct (exec_kept ev w w1 _ lf (reachable_wwf env w Hreach)
                (be32toh_q_range ip4) E1 Hlf) as (lf1 & Hlf1 & Hk1).
    destruct (IH w1 lf1 (reachable_step env ev w w1 Hreach E1) E Hlf1)
      as (lf' & Hlf' & Hk' & Hl).
    exists lf'. split; [exact Hlf'|]. split; [|exact Hl].
    exact (flags_kept_trans _ _ _ Hk1 Hk').
Qed.

(** X4.  A well-formed request in scope registers its sender: unless the
    allocation of the sender's record fails, in which case the sender
    had no record and has none, [arp_lookup] of the sender's address
    gives the sender's link-layer address afterwards.  (The sender is
    not the target.) *)
Theorem X4_request_registers_sender fl ap len w r w' ether :
  reachable env w ->
  is_request env ap len = true ->
  out_of_bounds env (be32toh_q (tpa ap)) = false ->
  spa ap <> tpa ap ->
  packet_analyze_arp env fl ap len w = Ret (r, w') ->
  arp_lookup (spa ap) ether w' = Ret ((0, sha ap), w') \/
  (arp_lookup (spa ap) ether w = Ret ((-1, ether), w) /\
   arp_lookup (spa ap) ether w' = Ret ((-1, ether), w')).
Proof.
  intros Hreach Hreq Hoob Hne E.
  pose proof (reachable_wwf env w Hreach) as Hw.
  destruct (request_step env fl ap len w Hw Hreq Hoob)
    as (rr & w1 & r1 & w2 & E1 & E2 & Hw' & Hframe & _).
  assert (w2 = w') by congruence. subst w2.
  destruct (arp_register_spec w (spa ap) (sha ap) (timestamp fl) Hw)
    as (r0 & w0 & E0 & _ & _ & _ & _ & Hcase).
  assert (w0 = w1) by congruence. subst w0.
  pose proof (Hframe _ (be32toh_q_range (spa ap)) (key_neq _ _ Hne)) as Hsame.
  destruct Hcase as [(_ & Hnone1 & Hnone)|(_ & lf0 & _ & Hrec)].
  - right. split; apply lookup_missing; congruence.
  - left. rewrite (lookup_found w' (spa ap) ether (registered (sha ap) lf0) Hw');
      [reflexivity|congruence].
Qed.

(** X5.  A well-formed is-at packet is never answered and never an
    error: the analyzer returns 0 and sends nothing; afterwards the
    target address maps to the target link-layer address of the packet
    and, if it is another address, the sender address to the sender
    link-layer address (each unless its allocation failed, and then it
    has no record); no other address changes. *)
Theorem X5_announcement_registers_both fl ap len w r w' ether :
  reachable env w ->
  is_announcement env ap len = true ->
  packet_analyze_arp env fl ap len w = Ret (r, w') ->
  r = 0 /\ sent w' = sent w /\
  (arp_lookup (tpa ap) ether w' = Ret ((0, tha ap), w') \/
   arp_lookup (tpa ap) ether w' = Ret ((-1, ether), w')) /\
  (spa ap <> tpa ap ->
   arp_lookup (spa ap) ether w' = Ret ((0, sha ap), w') \/
   arp_lookup (spa ap) ether w' = Ret ((-1, ether), w')) /\
  (forall ip4, ip4 <> spa ap -> ip4 <> tpa ap ->
   exists x, arp_lookup ip4 ether w = Ret (x, w) /\
             arp_lookup ip4 ether w' = Ret (x, w')).
Proof.
  intros Hreach Hann E.
  pose proof (reachable_wwf env w Hreach) as Hw.
  destruct (announcement_step env fl ap len w Hw Hann)
    as (r1 & w1 & r2 & w2 & E1 & E2 & E3 & Hw1 & Hw2).
  assert (r = 0 /\ w2 = w') as [-> ->] by (split; congruence).
  destruct (arp_register_spec w (spa ap) (sha ap) (timestamp fl) Hw)
    as (ra & wa & Ea & _ & _ & Hsa & Hfa & Hca).
  assert (wa = w1) by congruence. subst wa.
  destruct (arp_register_spec w1 (tpa ap) (tha ap) (timestamp fl) Hw1)
    as (rb & wb & Eb & _ & _ & Hsb & Hfb & Hcb).
  assert (wb = w') by congruence. subst wb.
  split; [reflexivity|]. split; [congruence|]. split; [|split].
  - destruct Hcb as [(_ & Hnone & _)|(_ & lf0 & _ & Hrec)].
    + right. apply lookup_missing; assumption.
    + left. rewrite (lookup_found w' (tpa ap) ether _ Hw2 Hrec). reflexivity.
  - intros Hne.
    pose proof (Hfb _ (be32toh_q_range (spa ap)) (key_neq _ _ Hne)) as Hsame.
    destruct Hca as [(_ & Hnone & _)|(_ & lf0 & _ & Hrec)].
    + right. apply lookup_missing; congruence.
    + left. rewrite (lookup_found w' (spa ap) ether (registered (sha ap) lf0) Hw2);
        [reflexivity|congruence].
  - intros ip4 Hns Hnt.
    rewrite (arp_lookup_spec w ip4 ether Hw), (arp_lookup_spec w' ip4 ether Hw2).
    rewrite (Hfb _ (be32toh_q_range ip4) (key_neq _ _ Hnt)).
    rewrite (Hfa _ (be32toh_q_range ip4) (key_neq _ _ Hns)). eauto.
Qed.

(** X6.  The analyzer sends at most one packet per call, and only the
    reply to the request it was given: the list of sent packets is
    unchanged, or it grew by that reply, the packet was a well-formed
    request in scope, and the record of its target is claimed and not
    reserved. *)
Theorem X6_at_most_one_reply fl ap len w r w' :
  reachable env w ->
  packet_analyze_arp env fl ap len w = Ret (r, w') ->
  sent w' = sent w \/
  (sent w' = sent w ++ [reply_to env fl ap] /\
   is_request env ap len = true /\
   out_of_bounds env (be32toh_q (tpa ap)) = false /\
   exists lf, rec_at w' (be32toh_q (tpa ap)) = Some lf /\
              claimed lf = true /\ reserved lf = false).
Proof.
  intros Hreach E.
  pose proof (reachable_wwf env w Hreach) as Hw.
  destruct (analyze_cases env fl ap len w) as [[r0 E1]|[[Hreq Hoob]|Hann]].
  - left. congruence.
  - destruct (request_step env fl ap len w Hw Hreq Hoob)
      as (rr & w1 & r1 & w2 & E1 & E2 & _ & _ & Hcase).
    assert (w2 = w') by congruence. subst w2.
    destruct Hcase as [(_ & _ & _ & Hsent)|(lf0 & _ & Hrec & Hsent & _)];
      [left; exact Hsent|].
    destruct (snd (probe (timestamp fl) lf0)) eqn:Hp.
    + right. split; [exact Hsent|]. split; [exact Hreq|]. split; [exact Hoob|].
      destruct (probe_reply _ _ Hp) as [Hc Hr].
      exists (fst (probe (timestamp fl) lf0)). split; [exact Hrec|].
      split; [exact Hc|]. rewrite probe_reserved. exact Hr.
    + left. rewrite Hsent. apply app_nil_r.
  - destruct (announcement_step env fl ap len w Hw Hann)
      as (r1 & w1 & r2 & w2 & E1 & E2 & E3 & Hw1 & _).
    assert (w2 = w') by congruence. subst w2.
    destruct (arp_register_spec w (spa ap) (sha ap) (timestamp fl) Hw)
      as (ra & wa & Ea & _ & _ & Hsa & _).
    assert (wa = w1) by congruence. subst wa.
    destruct (arp_register_spec w1 (tpa ap) (tha ap) (timestamp fl) Hw1)
      as (rb & wb & Eb & _ & _ & Hsb & _).
    assert (wb = w') by congruence. subst wb.
    left. congruence.
Qed.

(** X7.  How an address comes to be claimed.  If a record is claimed
    after the analyzer has handled a packet, then it was claimed
    before, or: the record was there and not reserved, the packet is a
    well-formed request for this address from another address, the
    record counted at least three requests, the first of them at least
    3000 ms and the last less than 30000 ms before this packet, and the
    analyzer answered the packet. *)
Theorem X7_claimed_only_after_three_requests fl ap len w r w' ip4 lf' :
  reachable env w ->
  packet_analyze_arp env fl ap len w = Ret (r, w') ->
  rec_at w' (be32toh_q ip4) = Some lf' -> claimed lf' = true ->
  exists lf,
    rec_at w (be32toh_q ip4) = Some lf /\
    (claimed lf = true \/
     (tpa ap = ip4 /\ spa ap <> ip4 /\ is_request env ap len = true /\
      reserved lf = false /\ 3 <= nreq_of lf /\
      3000 <= u64 (timestamp fl - first lf) /\
      u64 (timestamp fl - last lf) < 30000 /\
      sent w' = sent w ++ [reply_to env fl ap])).
Proof.
  intros Hreach E Hlf' Hcl.
  pose proof (reachable_wwf env w Hreach) as Hw.
  pose proof (be32toh_q_range ip4) as Hk.
  assert (Hdec : (exists lf, rec_at w (be32toh_q ip4) = Some lf /\ claimed lf = true) \/
                 (forall x, rec_at w (be32toh_q ip4) = Some x -> claimed x = false)).
  { destruct (rec_at w (be32toh_q ip4)) as [lf|]; [|right; discriminate].
    destruct (claimed lf) eqn:Hc; [left; eauto|right; congruence]. }
  destruct Hdec as [(lf & Hlf & Hc)|Hunc]; [exists lf; auto|].
  destruct (analyze_cases env fl ap len w) as [[r0 E1]|[[Hreq Hoob]|Hann]].
  - (* the packet is dropped *)
    assert (w' = w) by congruence. subst w'.
    apply Hunc in Hlf'. congruence.
  - (* a request in scope *)
    destruct (request_step env fl ap len w Hw Hreq Hoob)
      as (rr & w1 & r1 & w2 & E1 & E2 & _ & Hframe & Hcase).
    assert (w2 = w') by congruence. subst w2.
    pose proof (register_unclaimed w _ _ _ _ _ _ Hw Hk E1 Hunc) as Hunc1.
    destruct (Z.eq_dec (be32toh_q ip4) (be32toh_q (tpa ap))) as [Heq|Hne].
    2:{ rewrite (Hframe _ Hk Hne) in Hlf'. destruct (Hunc1 _ Hlf'). congruence. }
    rewrite <- Heq in Hcase.
    destruct Hcase as [(_ & Hnone & _)|(lf0 & Hwas & Hrec & Hsent & _)];
      [congruence|].
    assert (lf' = fst (probe (timestamp fl) lf0)) by congruence. subst lf'.
    assert (Hlf0 : claimed lf0 = false /\
                   (nreq_of lf0 = 0 \/
                    (be32toh_q ip4 <> be32toh_q (spa ap) /\
                     rec_at w (be32toh_q ip4) = Some lf0))).
    { destruct Hwas as [Hwas|[_ ->]]; [exact (Hunc1 _ Hwas)|].
      split; [reflexivity|left; reflexivity]. }
    destruct Hlf0 as [Hc0 Hor].
    destruct (probe_claims _ _ Hc0 Hcl) as (Hr & Hn & Hf & Hl & Hs).
    destruct Hor as [Hz|[Hnes Hwas0]]; [lia|].
    exists lf0. split; [exact Hwas0|]. right.
    split; [symmetry; apply be32toh_q_inj; exact Heq|].
    split; [intros Hs'; apply Hnes; rewrite Hs'; reflexivity|].
    split; [exact Hreq|]. split; [exact Hr|]. split; [exact Hn|].
    split; [exact Hf|]. split; [exact Hl|].
    rewrite Hs in Hsent. exact Hsent.
  - (* an announcement *)
    destruct (announcement_step env fl ap len w Hw Hann)
      as (r1 & w1 & r2 & w2 & E1 & E2 & E3 & Hw1 & _).
    assert (w2 = w') by congruence. subst w2.
    pose proof (register_unclaimed w _ _ _ _ _ _ Hw Hk E1 Hunc) as Hunc1.
    assert (Hunc1' : forall x, rec_at w1 (be32toh_q ip4) = Some x -> claimed x = false)
      by (intros x Hx; exact (proj1 (Hunc1 x Hx))).
    destruct (register_unclaimed w1 _ _ _ _ _ _ Hw1 Hk E2 Hunc1' _ Hlf').
    congruence.
Qed.

(** X8.  A claimed address is defended: a well-formed request in scope
    for an address whose record is claimed and not reserved is always
    answered, and the record stays claimed, with its counter cleared,
    the time of the packet as its last time and its first time as it
    was. *)
Theorem X8_claimed_address_is_answered fl ap len w r w' lf :
  reachable env w ->
  is_request env ap len = true ->
  out_of_bounds env (be32toh_q (tpa ap)) = false ->
  rec_at w (be32toh_q (tpa ap)) = Some lf ->
  claimed lf = true -> reserved lf = false ->
  packet_analyze_arp env fl ap len w = Ret (r, w') ->
  sent w' = sent w ++ [reply_to env fl ap] /\
  exists lf',
    rec_at w' (be32toh_q (tpa ap)) = Some lf' /\
    claimed lf' = true /\ reserved lf' = false /\ nreq_of lf' = 0 /\
    first lf' = first lf /\ last lf' = timestamp fl.
Proof.
  intros Hreach Hreq Hoob Hlf Hc Hr E.
  pose proof (reachable_wwf env w Hreach) as Hw.
  destruct (request_step env fl ap len w Hw Hreq Hoob)
    as (rr & w1 & r1 & w2 & E1 & E2 & _ & _ & Hcase).
  assert (w2 = w') by congruence. subst w2.
  destruct (register_rec w _ _ _ _ _ _ lf Hw (be32toh_q_range (tpa ap)) E1 Hlf)
    as (lf1 & Hlf1 & Hc1 & Hr1 & Hf1 & _).
  destruct Hcase as [(_ & _ & Hnone & _)|(lf0 & Hwas & Hrec & Hsent & _)];
    [congruence|].
  destruct Hwas as [Hwas|[Hnone _]]; [|congruence].
  assert (lf0 = lf1) by congruence. subst lf0.
  rewrite probe_claimed in Hrec, Hsent by congruence.
  cbn [fst snd] in Hrec, Hsent.
  split; [exact Hsent|].
  eexists. split; [exact Hrec|].
  destruct lf1. cbn in *. repeat split; congruence.
Qed.

(** X9.  [arp_insert] of an address that has a record allocates nothing
    and changes nothing: it returns the pointer to the record and
    leaves the whole state, the allocator included, as it was. *)
Theorem X9_insert_of_known_address_changes_nothing a when w lf :
  reachable env w ->
  rec_at w (u32 a) = Some lf ->
  arp_insert a when w = Ret (Some (path_of 8 (u32 a)), w).
Proof.
  intros Hreach Hlf. rewrite arp_insert_u32.
  exact (insert_present w (u32 a) when lf (reachable_wwf env w Hreach)
           (u32_range a) Hlf).
Qed.

(** X10.  [arp_insert] allocates at most eight nodes, one per level
    below the root, and it fails only if an allocation fails: if the
    next eight allocations succeed it returns the pointer to the /32
    record of the address. *)
Theorem X10_insert_allocates_at_most_eight a when w rn w' :
  reachable env w ->
  arp_insert a when w = Ret (rn, w') ->
  exists k, (k <= 8)%nat /\ mem w' = drop k (mem w) /\
    ((forall i, (i < 8)%nat -> mem w !! i = Some true) ->
     rn = Some (path_of 8 (u32 a)) /\
     exists lf, rec_at w' (u32 a) = Some lf).
Proof.
  intros Hreach E. pose proof (reachable_wwf env w Hreach) as Hw.
  destruct (arp_insert_alloc w a when rn w' Hw E) as (k & Hk & Hdrop & Hall & _).
  exists k. split; [exact Hk|]. split; [exact Hdrop|].
  intros Htrue. specialize (Hall Htrue).
  rewrite arp_insert_u32 in E.
  destruct (arp_insert_spec w (u32 a) when Hw (u32_range a))
    as (rn0 & w0 & E0 & _ & _ & _ & _ & Hrn).
  assert (rn0 = rn /\ w0 = w') as [-> ->] by (split; congruence).
  destruct rn as [p|]; [|contradiction].
  destruct Hrn as (-> & lf & Hlf & _). eauto.
Qed.

(** X11.  [arp_register] is idempotent: registering again the address
    and link-layer address that a successful registration has just
    recorded returns 0 and leaves the whole state as it is, at whatever
    time. *)
Theorem X11_register_again_changes_nothing ip4 ether when when' w w1 :
  reachable env w ->
  arp_register ip4 ether when w = Ret (0, w1) ->
  arp_register ip4 ether when' w1 = Ret (0, w1).
Proof.
  intros Hreach E. pose proof (reachable_wwf env w Hreach) as Hw.
  pose proof (be32toh_q_range ip4) as Hk.
  destruct (arp_register_spec w ip4 ether when Hw)
    as (r0 & w0 & E0 & Hw1 & _ & _ & _ & Hcase).
  assert (r0 = 0 /\ w0 = w1) as [-> ->] by (split; congruence).
  destruct Hcase as [(Hr & _)|(_ & lf0 & _ & Hrec)]; [discriminate|].
  unfold arp_register.
  rewrite (bind_run _ _ _ _ _ (insert_present w1 _ when' _ Hw1 Hk Hrec)).
  rewrite (bind_run _ _ _ _ _ (load_spec w1 _ _ Hrec)).
  assert (Hge : get_ether (registered ether lf0) = Ret ether)
    by (destruct lf0; reflexivity).
  rewrite (bind_run _ _ _ _ _ (lift_run _ _ w1 Hge)).
  rewrite ether_eqb_refl. cbn [negb].
  rewrite (bind_run (ret tt) _ w1 tt w1 eq_refl).
  assert (Hst : store (path_of 8 (be32toh_q ip4)) (set_nreq 0) w1 = Ret (tt, w1)).
  { unfold store. unfold rec_at in Hrec. rewrite Hrec.
    assert (Hsn : set_nreq 0 (registered ether lf0) = Ret (registered ether lf0))
      by (destruct lf0; reflexivity).
    rewrite Hsn. cbn [obind].
    rewrite (assign_id _ _ _ Hrec), world_eta. reflexivity. }
  rewrite (bind_run _ _ _ _ _ Hst). reflexivity.
Qed.

(** X12.  [arp_register] fails only if an allocation fails: if the next
    eight allocations succeed it returns 0, and [arp_lookup] then finds
    the link-layer address registered. *)
Theorem X12_register_succeeds_with_memory ip4 ether when w ether0 :
  reachable env w ->
  (forall i, (i < 8)%nat -> mem w !! i = Some true) ->
  exists w',
    arp_register ip4 ether when w = Ret (0, w') /\
    arp_lookup ip4 ether0 w' = Ret ((0, ether), w').
Proof.
  intros Hreach Htrue. pose proof (reachable_wwf env w Hreach) as Hw.
  pose proof (be32toh_q_range ip4) as Hk.
  destruct (arp_insert_spec w _ when Hw Hk) as (rn & w1 & E1 & _).
  destruct (arp_insert_alloc w _ when rn w1 Hw E1) as (_ & _ & _ & Hall & _).
  specialize (Hall Htrue). destruct rn as [p|]; [|contradiction].
  destruct (register_after_insert w ip4 ether when p w1 Hw E1)
    as (Heq & Hw1 & Hthere).
  destruct (arp_register_spec w1 ip4 ether when Hw1)
    as (r & w' & E & Hw' & _ & _ & _ & Hcase).
  destruct Hcase as [(_ & _ & Hnone)|(-> & lf0 & _ & Hrec)]; [contradiction|].
  exists w'. split; [congruence|].
  rewrite (lookup_found w' ip4 ether0 _ Hw' Hrec). reflexivity.
Qed.

(** X13.  [arp_reserve] fails only if an allocation fails: if the next
    eight allocations succeed it returns 0 and the record of the address
    is reserved. *)
Theorem X13_reserve_succeeds_with_memory ip4 w :
  reachable env w ->
  (forall i, (i < 8)%nat -> mem w !! i = Some true) ->
  exists w' lf,
    arp_reserve ip4 w = Ret (0, w') /\
    rec_at w' (be32toh_q ip4) = Some lf /\ reserved lf = true.
Proof.
  intros Hreach Htrue. pose proof (reachable_wwf env w Hreach) as Hw.
  pose proof (be32toh_q_range ip4) as Hk.
  destruct (arp_insert_spec w _ 0 Hw Hk) as (rn & w1 & E1 & _).
  destruct (arp_insert_alloc w _ 0 rn w1 Hw E1) as (_ & _ & _ & Hall & _).
  specialize (Hall Htrue). destruct rn as [p|]; [|contradiction].
  destruct (reserve_after_insert w ip4 p w1 Hw E1) as (Heq & Hw1 & Hthere).
  destruct (arp_reserve_spec w1 ip4 Hw1)
    as (r & w' & E & Hw' & _ & _ & _ & Hcase).
  destruct Hcase as [(_ & _ & Hnone)|(-> & lf0 & _ & Hrec)]; [contradiction|].
  exists w', (set_reserved true lf0). split; [congruence|].
  split; [exact Hrec|]. destruct lf0. reflexivity.
Qed.

(** X20.  What the result of the analyzer means.  It is 0 or -1, and
    -1 only in three cases: the packet is shorter than [arp_pkt]; or it
    is a well-formed request in scope and no record could be allocated
    for its target; or it is one and the reply was handed to
    [ethernet_reply], which failed.  That the sender could not be
    registered is not reported.  And a well-formed request whose target
    is out of scope changes nothing at all: its sender is not registered
    either. *)
Theorem X20_result_of_the_analyzer fl ap len w r w' :
  reachable env w ->
  packet_analyze_arp env fl ap len w = Ret (r, w') ->
  (is_request env ap len = true ->
   out_of_bounds env (be32toh_q (tpa ap)) = true -> r = 0 /\ w' = w) /\
  (r = 0 \/
   (r = -1 /\
    (len < sizeof_arp_pkt env \/
     (is_request env ap len = true /\
      out_of_bounds env (be32toh_q (tpa ap)) = false /\
      (rec_at w' (be32toh_q (tpa ap)) = None \/
       sent w' = sent w ++ [reply_to env fl ap]))))).
Proof.
  intros Hreach E. pose proof (reachable_wwf env w Hreach) as Hw. split.
  { intros Hreq Hoob.
    rewrite (analyze_out_of_bounds env fl ap len w Hreq Hoob) in E.
    inversion E. auto. }
  destruct (Z.lt_ge_cases len (sizeof_arp_pkt env)) as [Hlen|Hlen].
  { rewrite (analyze_short env fl ap len w Hlen) in E. inversion E. auto. }
  destruct (header_ok env ap) eqn:Hh.
  2:{ rewrite (analyze_bad_header env fl ap len w Hlen Hh) in E. inversion E. auto. }
  destruct (Z.eqb_spec (oper ap) (arp_oper_who_has env)) as [Hop|Hop].
  - assert (Hreq : is_request env ap len = true).
    { unfold is_request. rewrite Hh, Hop, Z.eqb_refl.
      rewrite (proj2 (Z.leb_le _ _)) by lia. reflexivity. }
    destruct (out_of_bounds env (be32toh_q (tpa ap))) eqn:Hoob.
    + rewrite (analyze_out_of_bounds env fl ap len w Hreq Hoob) in E.
      inversion E. auto.
    + destruct (request_step env fl ap len w Hw Hreq Hoob)
        as (rr & w1 & r1 & w2 & _ & E2 & _ & _ & Hcase).
      assert (r1 = r /\ w2 = w') as [-> ->] by (split; congruence).
      destruct Hcase as [(Hr & Hnone & _)|(lf0 & _ & _ & Hsent & Hr)].
      * right. split; [exact Hr|]. right. auto.
      * destruct Hr as [Hr|[Hr Hp]]; [left; exact Hr|].
        right. split; [exact Hr|]. right.
        split; [exact Hreq|]. split; [reflexivity|]. right.
        rewrite Hp in Hsent. exact Hsent.
  - destruct (Z.eqb_spec (oper ap) (arp_oper_is_at env)) as [Hat|Hat].
    + assert (Hann : is_announcement env ap len = true).
      { unfold is_announcement. rewrite Hh, Hat, Z.eqb_refl.
        rewrite (proj2 (Z.leb_le _ _)) by lia.
        rewrite <- Hat. rewrite (proj2 (Z.eqb_neq _ _) Hop). reflexivity. }
      destruct (announcement_step env fl ap len w Hw Hann)
        as (r1 & w1 & r2 & w2 & _ & _ & E3 & _).
      left. congruence.
    + rewrite (analyze_unknown_oper env fl ap len w Hlen Hh Hop Hat) in E.
      inversion E. auto.
Qed.

End More.

End ArpMore.

(** * Further properties of the aggregator *)

Module Ip4aggMore.
Import ArpSpec ArpBits.
Import Ip4agg Ip4aggFacts Ip4aggSpec.

(** ** Arithmetic of subnets *)

Lemma mask_val (h : nat) :
  (h <= 8)%nat ->
  u32 (Z.shiftr 4294967295 (32 - 4 * Z.of_nat h)) = 2 ^ (4 * Z.of_nat h) - 1.
Proof.
  intros Hh. do 9 (destruct h as [|h]; [reflexivity|]). lia.
Qed.

Lemma pow_S (h : nat) : 2 ^ (4 * Z.of_nat (S h)) = 16 * 2 ^ (4 * Z.of_nat h).
Proof.
  replace (4 * Z.of_nat (S h)) with (4 + 4 * Z.of_nat h) by lia.
  rewrite Z.pow_add_r by lia. reflexivity.
Qed.

Lemma pow_pos (h : nat) : 0 < 2 ^ (4 * Z.of_nat h).
Proof. apply Z.pow_pos_nonneg; lia. Qed.

Lemma prefix_div h a : prefix h a = a / 2 ^ (4 * Z.of_nat h) * 2 ^ (4 * Z.of_nat h).
Proof.
  unfold prefix. rewrite Z.shiftl_mul_pow2, Z.shiftr_div_pow2 by lia. reflexivity.
Qed.

Lemma nibble_div h a : nibble h a = (a / 2 ^ (4 * Z.of_nat h)) mod 16.
Proof. unfold nibble. rewrite Z.shiftr_div_pow2 by lia. reflexivity. Qed.

(** The addresses of a subnet: from its address to its address with the
    host bits set. *)
Lemma subnet_range h a :
  prefix h a <= a <= prefix h a + 2 ^ (4 * Z.of_nat h) - 1.
Proof.
  rewrite prefix_div. pose proof (pow_pos h) as HM.
  set (M := 2 ^ (4 * Z.of_nat h)) in *.
  pose proof (Z.div_mod a M ltac:(lia)) as Hd.
  pose proof (Z.mod_pos_bound a M HM) as Hm. lia.
Qed.

Lemma lor_mask h a :
  Z.lor (prefix h a) (2 ^ (4 * Z.of_nat h) - 1) = prefix h a + 2 ^ (4 * Z.of_nat h) - 1.
Proof.
  assert (Hland : Z.land (prefix h a) (Z.ones (4 * Z.of_nat h)) = 0).
  { rewrite Z.land_ones by lia. rewrite prefix_div.
    apply Z.mod_mul. pose proof (pow_pos h). lia. }
  replace (2 ^ (4 * Z.of_nat h) - 1) with (Z.ones (4 * Z.of_nat h))
    by (rewrite Z.ones_equiv; lia).
  rewrite <- (Z.lxor_lor _ _ Hland), <- (Z.add_nocarry_lxor _ _ Hland).
  rewrite Z.ones_equiv. lia.
Qed.

(** Within a subnet, the slot of an address grows with the address. *)
Lemma slot_of h a b :
  prefix (S h) a <= b <= prefix (S h) a + 2 ^ (4 * Z.of_nat (S h)) - 1 ->
  nibble h b = b / 2 ^ (4 * Z.of_nat h) - 16 * (a / 2 ^ (4 * Z.of_nat (S h))).
Proof.
  rewrite prefix_div, pow_S, nibble_div. pose proof (pow_pos h) as HM.
  set (M := 2 ^ (4 * Z.of_nat h)) in *. intros Hb.
  rewrite Z.mod_eq by lia. rewrite Z.div_div by lia.
  replace (M * 16) with (16 * M) by lia.
  assert (Hq : a / (16 * M) = b / (16 * M)).
  { apply (Z.div_unique b (16 * M) (a / (16 * M)) (b - 16 * M * (a / (16 * M)))); lia. }
  rewrite Hq. reflexivity.
Qed.

Lemma slot_mono h a b c :
  prefix (S h) a <= b -> b <= c ->
  c <= prefix (S h) a + 2 ^ (4 * Z.of_nat (S h)) - 1 ->
  nibble h b <= nibble h c.
Proof.
  intros H1 H2 H3.
  rewrite (slot_of h a b), (slot_of h a c) by lia.
  pose proof (Z.div_le_mono b c (2 ^ (4 * Z.of_nat h)) (pow_pos h) H2). lia.
Qed.

Lemma shifted_slot_u32 h i :
  (h <= 7)%nat -> 0 <= i < 16 ->
  u32 (Z.shiftl i (4 * Z.of_nat h)) = Z.shiftl i (4 * Z.of_nat h).
Proof.
  intros Hh Hi. unfold u32. apply Z.mod_small.
  rewrite Z.shiftl_mul_pow2 by lia.
  assert (0 < 2 ^ (4 * Z.of_nat h) <= 2 ^ 28).
  { split; [apply Z.pow_pos_nonneg; lia|apply Z.pow_le_mono_r; lia]. }
  change (2 ^ 32) with (16 * 2 ^ 28). nia.
Qed.

(** ** [ip4a_lookup] on the trees that insertions build *)

Lemma cov_bound h n : cov h n -> (h <= 6)%nat -> 0 <= coverage n <= 2 ^ (4 * Z.of_nat h).
Proof. destruct h; simpl; tauto. Qed.

Lemma cov_kids h n : cov (S h) n -> kids (cov h) h n.
Proof. simpl. tauto. Qed.

Lemma cov_intro h n :
  ((S h <= 6)%nat -> 0 <= coverage n <= 2 ^ (4 * Z.of_nat (S h))) ->
  kids (cov h) h n -> cov (S h) n.
Proof. simpl. tauto. Qed.

Lemma covered_kid h n a : kid_covered h n a -> covered (S h) n a.
Proof. intros H. right. exact H. Qed.

Lemma covered_cases h n a :
  covered (S h) n a ->
  ((S h <= 6)%nat /\ coverage n = 2 ^ (4 * Z.of_nat (S h))) \/ kid_covered h n a.
Proof. intros H. exact H. Qed.

(** The shift and the slot of [ip4a_lookup] at a node above the /32
    level. *)
Lemma lookup_step h fuel n a :
  awf (S h) n ->
  ip4a_lookup_rec (S fuel) n a =
  if (addr n <=? a) && (a <=? Z.lor (addr n) (2 ^ (4 * Z.of_nat (S h)) - 1))
  then
    if coverage n =? 2 ^ (4 * Z.of_nat (S h))
    then Ret 1
    else
      match sub n !! Z.to_nat (nibble h a) with
      | None => Stuck Undefined
      | Some None => Ret 0
      | Some (Some sn) => ip4a_lookup_rec fuel sn a
      end
  else Ret 0.
Proof.
  intros Hn.
  pose proof (awf_height _ _ Hn) as Hh. pose proof (awf_plen _ _ Hn) as Hp.
  cbn [ip4a_lookup_rec]. rewrite (host_mask_awf _ _ Hn). cbn [obind].
  rewrite (full_cover _ Hh), (mask_val _ Hh).
  destruct ((addr n <=? a) && (a <=? Z.lor (addr n) (2 ^ (4 * Z.of_nat (S h)) - 1)));
    [|reflexivity].
  destruct (coverage n =? 2 ^ (4 * Z.of_nat (S h))); [reflexivity|].
  assert (Hk : u32 (32 - plen n - ip4a_bits) = 4 * Z.of_nat h).
  { rewrite Hp. unfold u32, ip4a_bits. rewrite Z.mod_small; lia. }
  rewrite Hk. unfold shr32.
  rewrite (proj2 (Z.leb_le _ _)) by lia.
  rewrite (proj2 (Z.ltb_lt _ _)) by lia.
  cbn [andb obind]. reflexivity.
Qed.

Lemma lookup_leaf fuel n a :
  awf 0 n -> coverage n = 1 ->
  ip4a_lookup_rec (S fuel) n a = Ret 0 \/ ip4a_lookup_rec (S fuel) n a = Ret 1.
Proof.
  intros Hn Hc. cbn [ip4a_lookup_rec]. rewrite (host_mask_awf _ _ Hn). cbn [obind].
  rewrite (full_cover 0) by lia. rewrite Hc.
  destruct ((addr n <=? a) && _); [right|left]; reflexivity.
Qed.

(** An address under a filled node is found. *)
Lemma lookup_covered h : forall fuel n a,
  (h < fuel)%nat -> awf h n -> cov h n -> 0 <= a ->
  addr n = prefix h a -> covered h n a ->
  ip4a_lookup_rec fuel n a = Ret 1.
Proof.
  induction h as [|h IH]; intros fuel n a Hfuel Hn Hcov Ha Haddr Hc;
    (destruct fuel as [|fuel]; [lia|]).
  - destruct Hc as [[_ Hc]|[]].
    cbn [ip4a_lookup_rec]. rewrite (host_mask_awf _ _ Hn). cbn [obind].
    rewrite (full_cover 0) by lia. rewrite Hc.
    rewrite (mask_val 0) by lia. rewrite Haddr, (lor_mask 0 a).
    pose proof (subnet_range 0 a) as Hr.
    rewrite (proj2 (Z.leb_le _ _)) by lia.
    rewrite (proj2 (Z.leb_le _ _)) by lia. reflexivity.
  - rewrite (lookup_step h fuel n a Hn).
    rewrite Haddr, (lor_mask (S h) a).
    pose proof (subnet_range (S h) a) as Hr.
    rewrite (proj2 (Z.leb_le _ _)) by lia.
    rewrite (proj2 (Z.leb_le _ _)) by lia. cbn [andb].
    destruct (Z.eqb_spec (coverage n) (2 ^ (4 * Z.of_nat (S h)))) as [E|E];
      [reflexivity|].
    destruct (covered_cases _ _ _ Hc) as [[_ Hfull]|(c & Hslot & Hcc)];
      [contradiction|].
    rewrite Hslot.
    destruct (cov_kids _ _ Hcov _ _ Hslot) as (Hca & _ & Hcs).
    apply IH; [lia|exact (awf_child _ _ _ _ Hn Hslot)|exact Hcs|exact Ha| |exact Hcc].
    rewrite Hca, Haddr, Z2Nat.id by (pose proof (nibble_range h a); lia).
    apply prefix_step.
Qed.

(** ** What a successful insertion keeps and adds *)

Lemma fresh_cov h a :
  cov h (Ip4aNode a (32 - 4 * Z.of_nat h) true 0 (replicate nsub None)).
Proof.
  pose proof (pow_pos h) as HM.
  destruct h as [|h]; cbn [cov]; (split; [intros _; cbn [coverage]; lia|]); [exact I|].
  intros i c Hi. cbn [sub] in Hi. destruct (no_child_in_replicate _ _ Hi).
Qed.

Lemma collapse_cov h n :
  awf h n ->
  cov h (collapse (u32 (Z.shiftr 4294967295 (32 - 4 * Z.of_nat h))) n) /\
  coverage (collapse (u32 (Z.shiftr 4294967295 (32 - 4 * Z.of_nat h))) n)
  = 2 ^ (4 * Z.of_nat h) /\
  addr (collapse (u32 (Z.shiftr 4294967295 (32 - 4 * Z.of_nat h))) n) = addr n.
Proof.
  intros Hn. pose proof (awf_height _ _ Hn) as Hh.
  set (n' := collapse (u32 (Z.shiftr 4294967295 (32 - 4 * Z.of_nat h))) n).
  assert (Hc : coverage n' = 2 ^ (4 * Z.of_nat h)).
  { unfold n', collapse, set_coverage. cbn [coverage]. apply full_cover. exact Hh. }
  assert (Hs : sub n' = replicate nsub None).
  { unfold n', collapse, set_coverage, set_leaf. cbn [sub].
    apply delete_sub. exact (awf_length _ _ Hn). }
  split; [|split; [exact Hc|reflexivity]].
  pose proof (pow_pos h) as HM. clearbody n'.
  destruct h as [|h]; cbn [cov]; (split; [intros _; rewrite Hc; lia|]); [exact I|].
  intros i c Hi. rewrite Hs in Hi. destruct (no_child_in_replicate _ _ Hi).
Qed.

Section InsertCoverage.

Variable h : nat.
Variable rec : ip4a_node -> Z -> Z -> heap -> outcome insert_result.
Variables first last : Z.
Hypothesis rec_ok :
  forall c hp c' hp',
    awf h c -> cov h c -> rec c first last hp = Ret (0, c', hp') ->
    awf h c' /\ cov h c' /\ addr c' = addr c /\ (h = O -> coverage c' = 1) /\
    (forall a, covered h c a -> covered h c' a) /\
    (forall a, first <= a <= last -> 0 <= a -> addr c = prefix h a -> covered h c' a).

(** One round of the loop: the child in slot [i], old or new, is [sn],
    and the insertion into it left [sn']. *)
Lemma step_ok n i sn sn' n2 :
  awf (S h) n -> kids (cov h) h n -> (i < 16)%nat ->
  addr sn = Z.lor (addr n) (Z.shiftl (Z.of_nat i) (4 * Z.of_nat h)) ->
  (forall c, sub n !! i = Some (Some c) -> c = sn) ->
  awf h sn' -> cov h sn' -> addr sn' = addr sn -> (h = O -> coverage sn' = 1) ->
  (forall a, covered h sn a -> covered h sn' a) ->
  (forall a, first <= a <= last -> 0 <= a -> addr sn = prefix h a -> covered h sn' a) ->
  addr n2 = addr n -> plen n2 = plen n -> leaf n2 = false ->
  length (sub n2) = nsub ->
  sub n2 !! i = Some (Some sn') ->
  (forall j, j <> i -> sub n2 !! j = sub n !! j) ->
  awf (S h) n2 /\ kids (cov h) h n2 /\
  (forall a, kid_covered h n a -> kid_covered h n2 a) /\
  (forall a, first <= a <= last -> 0 <= a -> addr n = prefix (S h) a ->
             nibble h a = Z.of_nat i -> kid_covered h n2 a).
Proof.
  intros Hn Hk Hi Hsa Hold Hw' Hc' Ha' H1' Hmono Hadd Ha2 Hp2 Hl2 Hlen Hat Hoth.
  split; [|split; [|split]].
  - apply awf_intro.
    + exact (awf_height _ _ Hn).
    + rewrite Hp2. exact (awf_plen _ _ Hn).
    + exact Hlen.
    + rewrite Hl2. discriminate.
    + intros j c Hj. exists h. split; [reflexivity|].
      destruct (decide (j = i)) as [->|Hne].
      * rewrite Hat in Hj. inversion Hj. subst c. exact Hw'.
      * rewrite (Hoth _ Hne) in Hj. exact (awf_child _ _ _ _ Hn Hj).
    + discriminate.
  - intros j c Hj. rewrite Ha2.
    destruct (decide (j = i)) as [->|Hne].
    + rewrite Hat in Hj. inversion Hj. subst c.
      split; [congruence|]. split; assumption.
    + rewrite (Hoth _ Hne) in Hj. exact (Hk _ _ Hj).
  - intros a (c & Hslot & Hc).
    destruct (decide (Z.to_nat (nibble h a) = i)) as [E|Hne].
    + exists sn'. rewrite E in *. split; [exact Hat|].
      apply Hmono. rewrite <- (Hold _ Hslot). exact Hc.
    + exists c. rewrite (Hoth _ Hne). auto.
  - intros a Hrange Ha Haddr Hnib.
    exists sn'. rewrite Hnib, Nat2Z.id. split; [exact Hat|].
    apply Hadd; [exact Hrange|exact Ha|].
    rewrite Hsa, Haddr, <- Hnib. apply prefix_step.
Qed.

Lemma loop_cov splen idx :
  splen = 32 - 4 * Z.of_nat h ->
  Forall (fun i => 0 <= i < 16) idx ->
  forall n hp n' hp',
    awf (S h) n -> kids (cov h) h n ->
    ip4a_insert_loop rec splen first last idx n hp = Ret (0, n', hp') ->
    awf (S h) n' /\ kids (cov h) h n' /\ addr n' = addr n /\
    (forall a, kid_covered h n a -> kid_covered h n' a) /\
    (forall a, first <= a <= last -> 0 <= a -> addr n = prefix (S h) a ->
               nibble h a ∈ idx -> kid_covered h n' a) /\
    ((h <= 6)%nat -> 0 <= coverage n ->
     coverage n + Z.of_nat (length idx) * 2 ^ (4 * Z.of_nat h) < 2 ^ 64 ->
     coverage n <= coverage n' <=
       coverage n + Z.of_nat (length idx) * 2 ^ (4 * Z.of_nat h)).
Proof.
  intros Hsplen Hidx. induction Hidx as [|i idx Hi Hidx IH];
    intros n hp n' hp' Hn Hk E.
  - cbn [ip4a_insert_loop] in E. inversion E. subst n' hp'.
    split; [exact Hn|]. split; [exact Hk|]. split; [reflexivity|].
    split; [auto|]. split.
    + intros a _ _ _ Hin. apply elem_of_nil in Hin. destruct Hin.
    + intros _ H0 _. cbn [length]. lia.
  - pose proof (awf_height _ _ Hn) as Hh.
    pose proof (awf_length _ _ Hn) as Hl. rewrite nsub_16 in Hl.
    pose proof (pow_pos h) as HM.
    cbn [ip4a_insert_loop] in E.
    destruct (lookup_lt_is_Some_2 (sub n) (Z.to_nat i)) as [slot Hslot]; [lia|].
    rewrite Hslot in E.
    (* the child visited, the node before the recursive call, and the
       oracle left *)
    assert (Hstep : exists sn n1 h1 r sn' h2,
      rec sn first last h1 = Ret (r, sn', h2) /\
      awf h sn /\ cov h sn /\
      addr sn = Z.lor (addr n) (Z.shiftl (Z.of_nat (Z.to_nat i)) (4 * Z.of_nat h)) /\
      (forall c, sub n !! Z.to_nat i = Some (Some c) -> c = sn) /\
      addr n1 = addr n /\ plen n1 = plen n /\ coverage n1 = coverage n /\
      length (sub n1) = nsub /\
      (forall j, j <> Z.to_nat i -> sub n1 !! j = sub n !! j) /\
      (leaf n1 = false) /\
      (if r =? 0
       then ip4a_insert_loop rec splen first last idx
              (set_coverage (u64 (coverage n1 + coverage sn'))
                 (set_sub (<[Z.to_nat i := Some sn']> (sub n1)) n1)) h2
       else Ret (r, set_coverage (u64 (coverage n1 + coverage sn'))
                      (set_sub (<[Z.to_nat i := Some sn']> (sub n1)) n1), h2))
      = Ret (0, n', hp')).
    { destruct slot as [sn|].
      - cbn [obind] in E.
        destruct (rec sn first last hp) as [[[r sn'] h2]|fl] eqn:Hrec;
          [|discriminate].
        cbn [obind] in E.
        exists sn, n, hp, r, sn', h2. split; [exact Hrec|].
        destruct (Hk _ _ Hslot) as (Hsa & _ & Hsc).
        split; [exact (awf_child _ _ _ _ Hn Hslot)|]. split; [exact Hsc|].
        split; [exact Hsa|]. split; [intros c Hc; congruence|].
        split; [reflexivity|]. split; [reflexivity|]. split; [reflexivity|].
        split; [rewrite nsub_16; exact Hl|]. split; [reflexivity|].
        split; [|exact E].
        destruct (leaf n) eqn:Elf; [|reflexivity].
        destruct (awf_leaf _ _ Hn Elf) as [_ Hs]. rewrite Hs in Hslot.
        apply lookup_replicate in Hslot. destruct Hslot; discriminate.
      - destruct hp as [|[|] hp0]; cbn [calloc obind snd] in E; try discriminate.
        unfold shl32 in E.
        assert (Hk32 : u32 (32 - splen) = 4 * Z.of_nat h).
        { subst splen. unfold u32. rewrite Z.mod_small; lia. }
        rewrite Hk32 in E.
        rewrite (proj2 (Z.leb_le _ _)) in E by lia.
        rewrite (proj2 (Z.ltb_lt _ _)) in E by lia.
        cbn [andb obind] in E.
        assert (Hu8 : u8 splen = 32 - 4 * Z.of_nat h).
        { subst splen. unfold u8. rewrite Z.mod_small; lia. }
        rewrite Hu8 in E. rewrite (shifted_slot_u32 h i) in E by lia.
        match type of E with context [rec ?sn _ _ _] =>
          destruct (rec sn first last hp0) as [[[r sn'] h2]|fl] eqn:Hrec;
            [|discriminate];
          exists sn
        end.
        cbn [obind] in E.
        match type of E with context [u64 (coverage ?n1 + coverage sn')] =>
          exists n1, hp0, r, sn', h2
        end.
        split; [exact Hrec|].
        split; [apply fresh_child_awf; lia|]. split; [apply fresh_cov|].
        split; [cbn [addr]; rewrite Z2Nat.id by lia; reflexivity|].
        split; [intros c Hc; congruence|].
        split; [reflexivity|]. split; [reflexivity|]. split; [reflexivity|].
        split; [cbn [sub set_leaf set_sub]; rewrite length_insert, nsub_16; exact Hl|].
        split; [intros j Hj; cbn [sub set_leaf set_sub];
                apply list_lookup_insert_ne; congruence|].
        split; [reflexivity|exact E]. }
    destruct Hstep as (sn & n1 & h1 & r & sn' & h2 & Hrec & Hsw & Hsc & Hsa & Hold &
                       Ha1 & Hp1 & Hc1 & Hl1 & Hoth1 & Hlf1 & E').
    destruct (Z.eqb_spec r 0) as [->|Hr]; [|inversion E'; contradiction].
    destruct (rec_ok sn h1 sn' h2 Hsw Hsc Hrec)
      as (Hw' & Hc' & Ha' & H1' & Hmono & Hadd).
    set (n2 := set_coverage (u64 (coverage n1 + coverage sn'))
                 (set_sub (<[Z.to_nat i := Some sn']> (sub n1)) n1)) in *.
    destruct (step_ok n (Z.to_nat i) sn sn' n2 Hn Hk ltac:(lia) Hsa Hold
                Hw' Hc' Ha' H1' Hmono Hadd)
      as (Hn2 & Hk2 & Hmono2 & Hadd2).
    { exact Ha1. }
    { exact Hp1. }
    { exact Hlf1. }
    { unfold n2. cbn [sub set_coverage set_sub]. rewrite length_insert. exact Hl1. }
    { unfold n2. cbn [sub set_coverage set_sub].
      apply list_lookup_insert_eq. rewrite Hl1, nsub_16. lia. }
    { intros j Hj. unfold n2. cbn [sub set_coverage set_sub].
      rewrite list_lookup_insert_ne by congruence. apply Hoth1. exact Hj. }
    destruct (IH n2 h2 n' hp' Hn2 Hk2 E')
      as (Hn' & Hk' & Haddr' & Hmono' & Hadd' & Hcov').
    assert (Han2 : addr n2 = addr n) by exact Ha1.
    split; [exact Hn'|]. split; [exact Hk'|]. split; [congruence|].
    split; [auto|]. split.
    + intros a Hrange Ha Haddr Hin. apply elem_of_cons in Hin.
      destruct Hin as [Hin|Hin].
      * apply Hmono'. apply Hadd2; try assumption. rewrite Hin, Z2Nat.id; lia.
      * apply Hadd'; try assumption. congruence.
    + intros Hh6 H0 Hlt. cbn [length] in *. rewrite Nat2Z.inj_succ in *.
      pose proof (cov_bound _ _ Hc' Hh6) as Hb.
      assert (Hc2 : coverage n2 = coverage n + coverage sn').
      { unfold n2. cbn [coverage set_coverage]. rewrite Hc1.
        unfold u64. apply Z.mod_small. nia. }
      assert (Hpre : coverage n2 + Z.of_nat (length idx) * 2 ^ (4 * Z.of_nat h) < 2 ^ 64)
        by nia.
      specialize (Hcov' Hh6 ltac:(lia) Hpre). nia.
Qed.

End InsertCoverage.

(** A successful insertion keeps the tree well formed, leaves under a
    filled node every address that was under one, and puts under one
    every address of the range that lies in the subnet of the node. *)
Lemma insert_cov h : forall fuel n f l hp n' hp',
  (h < fuel)%nat -> awf h n -> cov h n ->
  ip4a_insert_rec fuel n f l hp = Ret (0, n', hp') ->
  awf h n' /\ cov h n' /\ addr n' = addr n /\ (h = O -> coverage n' = 1) /\
  (forall a, covered h n a -> covered h n' a) /\
  (forall a, f <= a <= l -> 0 <= a -> addr n = prefix h a -> covered h n' a).
Proof.
  induction h as [|h IH]; intros fuel n f l hp n' hp' Hfuel Hn Hcov E;
    (destruct fuel as [|fuel]; [lia|]);
    pose proof (awf_height _ _ Hn) as Hh;
    pose proof (awf_plen _ _ Hn) as Hp;
    cbn [ip4a_insert_rec] in E; unfold ip4a_insert_body in E;
    rewrite (host_mask_awf _ _ Hn) in E; cbn [obind] in E.
  - (* a /32 node is always replaced by a full leaf *)
    rewrite Hp in E.
    change (ip4a_minplen <=? 32 - 4 * Z.of_nat 0) with true in E.
    change (ip4a_maxplen <? u32 (32 - 4 * Z.of_nat 0 + ip4a_bits)) with true in E.
    rewrite orb_true_r in E. cbn [andb] in E. inversion E. subst hp'. clear E.
    destruct (collapse_cov 0 n Hn) as (Hc & Hcv & Ha).
    split; [exact (collapse_awf 0%nat n Hn)|]. split; [exact Hc|].
    split; [exact Ha|]. split; [intros _; exact Hcv|].
    split; intros; left; (split; [lia|exact Hcv]).
  - pose proof (pow_pos h) as HM. pose proof (pow_S h) as HS.
    pose proof (mask_val (S h) Hh) as Hmask.
    set (mask := u32 (Z.shiftr 4294967295 (32 - 4 * Z.of_nat (S h)))) in *.
    set (f' := if f <? addr n then addr n else f) in *.
    set (l' := if Z.lor (addr n) mask <? l then Z.lor (addr n) mask else l) in *.
    match type of E with context [if ?b then Ret (0, collapse _ _, _) else _] =>
      destruct b eqn:Hb
    end.
    { (* the range covers the subnet *)
      inversion E. subst hp'. clear E.
      apply andb_true_iff in Hb. destruct Hb as [Hmin _].
      apply Z.leb_le in Hmin. unfold ip4a_minplen in Hmin.
      destruct (collapse_cov (S h) n Hn) as (Hc & Hcv & Ha). fold mask in Hc, Hcv, Ha.
      split; [exact (collapse_awf (S h) n Hn)|]. split; [exact Hc|].
      split; [exact Ha|]. split; [discriminate|].
      split; intros; left; (split; [lia|exact Hcv]). }
    assert (Hsplen : u32 (plen n + ip4a_bits) = 32 - 4 * Z.of_nat h).
    { rewrite Hp. unfold u32, ip4a_bits. rewrite Z.mod_small; lia. }
    rewrite Hsplen in E.
    assert (Hk : u32 (32 - (32 - 4 * Z.of_nat h)) = 4 * Z.of_nat h).
    { unfold u32. rewrite Z.mod_small; lia. }
    rewrite Hk in E. unfold shr32 in E.
    rewrite (proj2 (Z.leb_le _ _)) in E by lia.
    rewrite (proj2 (Z.ltb_lt _ _)) in E by lia.
    cbn [andb obind] in E.
    change (Z.shiftl 1 ip4a_bits) with 16 in E.
    change (Z.shiftr f' (4 * Z.of_nat h) mod 16) with (nibble h f') in E.
    change (Z.shiftr l' (4 * Z.of_nat h) mod 16) with (nibble h l') in E.
    pose proof (nibble_range h f') as Hfs. pose proof (nibble_range h l') as Hls.
    set (idx := seqZ (nibble h f') (nibble h l' - nibble h f' + 1)) in *.
    destruct (ip4a_insert_loop (ip4a_insert_rec fuel) (32 - 4 * Z.of_nat h) f' l' idx n hp)
      as [[[r n1] h1]|fl] eqn:Hloop; [|discriminate].
    cbn [obind] in E.
    destruct (Z.eqb_spec r 0) as [->|Hr]; [|inversion E; contradiction].
    assert (Hlen : Z.of_nat (length idx) <= 16).
    { unfold idx. rewrite length_seqZ. lia. }
    destruct (loop_cov h (ip4a_insert_rec fuel) f' l'
                (fun c hp0 c' hp0' Hc Hcc Ec =>
                   IH fuel c f' l' hp0 c' hp0' ltac:(lia) Hc Hcc Ec)
                (32 - 4 * Z.of_nat h) idx eq_refl
                (seqZ_range (nibble h f') (nibble h l' - nibble h f' + 1)
                   ltac:(lia) ltac:(lia))
                n hp n1 h1 Hn (cov_kids _ _ Hcov) Hloop)
      as (Hn1 & Hk1 & Ha1 & Hmono1 & Hadd1 & Hcov1).
    pose proof (awf_plen _ _ Hn1) as Hp1.
    (* the count before the aggregation *)
    assert (Hcount : (S h <= 6)%nat ->
                     0 <= coverage n /\ coverage n <= coverage n1 /\
                     u32 (mask + 1) = 2 ^ (4 * Z.of_nat (S h))).
    { intros H6. pose proof (cov_bound _ _ Hcov H6) as Hb0.
      assert (H24 : 2 ^ (4 * Z.of_nat h) <= 2 ^ 24)
        by (apply Z.pow_le_mono_r; lia).
      specialize (Hcov1 ltac:(lia) ltac:(lia) ltac:(nia)).
      split; [lia|]. split; [lia|].
      rewrite Hmask. unfold u32. rewrite Z.mod_small; [lia|].
      change (2 ^ 32) with (256 * 2 ^ 24). nia. }
    (* the addresses of the range go to the slots visited *)
    assert (Hin : forall a, f <= a <= l -> 0 <= a -> addr n = prefix (S h) a ->
                            kid_covered h n1 a).
    { intros a Hrange Ha Haddr.
      pose proof (subnet_range (S h) a) as Hsub.
      assert (Hlor : Z.lor (addr n) mask = prefix (S h) a + 2 ^ (4 * Z.of_nat (S h)) - 1)
        by (rewrite Hmask, Haddr; apply lor_mask).
      assert (Hf' : prefix (S h) a <= f' <= a).
      { unfold f'. rewrite Haddr. destruct (f <? prefix (S h) a) eqn:Ef; [lia|].
        apply Z.ltb_ge in Ef. lia. }
      assert (Hl' : a <= l' <= prefix (S h) a + 2 ^ (4 * Z.of_nat (S h)) - 1).
      { unfold l'. rewrite Hlor.
        destruct (prefix (S h) a + 2 ^ (4 * Z.of_nat (S h)) - 1 <? l) eqn:El; [lia|].
        apply Z.ltb_ge in El. lia. }
      apply Hadd1; [lia|exact Ha|exact Haddr|].
      pose proof (slot_mono h a f' a ltac:(lia) ltac:(lia) ltac:(lia)).
      pose proof (slot_mono h a a l' ltac:(lia) ltac:(lia) ltac:(lia)).
      unfold idx. apply elem_of_seqZ. lia. }
    match type of E with context [if ?b then _ else _] => destruct b eqn:Ht end;
      inversion E; subst hp'; clear E.
    + (* aggregation *)
      apply andb_true_iff in Ht. destruct Ht as [Ht _].
      apply andb_true_iff in Ht. destruct Ht as [Hmin _].
      apply Z.leb_le in Hmin. unfold ip4a_minplen in Hmin.
      destruct (collapse_cov (S h) n1 Hn1) as (Hc & Hcv & Ha). fold mask in Hc, Hcv, Ha.
      subst n'.
      split; [exact (collapse_awf (S h) n1 Hn1)|]. split; [exact Hc|].
      split; [congruence|]. split; [discriminate|].
      split; intros; left; (split; [lia|exact Hcv]).
    + subst n'.
      split; [exact Hn1|]. split.
      { apply cov_intro; [|exact Hk1]. intros H6.
        destruct (Hcount H6) as (H0 & Hle & Hmc).
        rewrite Hp1, Hmc in Ht.
        rewrite (proj2 (Z.leb_le ip4a_minplen _)) in Ht by (unfold ip4a_minplen; lia).
        rewrite (proj2 (Z.ltb_lt 0 _)) in Ht by lia.
        cbn [andb] in Ht. apply Z.leb_gt in Ht. lia. }
      split; [exact Ha1|]. split; [discriminate|]. split.
      * intros a Hc. destruct (covered_cases _ _ _ Hc) as [[H6 Hfull]|Hkid].
        -- exfalso. destruct (Hcount H6) as (H0 & Hle & Hmc).
           rewrite Hp1, Hmc in Ht.
           rewrite (proj2 (Z.leb_le ip4a_minplen _)) in Ht by (unfold ip4a_minplen; lia).
           rewrite (proj2 (Z.ltb_lt 0 _)) in Ht by lia.
           cbn [andb] in Ht. apply Z.leb_gt in Ht. lia.
        -- apply covered_kid, Hmono1, Hkid.
      * intros a Hrange Ha Haddr. apply covered_kid, Hin; assumption.
Qed.

Lemma reachable_cov n : reachable n -> awf 8 n /\ cov 8 n /\ addr n = 0.
Proof.
  induction 1 as [h n h' Hnew | n first last h n' h' Hr IH Hins].
  - split; [exact (new_awf _ _ _ Hnew)|].
    unfold ip4a_new in Hnew.
    destruct (calloc h) as [[|] h1]; inversion Hnew; subst.
    split; [|reflexivity]. apply cov_intro; [lia|].
    intros i c Hi. destruct (no_child_in_replicate _ _ Hi).
  - destruct IH as (Hn & Hc & Ha). unfold ip4a_insert in Hins.
    destruct (insert_cov 8 depth_fuel n (u32 first) (u32 last) h n' h'
                ltac:(unfold depth_fuel; lia) Hn Hc Hins)
      as (Hn' & Hc' & Ha' & _).
    split; [exact Hn'|]. split; [exact Hc'|]. congruence.
Qed.

(** A run of successful insertions: what was under a filled node stays
    under one, and every address of every range inserted is under one. *)
Lemma insert_all_covered rs : forall n hp n' hp',
  awf 8 n -> cov 8 n -> addr n = 0 ->
  insert_all n rs hp = Some (n', hp') ->
  (awf 8 n' /\ cov 8 n' /\ addr n' = 0) /\
  (forall a, covered 8 n a -> covered 8 n' a) /\
  (forall f l a, (f, l) ∈ rs -> 0 <= f -> f <= a <= l -> l < 2 ^ 32 ->
                 covered 8 n' a).
Proof.
  induction rs as [|[f0 l0] rs IH]; intros n hp n' hp' Hn Hc Ha E.
  - cbn [insert_all] in E. inversion E. subst n' hp'.
    split; [auto|]. split; [auto|].
    intros f l a Hin. apply elem_of_nil in Hin. destruct Hin.
  - cbn [insert_all] in E.
    destruct (ip4a_insert n f0 l0 hp) as [[[r n1] h1]|fl] eqn:E1; [|discriminate].
    destruct r; try discriminate.
    unfold ip4a_insert in E1.
    destruct (insert_cov 8 depth_fuel n (u32 f0) (u32 l0) hp n1 h1
                ltac:(unfold depth_fuel; lia) Hn Hc E1)
      as (Hn1 & Hc1 & Ha1 & _ & Hmono1 & Hadd1).
    destruct (IH n1 h1 n' hp' Hn1 Hc1 ltac:(congruence) E)
      as (Hwf' & Hmono' & Hadd').
    split; [exact Hwf'|]. split; [auto|].
    intros f l a Hin Hf Hrange Hl. apply elem_of_cons in Hin.
    destruct Hin as [Hin|Hin]; [|exact (Hadd' f l a Hin Hf Hrange Hl)].
    inversion Hin. subst f0 l0. apply Hmono'. apply Hadd1.
    + unfold u32. rewrite !Z.mod_small by lia. exact Hrange.
    + lia.
    + rewrite Ha. symmetry. apply prefix_8. lia.
Qed.

(** ** Insertions that fail *)

Lemma sfe_kids h n i c :
  sfe (S h) n -> sub n !! i = Some (Some c) -> (h = O -> coverage c = 1) /\ sfe h c.
Proof. intros Hs. exact (Hs i c). Qed.

Lemma sfe_no_kids h n : sub n = replicate nsub None -> sfe h n.
Proof.
  intros Hs. destruct h as [|h]; cbn [sfe]; [exact I|].
  intros i c Hi. rewrite Hs in Hi. destruct (no_child_in_replicate _ _ Hi).
Qed.

Lemma collapse_sfe h m n : awf h n -> sfe h (collapse m n).
Proof.
  intros Hn. apply sfe_no_kids.
  unfold collapse, set_coverage, set_leaf. cbn [sub].
  apply delete_sub. exact (awf_length _ _ Hn).
Qed.

(** [ip4a_lookup] meets no undefined shift and no missing slot, also
    after insertions that failed. *)
Lemma lookup_safe h : forall fuel n a,
  (h < fuel)%nat -> awf h n -> sfe h n -> (h = O -> coverage n = 1) ->
  ip4a_lookup_rec fuel n a = Ret 0 \/ ip4a_lookup_rec fuel n a = Ret 1.
Proof.
  induction h as [|h IH]; intros fuel n a Hfuel Hn Hs H0;
    (destruct fuel as [|fuel]; [lia|]).
  - apply lookup_leaf; auto.
  - rewrite (lookup_step h fuel n a Hn).
    destruct ((addr n <=? a) && _); [|left; reflexivity].
    destruct (coverage n =? _); [right; reflexivity|].
    pose proof (awf_length _ _ Hn) as Hl. rewrite nsub_16 in Hl.
    pose proof (nibble_range h a) as Hnib.
    destruct (lookup_lt_is_Some_2 (sub n) (Z.to_nat (nibble h a))) as [slot Hslot];
      [lia|].
    rewrite Hslot. destruct slot as [sn|]; [|left; reflexivity].
    destruct (sfe_kids _ _ _ _ Hs Hslot) as (Hc1 & Hcs).
    apply IH; [lia|exact (awf_child _ _ _ _ Hn Hslot)|exact Hcs|exact Hc1].
Qed.

Lemma trace_none hp : trace 0 hp hp.
Proof. exists 0%nat. split; [reflexivity|]. left. split; [reflexivity|]. intros i Hi. lia. Qed.

Lemma trace_refused hp : fst (calloc hp) = false -> trace (-1) hp (snd (calloc hp)).
Proof.
  intros Hc. exists 1%nat. split.
  - destruct hp as [|b hp]; reflexivity.
  - right. split; [reflexivity|]. split; [lia|]. split; [intros i Hi; lia|].
    destruct hp as [|[|] hp]; cbn in *; congruence.
Qed.

Lemma trace_granted r hp h2 : trace r hp h2 -> trace r (true :: hp) h2.
Proof.
  intros (k & Hd & Hk). exists (S k). split; [exact Hd|].
  destruct Hk as [[Hr Hall]|(Hr & Hpos & Hall & Hlast)].
  - left. split; [exact Hr|]. intros [|i] Hi; [reflexivity|]. apply Hall. lia.
  - right. split; [exact Hr|]. split; [lia|]. split.
    + intros [|i] Hi; [reflexivity|]. apply Hall. lia.
    + replace (S k - 1)%nat with (S (k - 1)) by lia. exact Hlast.
Qed.

Lemma trace_then r hp h1 h2 : trace 0 hp h1 -> trace r h1 h2 -> trace r hp h2.
Proof.
  intros (k1 & Hd1 & H1) (k2 & Hd2 & H2).
  destruct H1 as [[_ Hall1]|[Hr _]]; [|discriminate].
  exists (k1 + k2)%nat. subst h1 h2. split; [apply drop_drop|].
  assert (Hlk : forall i, drop k1 hp !! i = hp !! (k1 + i)%nat)
    by (intros i; apply lookup_drop).
  destruct H2 as [[Hr Hall2]|(Hr & Hpos & Hall2 & Hlast)].
  - left. split; [exact Hr|]. intros i Hi.
    destruct (decide (i < k1)%nat) as [Hlt|Hge]; [apply Hall1; exact Hlt|].
    replace i with (k1 + (i - k1))%nat by lia. rewrite <- Hlk. apply Hall2. lia.
  - right. split; [exact Hr|]. split; [lia|]. split.
    + intros i Hi.
      destruct (decide (i < k1)%nat) as [Hlt|Hge]; [apply Hall1; exact Hlt|].
      replace i with (k1 + (i - k1))%nat by lia. rewrite <- Hlk. apply Hall2. lia.
    + replace (k1 + k2 - 1)%nat with (k1 + (k2 - 1))%nat by lia.
      rewrite <- Hlk. exact Hlast.
Qed.

Section InsertAny.

Variable h : nat.
Variable rec : ip4a_node -> Z -> Z -> heap -> outcome insert_result.
Variables first last : Z.
Hypothesis rec_any :
  forall c hp r c' hp',
    awf h c -> sfe h c -> rec c first last hp = Ret (r, c', hp') ->
    awf h c' /\ sfe h c' /\ (h = O -> coverage c' = 1) /\ trace r hp hp'.

(** The node after one round of the loop. *)
Lemma step_any n i sn' n2 :
  awf (S h) n -> sfe (S h) n -> (i < 16)%nat ->
  awf h sn' -> sfe h sn' -> (h = O -> coverage sn' = 1) ->
  plen n2 = plen n -> leaf n2 = false ->
  length (sub n2) = nsub ->
  sub n2 !! i = Some (Some sn') ->
  (forall j, j <> i -> sub n2 !! j = sub n !! j) ->
  awf (S h) n2 /\ sfe (S h) n2.
Proof.
  intros Hn Hs Hi Hw' Hs' H1' Hp2 Hl2 Hlen Hat Hoth. split.
  - apply awf_intro.
    + exact (awf_height _ _ Hn).
    + rewrite Hp2. exact (awf_plen _ _ Hn).
    + exact Hlen.
    + rewrite Hl2. discriminate.
    + intros j c Hj. exists h. split; [reflexivity|].
      destruct (decide (j = i)) as [->|Hne].
      * rewrite Hat in Hj. inversion Hj. subst c. exact Hw'.
      * rewrite (Hoth _ Hne) in Hj. exact (awf_child _ _ _ _ Hn Hj).
    + discriminate.
  - intros j c Hj. destruct (decide (j = i)) as [->|Hne].
    + rewrite Hat in Hj. inversion Hj. subst c. auto.
    + rewrite (Hoth _ Hne) in Hj. exact (sfe_kids _ _ _ _ Hs Hj).
Qed.

Lemma loop_any splen idx :
  splen = 32 - 4 * Z.of_nat h ->
  Forall (fun i => 0 <= i < 16) idx ->
  forall n hp r n' hp',
    awf (S h) n -> sfe (S h) n ->
    ip4a_insert_loop rec splen first last idx n hp = Ret (r, n', hp') ->
    awf (S h) n' /\ sfe (S h) n' /\ trace r hp hp'.
Proof.
  intros Hsplen Hidx. induction Hidx as [|i idx Hi Hidx IH];
    intros n hp r n' hp' Hn Hs E.
  - cbn [ip4a_insert_loop] in E. inversion E. subst r n' hp'.
    split; [exact Hn|]. split; [exact Hs|apply trace_none].
  - pose proof (awf_height _ _ Hn) as Hh.
    pose proof (awf_length _ _ Hn) as Hl. rewrite nsub_16 in Hl.
    cbn [ip4a_insert_loop] in E.
    destruct (lookup_lt_is_Some_2 (sub n) (Z.to_nat i)) as [slot Hslot]; [lia|].
    rewrite Hslot in E. destruct slot as [sn|].
    + (* the child exists *)
      cbn [obind] in E.
      destruct (rec sn first last hp) as [[[r1 sn'] h2]|fl] eqn:Hrec; [|discriminate].
      cbn [obind] in E.
      destruct (sfe_kids _ _ _ _ Hs Hslot) as (_ & Hss).
      destruct (rec_any sn hp r1 sn' h2 (awf_child _ _ _ _ Hn Hslot) Hss Hrec)
        as (Hw' & Hs' & H1' & Ht).
      assert (Hlf : leaf n = false).
      { destruct (leaf n) eqn:Elf; [|reflexivity].
        destruct (awf_leaf _ _ Hn Elf) as [_ Hsub]. rewrite Hsub in Hslot.
        apply lookup_replicate in Hslot. destruct Hslot; discriminate. }
      set (n2 := set_coverage (u64 (coverage n + coverage sn'))
                   (set_sub (<[Z.to_nat i := Some sn']> (sub n)) n)) in *.
      destruct (step_any n (Z.to_nat i) sn' n2 Hn Hs ltac:(lia) Hw' Hs' H1')
        as (Hn2 & Hs2).
      { reflexivity. }
      { exact Hlf. }
      { unfold n2. cbn [sub set_coverage set_sub]. rewrite length_insert, nsub_16.
        exact Hl. }
      { unfold n2. cbn [sub set_coverage set_sub].
        apply list_lookup_insert_eq. lia. }
      { intros j Hj. unfold n2. cbn [sub set_coverage set_sub].
        apply list_lookup_insert_ne. congruence. }
      destruct (Z.eqb_spec r1 0) as [->|Hr].
      * destruct (IH n2 h2 r n' hp' Hn2 Hs2 E) as (Hn' & Hs'' & Ht').
        split; [exact Hn'|]. split; [exact Hs''|].
        exact (trace_then _ _ _ _ Ht Ht').
      * inversion E. subst r n' hp'. auto.
    + (* the child is created *)
      destruct hp as [|[|] hp0]; cbn [calloc obind snd] in E.
      * inversion E. subst r n' hp'. split; [exact Hn|]. split; [exact Hs|].
        exact (trace_refused [] eq_refl).
      * unfold shl32 in E.
        assert (Hk32 : u32 (32 - splen) = 4 * Z.of_nat h).
        { subst splen. unfold u32. rewrite Z.mod_small; lia. }
        rewrite Hk32 in E.
        rewrite (proj2 (Z.leb_le _ _)) in E by lia.
        rewrite (proj2 (Z.ltb_lt _ _)) in E by lia.
        cbn [andb obind] in E.
        assert (Hu8 : u8 splen = 32 - 4 * Z.of_nat h).
        { subst splen. unfold u8. rewrite Z.mod_small; lia. }
        rewrite Hu8 in E.
        match type of E with context [rec ?sn _ _ _] =>
          destruct (rec sn first last hp0) as [[[r1 sn'] h2]|fl] eqn:Hrec;
            [|discriminate];
          destruct (rec_any sn hp0 r1 sn' h2 (fresh_child_awf h _ ltac:(lia))
                      (sfe_no_kids h sn eq_refl) Hrec)
            as (Hw' & Hs' & H1' & Ht)
        end.
        cbn [obind] in E.
        match type of E with context [u64 (coverage ?n1 + coverage sn')] =>
          set (n2 := set_coverage (u64 (coverage n1 + coverage sn'))
                       (set_sub (<[Z.to_nat i := Some sn']> (sub n1)) n1)) in *
        end.
        destruct (step_any n (Z.to_nat i) sn' n2 Hn Hs ltac:(lia) Hw' Hs' H1')
          as (Hn2 & Hs2).
        { reflexivity. }
        { reflexivity. }
        { unfold n2. cbn [sub set_coverage set_sub set_leaf].
          rewrite !length_insert, nsub_16. exact Hl. }
        { unfold n2. cbn [sub set_coverage set_sub set_leaf].
          apply list_lookup_insert_eq. rewrite length_insert. lia. }
        { intros j Hj. unfold n2. cbn [sub set_coverage set_sub set_leaf].
          rewrite !list_lookup_insert_ne by congruence. reflexivity. }
        destruct (Z.eqb_spec r1 0) as [->|Hr].
        -- destruct (IH n2 h2 r n' hp' Hn2 Hs2 E) as (Hn' & Hs'' & Ht').
           split; [exact Hn'|]. split; [exact Hs''|].
           apply trace_granted. exact (trace_then _ _ _ _ Ht Ht').
        -- inversion E. subst r n' hp'. split; [exact Hn2|]. split; [exact Hs2|].
           apply trace_granted. exact Ht.
      * inversion E. subst r n' hp'. split; [exact Hn|]. split; [exact Hs|].
        exact (trace_refused (false :: hp0) eq_refl).
Qed.

End InsertAny.

(** Whatever [ip4a_insert] returns, the tree stays well formed, every
    /32 node counts its address, and the result tells whether an
    allocation was refused. *)
Lemma insert_any h : forall fuel n f l hp r n' hp',
  (h < fuel)%nat -> awf h n -> sfe h n ->
  ip4a_insert_rec fuel n f l hp = Ret (r, n', hp') ->
  awf h n' /\ sfe h n' /\ (h = O -> coverage n' = 1) /\ trace r hp hp'.
Proof.
  induction h as [|h IH]; intros fuel n f l hp r n' hp' Hfuel Hn Hs E;
    (destruct fuel as [|fuel]; [lia|]);
    pose proof (awf_height _ _ Hn) as Hh;
    pose proof (awf_plen _ _ Hn) as Hp;
    cbn [ip4a_insert_rec] in E; unfold ip4a_insert_body in E;
    rewrite (host_mask_awf _ _ Hn) in E; cbn [obind] in E.
  - rewrite Hp in E.
    change (ip4a_minplen <=? 32 - 4 * Z.of_nat 0) with true in E.
    change (ip4a_maxplen <? u32 (32 - 4 * Z.of_nat 0 + ip4a_bits)) with true in E.
    rewrite orb_true_r in E. cbn [andb] in E. injection E as <- <- <-.
    destruct (collapse_cov 0 n Hn) as (_ & Hcv & _).
    split; [exact (collapse_awf 0%nat n Hn)|]. split; [exact I|].
    split; [intros _; exact Hcv|apply trace_none].
  - match type of E with context [if ?b then Ret (0, collapse _ _, _) else _] =>
      destruct b
    end.
    { injection E as <- <- <-.
      split; [exact (collapse_awf (S h) n Hn)|].
      split; [apply collapse_sfe; exact Hn|].
      split; [discriminate|apply trace_none]. }
    assert (Hsplen : u32 (plen n + ip4a_bits) = 32 - 4 * Z.of_nat h).
    { rewrite Hp. unfold u32, ip4a_bits. rewrite Z.mod_small; lia. }
    rewrite Hsplen in E.
    assert (Hk : u32 (32 - (32 - 4 * Z.of_nat h)) = 4 * Z.of_nat h).
    { unfold u32. rewrite Z.mod_small; lia. }
    rewrite Hk in E. unfold shr32 in E.
    rewrite (proj2 (Z.leb_le _ _)) in E by lia.
    rewrite (proj2 (Z.ltb_lt _ _)) in E by lia.
    cbn [andb obind] in E.
    change (Z.shiftl 1 ip4a_bits) with 16 in E.
    match type of E with
      context [ip4a_insert_loop _ _ ?f' ?l' (seqZ ?a ?len) _ _] =>
      destruct (ip4a_insert_loop (ip4a_insert_rec fuel) (32 - 4 * Z.of_nat h)
                  f' l' (seqZ a len) n hp) as [[[r1 n1] h1]|fl] eqn:Hloop;
        [|discriminate];
      destruct (loop_any h (ip4a_insert_rec fuel) f' l'
                  (fun c hp0 r0 c' hp0' Hc Hcs Ec =>
                     IH fuel c f' l' hp0 r0 c' hp0' ltac:(lia) Hc Hcs Ec)
                  (32 - 4 * Z.of_nat h) (seqZ a len) eq_refl
                  (seqZ_range a len
                     ltac:(apply Z.mod_pos_bound; lia)
                     ltac:(pose proof (Z.mod_pos_bound (Z.shiftr l' (4 * Z.of_nat h)) 16);
                           lia))
                  n hp r1 n1 h1 Hn Hs Hloop)
        as (Hn1 & Hs1 & Ht1)
    end.
    cbn [obind] in E.
    destruct (Z.eqb_spec r1 0) as [->|Hr].
    + match type of E with context [if ?b then _ else _] => destruct b end;
        injection E as <- <- <-.
      * split; [exact (collapse_awf (S h) n1 Hn1)|].
        split; [apply collapse_sfe; exact Hn1|].
        split; [discriminate|exact Ht1].
      * split; [exact Hn1|]. split; [exact Hs1|]. split; [discriminate|exact Ht1].
    + injection E as <- <- <-.
      split; [exact Hn1|]. split; [exact Hs1|]. split; [discriminate|exact Ht1].
Qed.

Lemma built_safe n : built n -> awf 8 n /\ sfe 8 n.
Proof.
  induction 1 as [h n h' Hnew | n first last h r n' h' Hb IH Hins].
  - split; [exact (new_awf _ _ _ Hnew)|].
    unfold ip4a_new in Hnew.
    destruct (calloc h) as [[|] h1]; inversion Hnew; subst.
    apply sfe_no_kids. reflexivity.
  - destruct IH as (Hn & Hs). unfold ip4a_insert in Hins.
    destruct (insert_any 8 depth_fuel n (u32 first) (u32 last) h r n' h'
                ltac:(unfold depth_fuel; lia) Hn Hs Hins)
      as (Hn' & Hs' & _). auto.
Qed.

Lemma reachable_built n : reachable n -> built n.
Proof.
  induction 1 as [h n h' Hnew | n first last h n' h' _ IH Hins].
  - exact (built_new _ _ _ Hnew).
  - exact (built_insert _ _ _ _ _ _ _ IH Hins).
Qed.

(** X14.  [ip4a_lookup] is safe on every tree built by [ip4a_new] and
    insertions, whether they succeeded or failed for want of memory:
    for every address it returns 0 or 1; it never shifts by an undefined
    amount (as it would at a /32 node that is not counted as covered)
    and never reads a slot that is not there. *)
Theorem X14_lookup_returns_zero_or_one n a :
  built n ->
  ip4a_lookup n a = Ret 0 \/ ip4a_lookup n a = Ret 1.
Proof.
  intros Hb. destruct (built_safe n Hb) as (Hn & Hs).
  unfold ip4a_lookup.
  apply (lookup_safe 8 depth_fuel n (u32 a)); try assumption.
  - unfold depth_fuel. lia.
  - discriminate.
Qed.

(** X19.  [ip4a_insert] fails only for want of memory.  On every tree
    built by [ip4a_new] and insertions, successful or not, it returns:
    with 0 after allocations that were all granted, or with -1 right
    after an allocation that was refused; and the tree it leaves is
    again such a tree, with every leaf empty or full. *)
Theorem X19_insert_fails_only_without_memory n f l hp :
  built n ->
  exists r n' hp',
    ip4a_insert n f l hp = Ret (r, n', hp') /\
    trace r hp hp' /\ built n' /\ awf 8 n'.
Proof.
  intros Hb. destruct (built_safe n Hb) as (Hn & Hs).
  destruct (insert_awf 8 depth_fuel n (u32 f) (u32 l) hp
              ltac:(unfold depth_fuel; lia) Hn) as (r & n' & hp' & E & Hn').
  exists r, n', hp'. split; [exact E|].
  destruct (insert_any 8 depth_fuel n (u32 f) (u32 l) hp r n' hp'
              ltac:(unfold depth_fuel; lia) Hn Hs E) as (_ & _ & _ & Ht).
  split; [exact Ht|]. split; [|exact Hn'].
  exact (built_insert n f l hp r n' hp' Hb E).
Qed.

(** X15.  No inserted address is lost: after any run of successful
    insertions into a tree built by [ip4a_new] and successful
    insertions, [ip4a_lookup] returns 1 for every address of every range
    of the run, whatever was inserted before, between and after. *)
Theorem X15_inserted_addresses_are_found n rs hp n' hp' f l a :
  reachable n ->
  insert_all n rs hp = Some (n', hp') ->
  (f, l) ∈ rs -> 0 <= f -> f <= a <= l -> l < 2 ^ 32 ->
  ip4a_lookup n' a = Ret 1.
Proof.
  intros Hr E Hin Hf Hrange Hl.
  destruct (reachable_cov n Hr) as (Hn & Hc & Ha).
  destruct (insert_all_covered rs n hp n' hp' Hn Hc Ha E)
    as ((Hn' & Hc' & Ha') & _ & Hadd).
  unfold ip4a_lookup.
  assert (Hu : u32 a = a) by (unfold u32; apply Z.mod_small; lia).
  rewrite Hu.
  apply (lookup_covered 8 depth_fuel n' a).
  - unfold depth_fuel. lia.
  - exact Hn'.
  - exact Hc'.
  - lia.
  - rewrite Ha'. symmetry. apply prefix_8. lia.
  - exact (Hadd f l a Hin Hf Hrange Hl).
Qed.

(** ** The first insertion *)

Lemma lor_add x y k :
  0 <= k -> x mod 2 ^ k = 0 -> 0 <= y < 2 ^ k -> Z.lor x y = x + y.
Proof.
  intros Hk Hx Hy.
  assert (Hland : Z.land x y = 0).
  { rewrite <- (Z.mod_small y (2 ^ k)) by lia.
    rewrite <- (Z.land_ones y k) by lia.
    rewrite Z.land_assoc, (Z.land_comm x y), <- Z.land_assoc.
    rewrite (Z.land_ones x k) by lia. rewrite Hx. apply Z.land_0_r. }
  rewrite <- (Z.lxor_lor _ _ Hland). symmetry. apply Z.add_nocarry_lxor. exact Hland.
Qed.

Lemma prefix_aligned h x : x mod 2 ^ (4 * Z.of_nat h) = 0 -> prefix h x = x.
Proof.
  intros Hx. rewrite prefix_div. pose proof (pow_pos h) as HM.
  pose proof (Z.div_mod x (2 ^ (4 * Z.of_nat h)) ltac:(lia)). lia.
Qed.

Lemma aligned_below h x : x mod 2 ^ (4 * Z.of_nat (S h)) = 0 -> x mod 2 ^ (4 * Z.of_nat h) = 0.
Proof.
  rewrite pow_S. pose proof (pow_pos h) as HM. intros Hx.
  apply Z.mod_divide in Hx; [|lia]. apply Z.mod_divide; [lia|].
  destruct Hx as [q Hq]. exists (q * 16). lia.
Qed.

Lemma aligned_slot h x i :
  x mod 2 ^ (4 * Z.of_nat h) = 0 -> (x + i * 2 ^ (4 * Z.of_nat h)) mod 2 ^ (4 * Z.of_nat h) = 0.
Proof.
  intros Hx. pose proof (pow_pos h) as HM.
  rewrite Z.mod_add by lia. exact Hx.
Qed.

(** The slot of an address in a subnet, and the subnet of the slot. *)
Lemma slot_bounds h a b :
  prefix (S h) a <= b <= prefix (S h) a + 2 ^ (4 * Z.of_nat (S h)) - 1 ->
  0 <= nibble h b < 16 /\
  prefix h b = prefix (S h) a + nibble h b * 2 ^ (4 * Z.of_nat h) /\
  prefix (S h) a + nibble h b * 2 ^ (4 * Z.of_nat h) <= b
    < prefix (S h) a + (nibble h b + 1) * 2 ^ (4 * Z.of_nat h).
Proof.
  intros Hb. pose proof (nibble_range h b) as Hn. split; [exact Hn|].
  pose proof (slot_of h a b Hb) as Hs.
  pose proof (subnet_range h b) as Hr.
  rewrite (prefix_div h b) in *. rewrite (prefix_div (S h) a) in *.
  rewrite pow_S in *. pose proof (pow_pos h) as HM.
  set (M := 2 ^ (4 * Z.of_nat h)) in *.
  set (q := a / (16 * M)) in *. set (p := b / M) in *.
  split; nia.
Qed.

Lemma isize_split f l x a b :
  0 <= a -> 0 <= b -> isize f l x a + isize f l (x + a) b = isize f l x (a + b).
Proof. unfold isize. lia. Qed.

Lemma isize_bounds f l x m : 0 <= m -> 0 <= isize f l x m <= m.
Proof. unfold isize. lia. Qed.

Section ExactLoop.

Variable h : nat.
Variable rec : ip4a_node -> Z -> Z -> heap -> outcome insert_result.
Variables first last x : Z.
Hypothesis Hh : (h <= 7)%nat.
Hypothesis Hx : x mod 2 ^ (4 * Z.of_nat (S h)) = 0.
Hypothesis rec_exact :
  forall i hp c' hp',
    0 <= i < 16 ->
    Z.max first (x + i * 2 ^ (4 * Z.of_nat h))
      <= Z.min last (x + i * 2 ^ (4 * Z.of_nat h) + 2 ^ (4 * Z.of_nat h) - 1) ->
    rec (fresh_node h (x + i * 2 ^ (4 * Z.of_nat h))) first last hp = Ret (0, c', hp') ->
    awf h c' /\ addr c' = x + i * 2 ^ (4 * Z.of_nat h) /\ exact h first last c'.

(** The loop over the slots [i0 .. i0 + m - 1], none of which holds a
    child yet. *)
Lemma loop_exact (m : nat) : forall i0 n hp n1 hp1,
  0 <= i0 -> i0 + Z.of_nat m <= 16 ->
  addr n = x -> length (sub n) = nsub ->
  (forall j, i0 <= j < 16 -> sub n !! Z.to_nat j = Some None) ->
  (forall i, i0 <= i < i0 + Z.of_nat m ->
     Z.max first (x + i * 2 ^ (4 * Z.of_nat h))
       <= Z.min last (x + i * 2 ^ (4 * Z.of_nat h) + 2 ^ (4 * Z.of_nat h) - 1)) ->
  0 <= coverage n ->
  coverage n + Z.of_nat m * 2 ^ (4 * Z.of_nat h) <= 2 ^ 33 ->
  ip4a_insert_loop rec (32 - 4 * Z.of_nat h) first last (seqZ i0 (Z.of_nat m)) n hp
  = Ret (0, n1, hp1) ->
  coverage n1 = coverage n +
                isize first last (x + i0 * 2 ^ (4 * Z.of_nat h))
                      (Z.of_nat m * 2 ^ (4 * Z.of_nat h)) /\
  addr n1 = x /\ plen n1 = plen n /\ length (sub n1) = nsub /\
  (forall j, 0 <= j -> j < i0 \/ i0 + Z.of_nat m <= j ->
             sub n1 !! Z.to_nat j = sub n !! Z.to_nat j) /\
  (forall j, i0 <= j < i0 + Z.of_nat m ->
     exists c', sub n1 !! Z.to_nat j = Some (Some c') /\ awf h c' /\
                addr c' = x + j * 2 ^ (4 * Z.of_nat h) /\ exact h first last c').
Proof.
  pose proof (pow_pos h) as HM.
  assert (HM28 : 2 ^ (4 * Z.of_nat h) <= 2 ^ 28) by (apply Z.pow_le_mono_r; lia).
  induction m as [|m IH]; intros i0 n hp n1 hp1 Hi0 Him Ha Hl Hnone Hne Hc Hcb E.
  - cbn [Z.of_nat seqZ] in E. rewrite seqZ_nil in E by lia.
    cbn [ip4a_insert_loop] in E. inversion E. subst n1 hp1.
    split; [unfold isize; lia|]. split; [exact Ha|]. split; [reflexivity|].
    split; [exact Hl|]. split; [reflexivity|]. intros j Hj. lia.
  - rewrite seqZ_cons in E by lia.
    replace (Z.pred (Z.of_nat (S m))) with (Z.of_nat m) in E by lia.
    cbn [ip4a_insert_loop] in E.
    rewrite (Hnone i0 ltac:(lia)) in E.
    destruct hp as [|[|] hp0]; cbn [calloc obind snd] in E; try discriminate.
    unfold shl32 in E.
    assert (Hk32 : u32 (32 - (32 - 4 * Z.of_nat h)) = 4 * Z.of_nat h).
    { unfold u32. rewrite Z.mod_small; lia. }
    rewrite Hk32 in E.
    rewrite (proj2 (Z.leb_le _ _)) in E by lia.
    rewrite (proj2 (Z.ltb_lt _ _)) in E by lia.
    cbn [andb obind] in E.
    assert (Hu8 : u8 (32 - 4 * Z.of_nat h) = 32 - 4 * Z.of_nat h).
    { unfold u8. rewrite Z.mod_small; lia. }
    rewrite Hu8 in E. rewrite (shifted_slot_u32 h i0) in E by lia.
    assert (Hlor : Z.lor (addr n) (Z.shiftl i0 (4 * Z.of_nat h))
                   = x + i0 * 2 ^ (4 * Z.of_nat h)).
    { rewrite Ha, Z.shiftl_mul_pow2 by lia.
      apply (lor_add _ _ (4 * Z.of_nat (S h))); [lia|exact Hx|].
      rewrite pow_S. nia. }
    rewrite Hlor in E.
    change (Ip4aNode (x + i0 * 2 ^ (4 * Z.of_nat h)) (32 - 4 * Z.of_nat h) true 0
                     (replicate nsub None))
      with (fresh_node h (x + i0 * 2 ^ (4 * Z.of_nat h))) in E.
    set (sn := fresh_node h (x + i0 * 2 ^ (4 * Z.of_nat h))) in *.
    destruct (rec sn first last hp0) as [[[r sn'] h2]|fl] eqn:Hrec; [|discriminate].
    cbn [obind] in E.
    destruct (Z.eqb_spec r 0) as [->|Hr]; [|inversion E; contradiction].
    destruct (rec_exact i0 hp0 sn' h2 ltac:(lia) (Hne i0 ltac:(lia)) Hrec)
      as (Hw' & Ha' & Hex').
    set (n1' := set_leaf false (set_sub (<[Z.to_nat i0 := Some sn]> (sub n)) n)) in *.
    set (n2 := set_coverage (u64 (coverage n1' + coverage sn'))
                 (set_sub (<[Z.to_nat i0 := Some sn']> (sub n1')) n1')) in *.
    assert (Hs2 : forall j, sub n2 !! j =
                    <[Z.to_nat i0 := Some sn']> (sub n) !! j).
    { intros j. unfold n2, n1'. cbn [sub set_coverage set_sub set_leaf].
      destruct (decide (j = Z.to_nat i0)) as [->|Hj].
      - rewrite !list_lookup_insert_eq; [reflexivity| |rewrite length_insert];
          rewrite Hl, nsub_16; lia.
      - rewrite !list_lookup_insert_ne by congruence. reflexivity. }
    pose proof (isize_bounds first last (x + i0 * 2 ^ (4 * Z.of_nat h))
                  (2 ^ (4 * Z.of_nat h)) ltac:(lia)) as Hib.
    assert (Hc2 : coverage n2 = coverage n +
                    isize first last (x + i0 * 2 ^ (4 * Z.of_nat h))
                          (2 ^ (4 * Z.of_nat h))).
    { unfold n2, n1'. cbn [coverage set_coverage set_sub set_leaf].
      rewrite (proj1 Hex'), Ha'. unfold u64. apply Z.mod_small.
      rewrite Nat2Z.inj_succ in Hcb.
      change (2 ^ 64) with (2 ^ 33 * 2 ^ 31). nia. }
    destruct (IH (i0 + 1) n2 h2 n1 hp1) as (Hcn & Han & Hpn & Hln & Hout & Hin).
    + lia.
    + lia.
    + exact Ha.
    + unfold n2, n1'. cbn [sub set_coverage set_sub set_leaf].
      rewrite !length_insert. exact Hl.
    + intros j Hj. rewrite Hs2.
      rewrite list_lookup_insert_ne by lia. apply Hnone. lia.
    + intros i Hi. apply Hne. lia.
    + lia.
    + rewrite Nat2Z.inj_succ in Hcb. nia.
    + exact E.
    + split.
      { rewrite Hcn, Hc2, <- Z.add_assoc. f_equal.
        rewrite Nat2Z.inj_succ.
        replace (Z.succ (Z.of_nat m) * 2 ^ (4 * Z.of_nat h))
          with (2 ^ (4 * Z.of_nat h) + Z.of_nat m * 2 ^ (4 * Z.of_nat h)) by lia.
        rewrite <- isize_split by nia. f_equal. f_equal. lia. }
      split; [exact Han|]. split; [exact Hpn|]. split; [exact Hln|]. split.
      * intros j Hj0 Hj. rewrite Hout by lia. rewrite Hs2.
        apply list_lookup_insert_ne. lia.
      * intros j Hj. destruct (Z.eq_dec j i0) as [->|Hne0].
        -- exists sn'. rewrite Hout by lia. rewrite Hs2.
           rewrite list_lookup_insert_eq by (rewrite Hl, nsub_16; lia). auto.
        -- apply Hin. lia.
Qed.

End ExactLoop.

Lemma found_clip f l x m a :
  x <= a <= x + m - 1 ->
  found (Z.max f x) (Z.min l (x + m - 1)) a = found f l a.
Proof.
  intros Ha. unfold found.
  destruct (Z.leb_spec (Z.max f x) a), (Z.leb_spec a (Z.min l (x + m - 1))),
           (Z.leb_spec f a), (Z.leb_spec a l); cbn [andb]; try reflexivity; lia.
Qed.

(** The insertion of a range into a node just allocated, whose subnet
    holds an address of the range. *)
Lemma insert_exact h : forall fuel x f l hp n' hp',
  (h < fuel)%nat -> (h <= 8)%nat -> 0 <= x -> x mod 2 ^ (4 * Z.of_nat h) = 0 ->
  Z.max f x <= Z.min l (x + 2 ^ (4 * Z.of_nat h) - 1) ->
  ip4a_insert_rec fuel (fresh_node h x) f l hp = Ret (0, n', hp') ->
  awf h n' /\ addr n' = x /\ exact h f l n'.
Proof.
  induction h as [|h IH]; intros fuel x f l hp n' hp' Hfuel Hh Hx0 Hx Hne E.
  - destruct (insert_cov 0 fuel (fresh_node 0 x) f l hp n' hp' Hfuel
                (fresh_child_awf 0 x Hh) (fresh_cov 0 x) E)
      as (Hn' & _ & Ha' & Hc1 & _).
    specialize (Hc1 eq_refl). cbn [addr fresh_node] in Ha'.
    change (2 ^ (4 * Z.of_nat 0)) with 1 in *.
    split; [exact Hn'|]. split; [exact Ha'|]. split.
    + rewrite Hc1, Ha'. unfold isize. lia.
    + intros fuel0 a Hf0 Ha Hpa. destruct fuel0 as [|fuel0]; [lia|].
      rewrite prefix_0 in Hpa. subst a.
      cbn [ip4a_lookup_rec]. rewrite (host_mask_awf _ _ Hn'). cbn [obind].
      rewrite (full_cover 0) by lia. rewrite (mask_val 0) by lia.
      change (2 ^ (4 * Z.of_nat 0) - 1) with 0. rewrite Z.lor_0_r, Hc1.
      rewrite Z.leb_refl. cbn [andb]. change (1 =? 2 ^ (4 * Z.of_nat 0)) with true.
      cbv iota. unfold found. rewrite Ha'.
      rewrite (proj2 (Z.leb_le f x)) by lia.
      rewrite (proj2 (Z.leb_le x l)) by lia. reflexivity.
  - pose proof (pow_pos h) as HM. pose proof (pow_S h) as HS.
    assert (HM28 : 2 ^ (4 * Z.of_nat h) <= 2 ^ 28) by (apply Z.pow_le_mono_r; lia).
    destruct (insert_cov (S h) fuel (fresh_node (S h) x) f l hp n' hp' Hfuel
                (fresh_child_awf (S h) x Hh) (fresh_cov (S h) x) E)
      as (Hn' & _ & Ha' & _).
    cbn [addr fresh_node] in Ha'.
    assert (Hn : awf (S h) (fresh_node (S h) x)) by exact (fresh_child_awf (S h) x Hh).
    destruct fuel as [|fuel]; [lia|].
    cbn [ip4a_insert_rec] in E. unfold ip4a_insert_body in E.
    rewrite (host_mask_awf _ _ Hn) in E. cbn [obind] in E.
    pose proof (mask_val (S h) Hh) as Hmask.
    set (mask := u32 (Z.shiftr 4294967295 (32 - 4 * Z.of_nat (S h)))) in *.
    change (addr (fresh_node (S h) x)) with x in E.
    change (plen (fresh_node (S h) x)) with (32 - 4 * Z.of_nat (S h)) in E.
    assert (Hlor : Z.lor x mask = x + 2 ^ (4 * Z.of_nat (S h)) - 1).
    { rewrite Hmask. rewrite (lor_add x _ (4 * Z.of_nat (S h))); lia. }
    rewrite Hlor in E.
    assert (HF : (if f <? x then x else f) = Z.max f x)
      by (destruct (Z.ltb_spec f x); lia).
    assert (HL : (if x + 2 ^ (4 * Z.of_nat (S h)) - 1 <? l
                  then x + 2 ^ (4 * Z.of_nat (S h)) - 1 else l)
                 = Z.min l (x + 2 ^ (4 * Z.of_nat (S h)) - 1))
      by (destruct (Z.ltb_spec (x + 2 ^ (4 * Z.of_nat (S h)) - 1) l); lia).
    rewrite HF, HL in E.
    set (F := Z.max f x) in *. set (L := Z.min l (x + 2 ^ (4 * Z.of_nat (S h)) - 1)) in *.
    assert (HFL : x <= F /\ F <= L /\ L <= x + 2 ^ (4 * Z.of_nat (S h)) - 1 /\
                  f <= F /\ L <= l) by (unfold F, L; lia).
    (* the slots of the addresses of the subnet *)
    assert (Hsb : forall b, x <= b <= x + 2 ^ (4 * Z.of_nat (S h)) - 1 ->
                    0 <= nibble h b < 16 /\
                    prefix h b = x + nibble h b * 2 ^ (4 * Z.of_nat h) /\
                    x + nibble h b * 2 ^ (4 * Z.of_nat h) <= b
                      < x + (nibble h b + 1) * 2 ^ (4 * Z.of_nat h)).
    { intros b Hb. pose proof (slot_bounds h x b) as Hs.
      rewrite (prefix_aligned (S h) x Hx) in Hs. exact (Hs Hb). }
    assert (Hsplen : u32 (32 - 4 * Z.of_nat (S h) + ip4a_bits) = 32 - 4 * Z.of_nat h).
    { unfold u32, ip4a_bits. rewrite Z.mod_small; lia. }
    rewrite Hsplen in E.
    assert (Hmax : (ip4a_maxplen <? 32 - 4 * Z.of_nat h) = false)
      by (apply Z.ltb_ge; unfold ip4a_maxplen; lia).
    rewrite Hmax, orb_false_r in E.
    match type of E with context [if ?b then Ret (0, collapse _ _, _) else _] =>
      destruct b eqn:Hb
    end.
    { (* the range covers the subnet *)
      injection E as E1 _.
      apply andb_true_iff in Hb. destruct Hb as [Hmin Hb].
      apply andb_true_iff in Hb. destruct Hb as [HbF HbL].
      apply Z.eqb_eq in HbF, HbL.
      destruct (collapse_cov (S h) _ Hn) as (_ & Hcv & _). fold mask in Hcv.
      rewrite E1 in Hcv.
      split; [exact Hn'|]. split; [exact Ha'|]. split.
      - rewrite Hcv, Ha'. unfold isize. fold F L. lia.
      - intros fuel0 a Hf0 Ha Hpa. destruct fuel0 as [|fuel0]; [lia|].
        rewrite (lookup_step h fuel0 n' a Hn'). rewrite Ha' in *.
        pose proof (subnet_range (S h) a) as Hr. rewrite Hpa in Hr.
        rewrite (lor_add x _ (4 * Z.of_nat (S h))) by lia.
        rewrite (proj2 (Z.leb_le _ _)) by lia.
        rewrite (proj2 (Z.leb_le _ _)) by lia. cbn [andb].
        rewrite Hcv, Z.eqb_refl. unfold found.
        rewrite (proj2 (Z.leb_le f a)) by lia.
        rewrite (proj2 (Z.leb_le a l)) by lia. reflexivity. }
    assert (Hk : u32 (32 - (32 - 4 * Z.of_nat h)) = 4 * Z.of_nat h).
    { unfold u32. rewrite Z.mod_small; lia. }
    rewrite Hk in E. unfold shr32 in E.
    rewrite (proj2 (Z.leb_le _ _)) in E by lia.
    rewrite (proj2 (Z.ltb_lt _ _)) in E by lia.
    cbn [andb obind] in E.
    change (Z.shiftl 1 ip4a_bits) with 16 in E.
    change (Z.shiftr F (4 * Z.of_nat h) mod 16) with (nibble h F) in E.
    change (Z.shiftr L (4 * Z.of_nat h) mod 16) with (nibble h L) in E.
    destruct (Hsb F ltac:(lia)) as (HnF & _ & HsF).
    destruct (Hsb L ltac:(lia)) as (HnL & _ & HsL).
    assert (Hord : nibble h F <= nibble h L) by nia.
    set (m := Z.to_nat (nibble h L - nibble h F + 1)).
    replace (nibble h L - nibble h F + 1) with (Z.of_nat m) in E by (unfold m; lia).
    assert (Hm : Z.of_nat m = nibble h L - nibble h F + 1) by (unfold m; lia).
    destruct (ip4a_insert_loop (ip4a_insert_rec fuel) (32 - 4 * Z.of_nat h) F L
                (seqZ (nibble h F) (Z.of_nat m)) (fresh_node (S h) x) hp)
      as [[[r n1] h1]|fl] eqn:Hloop; [|discriminate].
    cbn [obind] in E.
    destruct (Z.eqb_spec r 0) as [->|Hr]; [|inversion E; contradiction].
    destruct (loop_exact h (ip4a_insert_rec fuel) F L x ltac:(lia) Hx
                (fun i hp0 c' hp0' Hi Hnei Ec =>
                   IH fuel (x + i * 2 ^ (4 * Z.of_nat h)) F L hp0 c' hp0'
                      ltac:(lia) ltac:(lia) ltac:(nia)
                      (aligned_slot h x i (aligned_below h x Hx)) Hnei Ec)
                m (nibble h F) (fresh_node (S h) x) hp n1 h1)
      as (Hcn & Han & Hpn & Hln & Hout & Hin).
    { lia. }
    { lia. }
    { reflexivity. }
    { apply length_replicate. }
    { intros j Hj. cbn [sub fresh_node]. apply lookup_replicate_2.
      rewrite nsub_16. lia. }
    { intros i Hi. nia. }
    { cbn [coverage fresh_node]. lia. }
    { cbn [coverage fresh_node]. change (2 ^ 33) with (32 * 2 ^ 28). nia. }
    { exact Hloop. }
    cbn [coverage fresh_node plen] in Hcn, Hpn.
    assert (Hcount : coverage n1 = L - F + 1).
    { rewrite Hcn. unfold isize. nia. }
    (* no aggregation: the range does not cover the subnet *)
    match type of E with context [if ?b then _ else _] => destruct b eqn:Ht end.
    { exfalso.
      apply andb_true_iff in Ht. destruct Ht as [Ht Hge].
      apply andb_true_iff in Ht. destruct Ht as [Hmin _].
      rewrite Hpn in Hmin. rewrite Hmin in Hb. cbn [andb] in Hb.
      apply Z.leb_le in Hmin. unfold ip4a_minplen in Hmin.
      assert (Hmc : u32 (mask + 1) = 2 ^ (4 * Z.of_nat (S h))).
      { rewrite Hmask. unfold u32. rewrite Z.mod_small; [lia|].
        assert (2 ^ (4 * Z.of_nat h) <= 2 ^ 20) by (apply Z.pow_le_mono_r; lia).
        change (2 ^ 32) with (4096 * 2 ^ 20). lia. }
      rewrite Hmc in Hge. apply Z.leb_le in Hge.
      apply andb_false_iff in Hb.
      destruct Hb as [Hb|Hb]; apply Z.eqb_neq in Hb; lia. }
    injection E as E1 _. subst n1.
    split; [exact Hn'|]. split; [exact Ha'|]. split.
    + rewrite Hcount, Ha'. unfold isize. fold F L. lia.
    + intros fuel0 a Hf0 Ha Hpa. destruct fuel0 as [|fuel0]; [lia|].
      rewrite (lookup_step h fuel0 n' a Hn'). rewrite Ha' in *.
      pose proof (subnet_range (S h) a) as Hr. rewrite Hpa in Hr.
      rewrite (lor_add x _ (4 * Z.of_nat (S h))) by lia.
      rewrite (proj2 (Z.leb_le _ _)) by lia.
      rewrite (proj2 (Z.leb_le _ _)) by lia. cbn [andb].
      destruct (Z.eqb_spec (coverage n') (2 ^ (4 * Z.of_nat (S h)))) as [Efull|Efull].
      * unfold found.
        rewrite (proj2 (Z.leb_le f a)) by lia.
        rewrite (proj2 (Z.leb_le a l)) by lia. reflexivity.
      * destruct (Hsb a ltac:(lia)) as (Hna & Hpa' & Hsa).
        destruct (Z_le_dec (nibble h F) (nibble h a)) as [Hlo|Hlo];
          [destruct (Z_le_dec (nibble h a) (nibble h L)) as [Hhi|Hhi]|].
        -- destruct (Hin (nibble h a) ltac:(lia)) as (c' & Hslot & Hcw & Hca & Hce).
           rewrite Hslot.
           rewrite (proj2 Hce fuel0 a ltac:(lia) Ha ltac:(congruence)).
           f_equal. unfold F, L. apply found_clip. lia.
        -- rewrite (Hout (nibble h a)) by lia.
           cbn [sub fresh_node]. rewrite lookup_replicate_2 by (rewrite nsub_16; lia).
           unfold found.
           assert (l < a) by (unfold L in *; nia).
           rewrite (proj2 (Z.leb_gt a l)) by lia. rewrite andb_false_r. reflexivity.
        -- rewrite (Hout (nibble h a)) by lia.
           cbn [sub fresh_node]. rewrite lookup_replicate_2 by (rewrite nsub_16; lia).
           unfold found.
           assert (a < f) by (unfold F in *; nia).
           rewrite (proj2 (Z.leb_gt f a)) by lia. reflexivity.
Qed.

(** X16.  The first insertion is exact: after the successful insertion
    of the range [f..l] into the tree that [ip4a_new] returns,
    [ip4a_count] is the number of addresses of the range and
    [ip4a_lookup] returns 1 for the addresses of the range and 0 for
    all the others. *)
Theorem X16_first_insertion_is_exact h0 n h1 f l hp n' hp' :
  ip4a_new h0 = (Some n, h1) ->
  0 <= f -> f <= l -> l < 2 ^ 32 ->
  ip4a_insert n f l hp = Ret (0, n', hp') ->
  ip4a_count n' = l - f + 1 /\
  forall a, 0 <= a < 2 ^ 32 -> ip4a_lookup n' a = Ret (found f l a).
Proof.
  intros Hnew Hf Hfl Hl E.
  assert (Hn : n = fresh_node 8 0).
  { unfold ip4a_new in Hnew. destruct (calloc h0) as [[|] h2]; inversion Hnew.
    reflexivity. }
  subst n. unfold ip4a_insert in E.
  assert (Hu : forall a, 0 <= a < 2 ^ 32 -> u32 a = a)
    by (intros a Ha; unfold u32; apply Z.mod_small; exact Ha).
  rewrite (Hu f), (Hu l) in E by lia.
  destruct (insert_exact 8 depth_fuel 0 f l hp n' hp') as (_ & Ha' & Hcnt & Hlook).
  - unfold depth_fuel. lia.
  - lia.
  - lia.
  - reflexivity.
  - change (2 ^ (4 * Z.of_nat 8)) with (2 ^ 32). lia.
  - exact E.
  - split.
    + unfold ip4a_count. rewrite Hcnt, Ha'. unfold isize.
      change (2 ^ (4 * Z.of_nat 8)) with (2 ^ 32). lia.
    + intros a Ha. unfold ip4a_lookup. rewrite (Hu a Ha).
      apply Hlook; [unfold depth_fuel; lia|lia|].
      rewrite Ha'. apply prefix_8. exact Ha.
Qed.

(** ** The dump *)

Lemma append_nil_r s : String.append s EmptyString = s.
Proof. induction s as [|c s IH]; cbn; [reflexivity|]. rewrite IH. reflexivity. Qed.

Lemma append_assoc s1 s2 s3 :
  String.append (String.append s1 s2) s3 = String.append s1 (String.append s2 s3).
Proof. induction s1 as [|c s1 IH]; cbn; [reflexivity|]. rewrite IH. reflexivity. Qed.

Lemma render_app l1 l2 : render (l1 ++ l2) = String.append (render l1) (render l2).
Proof.
  induction l1 as [|[a p] l1 IH]; cbn [render app]; [reflexivity|].
  rewrite IH, append_assoc. reflexivity.
Qed.

(** [ip4a_fprint] writes the lines of the leaf nodes, in their order. *)
Lemma fprint_leaves h : forall n, awf h n -> ip4a_fprint n = render (leaves h n).
Proof.
  induction h as [|h IH]; intros n Hn.
  - destruct n as [a p lf c s]. cbn [ip4a_fprint leaves leaf addr plen].
    destruct lf; [cbn [render]; rewrite append_nil_r; reflexivity|].
    cbn [awf sub] in Hn. destruct Hn as (_ & _ & _ & _ & ->). reflexivity.
  - pose proof (awf_length _ _ Hn) as Hl.
    assert (Hc : forall i c, sub n !! i = Some (Some c) -> awf h c)
      by (intros i c; apply (awf_child h n); exact Hn).
    destruct n as [a p lf c s]. cbn [ip4a_fprint leaves leaf addr plen sub] in *.
    destruct lf; [cbn [render]; rewrite append_nil_r; reflexivity|].
    assert (Hlen : (length s <= nsub)%nat) by lia. clear Hl Hn.
    revert Hlen Hc. generalize nsub. induction s as [|o s IHs]; intros k Hlen Hc.
    + destruct k; reflexivity.
    + destruct k as [|k]; [cbn [length] in Hlen; lia|].
      cbn [map concat]. rewrite render_app.
      assert (Hc' : forall i c, s !! i = Some (Some c) -> awf h c)
        by (intros i c0 Hi; exact (Hc (S i) c0 Hi)).
      destruct o as [sn|].
      * rewrite <- (IH sn (Hc 0%nat sn eq_refl)).
        rewrite <- (IHs k ltac:(cbn [length] in Hlen; lia) Hc'). reflexivity.
      * cbn [render String.append].
        rewrite <- (IHs k ltac:(cbn [length] in Hlen; lia) Hc'). reflexivity.
Qed.

Lemma spans_app lo mid hi l1 l2 :
  spans lo mid l1 -> spans mid hi l2 -> spans lo hi (l1 ++ l2).
Proof.
  revert lo. induction l1 as [|[a p] l1 IH]; intros lo; cbn [spans app].
  - intros Hlo H2. destruct l2 as [|[a p] l2]; cbn [spans] in *.
    + lia.
    + split; [lia|tauto].
  - intros [Hlo H1] H2. split; [exact Hlo|]. apply IH; assumption.
Qed.

(** The leaves of a node lie side by side in its subnet, in ascending
    order. *)
Lemma leaves_span h : forall n,
  awf h n -> cov h n -> addr n mod 2 ^ (4 * Z.of_nat h) = 0 ->
  spans (addr n) (addr n + 2 ^ (4 * Z.of_nat h)) (leaves h n).
Proof.
  induction h as [|h IH]; intros n Hn Hc Ha;
    pose proof (awf_plen _ _ Hn) as Hp; cbn [leaves].
  - destruct (leaf n); cbn [spans]; [|lia].
    rewrite Hp. change (32 - (32 - 4 * Z.of_nat 0)) with (4 * Z.of_nat 0). lia.
  - pose proof (pow_pos h) as HM. pose proof (pow_S h) as HS.
    pose proof (awf_height _ _ Hn) as Hh.
    destruct (leaf n); cbn [spans].
    { rewrite Hp. replace (32 - (32 - 4 * Z.of_nat (S h))) with (4 * Z.of_nat (S h)) by lia.
      lia. }
    pose proof (awf_length _ _ Hn) as Hl. rewrite nsub_16 in Hl.
    assert (Hkids : forall j c, sub n !! j = Some (Some c) ->
               addr c = addr n + Z.of_nat j * 2 ^ (4 * Z.of_nat h) /\
               awf h c /\ cov h c).
    { intros j c Hj. destruct (cov_kids _ _ Hc _ _ Hj) as (Hca & _ & Hcc).
      split; [|split; [exact (awf_child _ _ _ _ Hn Hj)|exact Hcc]].
      rewrite Hca, Z.shiftl_mul_pow2 by lia.
      apply (lor_add _ _ (4 * Z.of_nat (S h))); [lia|exact Ha|].
      apply lookup_lt_Some in Hj. rewrite HS. nia. }
    rewrite HS.
    replace (16 * 2 ^ (4 * Z.of_nat h))
      with ((Z.of_nat 0 + Z.of_nat (length (sub n))) * 2 ^ (4 * Z.of_nat h)) by lia.
    replace (addr n) with (addr n + Z.of_nat 0 * 2 ^ (4 * Z.of_nat h)) at 1 by lia.
    assert (Hk : forall j c, sub n !! j = Some (Some c) ->
               addr c = addr n + Z.of_nat (0 + j) * 2 ^ (4 * Z.of_nat h) /\
               awf h c /\ cov h c) by exact Hkids.
    clear Hkids Hl Hn Hc Hp. revert Hk. generalize 0%nat.
    induction (sub n) as [|o s IHs]; intros i0 Hk; cbn [map concat length].
    + cbn [spans]. nia.
    + apply (spans_app _ (addr n + Z.of_nat (S i0) * 2 ^ (4 * Z.of_nat h))).
      * destruct o as [c|]; [|cbn [spans]; nia].
        destruct (Hk 0%nat c eq_refl) as (Hca & Hcw & Hcc).
        rewrite Nat.add_0_r in Hca.
        replace (addr n + Z.of_nat (S i0) * 2 ^ (4 * Z.of_nat h))
          with (addr c + 2 ^ (4 * Z.of_nat h)) by (rewrite Hca; lia).
        rewrite <- Hca. apply IH; [exact Hcw|exact Hcc|].
        rewrite Hca. apply aligned_slot. apply aligned_below. exact Ha.
      * replace (Z.of_nat i0 + Z.of_nat (S (length s)))
          with (Z.of_nat (S i0) + Z.of_nat (length s)) by lia.
        apply IHs. intros j c Hj.
        destruct (Hk (S j) c Hj) as (Hca & Hcw & Hcc).
        split; [|auto]. rewrite Hca. f_equal. f_equal. lia.
Qed.

(** X17.  The dump is in order.  On every tree built by [ip4a_new] and
    successful insertions, [ip4a_fprint] writes one line per leaf node,
    and the subnets of these lines follow one another in the address
    space: each begins at or after the end of the one before, so they
    ascend and no two of them overlap. *)
Theorem X17_dump_is_in_ascending_order n :
  reachable n ->
  ip4a_fprint n = render (leaves 8 n) /\ spans 0 (2 ^ 32) (leaves 8 n).
Proof.
  intros Hr. destruct (reachable_cov n Hr) as (Hn & Hc & Ha).
  split; [exact (fprint_leaves 8 n Hn)|].
  pose proof (leaves_span 8 n Hn Hc) as Hs. rewrite Ha in Hs.
  apply Hs. reflexivity.
Qed.

End Ip4aggMore.

(** * The dump of the tracker *)

Module ArpPrintMore.
Import Arp ArpSpec ArpPrint ArpBits ArpTree ArpWorld ArpAnalyzer ArpMore.
Import Ip4aggSpec.

(** [arp_print_tree] returns, with the lines of the /32 records in the
    order of the slots. *)
Lemma print_records h : forall fuel n,
  (h < fuel)%nat -> twf h n ->
  arp_print_tree fuel n = Ret (render (records h n)).
Proof.
  induction h as [|h IH]; intros fuel n Hfuel Hn;
    (destruct fuel as [|fuel]; [lia|]);
    pose proof (twf_plen _ _ Hn) as Hp; cbn [arp_print_tree records].
  - rewrite Hp. change (32 - 4 * Z.of_nat 0 =? 32) with true. cbv iota.
    cbn [render]. rewrite Ip4aggMore.append_nil_r. reflexivity.
  - pose proof (twf_height _ _ Hn) as Hh.
    destruct (twf_sub _ _ Hn) as (s & Hs & Hl & Hc).
    destruct (Z.eqb_spec (plen n) 32) as [E|_]; [lia|].
    unfold get_sub. rewrite Hs. cbn [obind].
    assert (Hk : forall i c, s !! i = Some (Some c) -> twf h c)
      by (intros i c Hi; exact (proj2 (Hc i c Hi))).
    assert (Hin : forall (l : list (option arpn)) k,
               length l = k ->
               (forall i c, l !! i = Some (Some c) -> twf h c) ->
               (fix each (k : nat) (l : list (option arpn)) : outcome string :=
                  match k with
                  | O => Ret EmptyString
                  | S k' =>
                      match l with
                      | [] => Stuck Undefined
                      | None :: l' => each k' l'
                      | Some sn :: l' =>
                          s1 <-- arp_print_tree fuel sn ;;
                          s2 <-- each k' l' ;;
                          Ret (String.append s1 s2)
                      end
                  end) k l
               = Ret (render (concat (map (fun o : option arpn =>
                                             match o with
                                             | Some c => records h c
                                             | None => []
                                             end) l)))).
    { clear s Hs Hl Hk Hc. induction l as [|o l IHl]; intros k Hl Hk;
        cbn [length] in Hl; subst k.
      - reflexivity.
      - cbn [map concat]. rewrite Ip4aggMore.render_app.
        assert (Hk' : forall i c, l !! i = Some (Some c) -> twf h c)
          by (intros i c0 Hi; exact (Hk (S i) c0 Hi)).
        destruct o as [sn|].
        + rewrite (IH fuel sn ltac:(lia) (Hk 0%nat sn eq_refl)). cbn [obind].
          rewrite (IHl (length l) eq_refl Hk'). reflexivity.
        + cbn [render String.append]. exact (IHl (length l) eq_refl Hk'). }
    exact (Hin s nslot Hl Hk).
Qed.

Lemma in_records_below h (s : list (option arpn)) x :
  In x (concat (map (fun o : option arpn =>
                       match o with
                       | Some c => records h c
                       | None => []
                       end) s)) <->
  exists j c, s !! j = Some (Some c) /\ In x (records h c).
Proof.
  induction s as [|o s IHs]; cbn [map concat].
  - split; [intros []|]. intros (j & c & Hj & _). destruct j; discriminate.
  - rewrite in_app_iff, IHs. split.
    + intros [Hx|(j & c & Hj & Hx)].
      * destruct o as [c|]; [|destruct Hx]. exists 0%nat, c. auto.
      * exists (S j), c. auto.
    + intros (j & c & Hj & Hx). destruct j as [|j].
      * cbn in Hj. inversion Hj. subst o. left. exact Hx.
      * right. exists j, c. auto.
Qed.

(** Every record listed has prefix length 32. *)
Lemma records_plen h : forall n x, twf h n -> In x (records h n) -> snd x = 32.
Proof.
  induction h as [|h IH]; intros n x Hn Hx; cbn [records] in Hx.
  - destruct Hx as [<-|[]]. exact (twf_plen _ _ Hn).
  - destruct (twf_sub _ _ Hn) as (s & Hs & Hl & Hc). rewrite Hs in Hx.
    apply in_records_below in Hx. destruct Hx as (j & c & Hj & Hx).
    exact (IH c x (proj2 (Hc j c Hj)) Hx).
Qed.

(** The address of the child in a slot. *)
Lemma child_addr h n s j c :
  twf (S h) n -> data n = Sub s -> addr n mod 2 ^ (4 * Z.of_nat (S h)) = 0 ->
  s !! j = Some (Some c) ->
  (j < 16)%nat /\ twf h c /\
  addr c = addr n + Z.of_nat j * 2 ^ (4 * Z.of_nat h) /\
  addr c mod 2 ^ (4 * Z.of_nat h) = 0.
Proof.
  intros Hn Hs Ha Hj.
  destruct (twf_sub _ _ Hn) as (s' & Hs' & Hl & Hc).
  assert (s' = s) by congruence. subst s'.
  destruct (Hc j c Hj) as [Hca Hcw].
  pose proof (lookup_lt_Some _ _ _ Hj) as Hlt. rewrite Hl in Hlt.
  pose proof (Ip4aggMore.pow_pos h) as HM. pose proof (Ip4aggMore.pow_S h) as HS.
  assert (Hadd : addr c = addr n + Z.of_nat j * 2 ^ (4 * Z.of_nat h)).
  { rewrite Hca, Z.shiftl_mul_pow2 by lia.
    apply (Ip4aggMore.lor_add _ _ (4 * Z.of_nat (S h))); [lia|exact Ha|].
    rewrite HS. nia. }
  split; [exact Hlt|]. split; [exact Hcw|]. split; [exact Hadd|].
  rewrite Hadd. apply Ip4aggMore.aligned_slot. apply Ip4aggMore.aligned_below. exact Ha.
Qed.

(** The records of a node lie in its subnet, in ascending order. *)
Lemma records_span h : forall n,
  twf h n -> addr n mod 2 ^ (4 * Z.of_nat h) = 0 ->
  spans (addr n) (addr n + 2 ^ (4 * Z.of_nat h)) (records h n).
Proof.
  induction h as [|h IH]; intros n Hn Ha; cbn [records].
  - cbn [spans]. rewrite (twf_plen _ _ Hn).
    change (32 - (32 - 4 * Z.of_nat 0)) with (4 * Z.of_nat 0). lia.
  - pose proof (Ip4aggMore.pow_pos h) as HM. pose proof (Ip4aggMore.pow_S h) as HS.
    destruct (twf_sub _ _ Hn) as (s & Hs & Hl & _). rewrite Hs.
    assert (Hk : forall j c, s !! j = Some (Some c) ->
               twf h c /\
               addr c = addr n + Z.of_nat (0 + j) * 2 ^ (4 * Z.of_nat h) /\
               addr c mod 2 ^ (4 * Z.of_nat h) = 0).
    { intros j c Hj. destruct (child_addr h n s j c Hn Hs Ha Hj) as (_ & H1 & H2 & H3).
      auto. }
    rewrite HS.
    replace (16 * 2 ^ (4 * Z.of_nat h))
      with ((Z.of_nat 0 + Z.of_nat (length s)) * 2 ^ (4 * Z.of_nat h)) by lia.
    replace (addr n) with (addr n + Z.of_nat 0 * 2 ^ (4 * Z.of_nat h)) at 1 by lia.
    clear Hl Hs Hn. revert Hk. generalize 0%nat.
    induction s as [|o s IHs]; intros i0 Hk; cbn [map concat length].
    + cbn [spans]. nia.
    + apply (Ip4aggMore.spans_app _ (addr n + Z.of_nat (S i0) * 2 ^ (4 * Z.of_nat h))).
      * destruct o as [c|]; [|cbn [spans]; nia].
        destruct (Hk 0%nat c eq_refl) as (Hcw & Hca & Hcm).
        rewrite Nat.add_0_r in Hca.
        replace (addr n + Z.of_nat (S i0) * 2 ^ (4 * Z.of_nat h))
          with (addr c + 2 ^ (4 * Z.of_nat h)) by (rewrite Hca; lia).
        rewrite <- Hca. apply IH; assumption.
      * replace (Z.of_nat i0 + Z.of_nat (S (length s)))
          with (Z.of_nat (S i0) + Z.of_nat (length s)) by lia.
        apply IHs. intros j c Hj.
        destruct (Hk (S j) c Hj) as (Hcw & Hca & Hcm).
        split; [exact Hcw|]. split; [|exact Hcm].
        rewrite Hca. f_equal. f_equal. lia.
Qed.

(** The slot and the subnet of an address, from the subnet one level
    down. *)
Lemma slot_unique h x j a :
  x mod 2 ^ (4 * Z.of_nat (S h)) = 0 -> 0 <= j < 16 ->
  prefix h a = x + j * 2 ^ (4 * Z.of_nat h) ->
  prefix (S h) a = x /\ nibble h a = j.
Proof.
  intros Hx Hj Hp.
  pose proof (Ip4aggMore.pow_pos h) as HM. pose proof (Ip4aggMore.pow_S h) as HS.
  rewrite Ip4aggMore.prefix_div in *. rewrite Ip4aggMore.nibble_div.
  rewrite HS in *. set (M := 2 ^ (4 * Z.of_nat h)) in *.
  apply Z.mod_divide in Hx; [|lia]. destruct Hx as [q Hq].
  assert (Hd : a / M = 16 * q + j) by nia.
  assert (Hq16 : a / (16 * M) = q).
  { replace (16 * M) with (M * 16) by lia.
    rewrite <- Z.div_div by lia. rewrite Hd.
    symmetry. apply (Z.div_unique _ 16 q j); lia. }
  split.
  - rewrite Hq16. lia.
  - rewrite Hd. symmetry. apply (Z.mod_unique _ 16 q j); lia.
Qed.

(** The records listed are those that [arp_lookup] reaches. *)
Lemma records_mem h : forall n a,
  twf h n -> addr n mod 2 ^ (4 * Z.of_nat h) = 0 ->
  In (a, 32) (records h n) <->
  (prefix h a = addr n /\ deref n (path_of h a) <> None).
Proof.
  induction h as [|h IH]; intros n a Hn Ha; cbn [records path_of deref].
  - rewrite prefix_0. pose proof (twf_plen _ _ Hn) as Hp. split.
    + intros [E|[]]. inversion E. split; [reflexivity|discriminate].
    + intros [E _]. left. rewrite Hp, E. reflexivity.
  - destruct (twf_sub _ _ Hn) as (s & Hs & Hl & Hc). rewrite Hs.
    rewrite in_records_below. split.
    + intros (j & c & Hj & Hin).
      destruct (child_addr h n s j c Hn Hs Ha Hj) as (Hlt & Hcw & Hca & Hcm).
      apply (IH c a Hcw Hcm) in Hin. destruct Hin as [Hpa Hd].
      destruct (slot_unique h (addr n) (Z.of_nat j) a Ha ltac:(lia)
                  ltac:(congruence)) as [Hp1 Hnib].
      split; [exact Hp1|]. rewrite Hnib, Nat2Z.id, Hj. exact Hd.
    + intros [Hpa Hd].
      destruct (s !! Z.to_nat (nibble h a)) as [[c|]|] eqn:Hj; try contradiction.
      destruct (child_addr h n s _ c Hn Hs Ha Hj) as (Hlt & Hcw & Hca & Hcm).
      exists (Z.to_nat (nibble h a)), c. split; [exact Hj|].
      apply (IH c a Hcw Hcm). split; [|exact Hd].
      destruct (Hc _ c Hj) as [Hlor _].
      rewrite Hlor, <- Hpa, Z2Nat.id by (pose proof (nibble_range h a); lia).
      symmetry. apply prefix_step.
Qed.

Section Print.

Variable env : arp_env.

(** X18.  The dump of the tracker lists what [arp_lookup] finds.  In
    every reachable state [arp_print_tree], called on the root, returns
    and writes one line per /32 record, a dotted quad without prefix
    length; the lines are in strictly ascending order of address; and an
    address is among them exactly if [arp_lookup] returns 0 for it. *)
Theorem X18_dump_lists_the_known_addresses w :
  reachable env w ->
  arp_print_tree depth_fuel (arp_root w) = Ret (render (records 8 (arp_root w))) /\
  spans 0 (2 ^ 32) (records 8 (arp_root w)) /\
  (forall x, In x (records 8 (arp_root w)) -> snd x = 32) /\
  (forall ip4 ether,
      In (be32toh_q ip4, 32) (records 8 (arp_root w)) <->
      exists mac, arp_lookup ip4 ether w = Ret ((0, mac), w)).
Proof.
  intros Hreach. pose proof (reachable_wwf env w Hreach) as Hw.
  destruct Hw as [Ht H0].
  split; [apply print_records; [unfold depth_fuel; lia|exact Ht]|].
  split.
  { pose proof (records_span 8 (arp_root w) Ht) as Hs. rewrite H0 in Hs.
    apply Hs. reflexivity. }
  split; [intros x; apply records_plen; exact Ht|].
  intros ip4 ether.
  rewrite (records_mem 8 (arp_root w) (be32toh_q ip4) Ht)
    by (rewrite H0; reflexivity).
  rewrite (arp_lookup_spec w ip4 ether (conj Ht H0)).
  fold (rec_at w (be32toh_q ip4)).
  rewrite H0, (prefix_8 _ (be32toh_q_range ip4)).
  destruct (rec_at w (be32toh_q ip4)) as [lf|]; split.
  - intros _. eauto.
  - intros _. split; [reflexivity|discriminate].
  - intros [_ H]. contradiction.
  - intros [mac H]. discriminate.
Qed.

End Print.

End ArpPrintMore.

(** * The further properties on the examples *)

Module ArpMoreWitnesses.
Import Arp ArpSpec MoreSpec ArpExamples MoreExamples ArpWorld ArpMore.

Lemma ex_step fl ap len w w' :
  reachable ex_env w -> ex_analyze fl ap len w = Ret (0, w') -> reachable ex_env w'.
Proof.
  intros Hw E. apply (reachable_step ex_env (EvAnalyze fl ap len) w w' Hw).
  cbn [exec]. unfold ex_analyze in E. rewrite E. reflexivity.
Defined.

Lemma ex_w3_reachable : reachable ex_env ex_w3.
Proof.
  apply (ex_step (ex_flow 3000) ex_request 28 ex_w2); [|vm_compute; reflexivity].
  apply (ex_step (ex_flow 1000) ex_request 28 ex_w1); [|vm_compute; reflexivity].
  apply (ex_step (ex_flow 0) ex_request 28 ex_init); [|vm_compute; reflexivity].
  apply reachable_init.
Defined.

Lemma ex_w4_reachable : reachable ex_env ex_w4.
Proof.
  apply (ex_step (ex_flow 3500) ex_request 28 ex_w3); [|vm_compute; reflexivity].
  exact ex_w3_reachable.
Defined.

Lemma ex_registered_reachable : reachable ex_env ex_registered.
Proof.
  apply (reachable_step ex_env (EvRegister ex_target ex_mac 0) ex_init).
  - apply reachable_init.
  - vm_compute. reflexivity.
Defined.

Lemma ex_memory : forall i, (i < 8)%nat -> mem ex_init !! i = Some true.
Proof. intros i Hi. do 8 (destruct i as [|i]; [reflexivity|]). lia. Defined.

(** X1 on the example: registering 10.0.0.5 leaves 10.0.0.1 as it was. *)
Lemma X1_witness :
  exists x,
    arp_lookup ex_sender ether_zero ex_init = Ret (x, ex_init) /\
    arp_lookup ex_sender ether_zero ex_registered = Ret (x, ex_registered).
Proof.
  apply (X1_register_touches_one_address ex_env ex_init ex_target ex_mac 0 0).
  - apply reachable_init.
  - vm_compute. reflexivity.
  - discriminate.
Defined.

(** X2 on the example: 10.0.0.5 registered, then reserved. *)
Lemma X2_witness :
  (forall ip4' ether mac,
      arp_lookup ip4' ether ex_registered = Ret ((0, mac), ex_registered) ->
      arp_lookup ip4' ether ex_registered_reserved
      = Ret ((0, mac), ex_registered_reserved)) /\
  (forall ip4' ether,
      ip4' <> ex_target ->
      arp_lookup ip4' ether ex_registered = Ret ((-1, ether), ex_registered) ->
      arp_lookup ip4' ether ex_registered_reserved
      = Ret ((-1, ether), ex_registered_reserved)) /\
  (0 = 0 -> forall ether, exists mac,
      arp_lookup ex_target ether ex_registered_reserved
      = Ret ((0, mac), ex_registered_reserved)).
Proof.
  apply (X2_reserve_keeps_mappings ex_env ex_registered ex_target 0).
  - exact ex_registered_reachable.
  - vm_compute. reflexivity.
Defined.

(** X3 on the example: 10.0.0.5 registered; then it is reserved and
    probed. *)
Lemma X3_witness :
  exists lf',
    rec_at ex_registered_probed (be32toh_q ex_target) = Some lf' /\
    flags_kept ex_rec_registered lf' /\
    arp_lookup ex_target ether_zero ex_registered_probed
    = Ret ((0, ether_of lf'), ex_registered_probed).
Proof.
  apply (X3_records_and_flags_persist ex_env
           [EvReserve ex_target; EvAnalyze (ex_flow 0) ex_request 28]
           ex_registered).
  - exact ex_registered_reachable.
  - vm_compute. reflexivity.
  - vm_compute. reflexivity.
Defined.

(** X4 on the example: the first request registers 10.0.0.1. *)
Lemma X4_witness :
  arp_lookup ex_sender ether_zero ex_w1 = Ret ((0, ex_mac), ex_w1) \/
  (arp_lookup ex_sender ether_zero ex_init = Ret ((-1, ether_zero), ex_init) /\
   arp_lookup ex_sender ether_zero ex_w1 = Ret ((-1, ether_zero), ex_w1)).
Proof.
  apply (X4_request_registers_sender ex_env (ex_flow 0) ex_request 28 ex_init 0).
  - apply reachable_init.
  - reflexivity.
  - reflexivity.
  - discriminate.
  - vm_compute. reflexivity.
Defined.

(** X5 on the example: an announcement in the initial state. *)
Lemma X5_witness :
  0 = 0 /\ sent ex_announced = sent ex_init /\
  (arp_lookup ex_target ether_zero ex_announced = Ret ((0, ex_ifmac), ex_announced) \/
   arp_lookup ex_target ether_zero ex_announced = Ret ((-1, ether_zero), ex_announced)) /\
  (ex_sender <> ex_target ->
   arp_lookup ex_sender ether_zero ex_announced = Ret ((0, ex_mac), ex_announced) \/
   arp_lookup ex_sender ether_zero ex_announced = Ret ((-1, ether_zero), ex_announced)) /\
  (forall ip4, ip4 <> ex_sender -> ip4 <> ex_target ->
   exists x, arp_lookup ip4 ether_zero ex_init = Ret (x, ex_init) /\
             arp_lookup ip4 ether_zero ex_announced = Ret (x, ex_announced)).
Proof.
  apply (X5_announcement_registers_both ex_env (ex_flow 0) ex_announcement 28
           ex_init 0 ex_announced ether_zero).
  - apply reachable_init.
  - reflexivity.
  - vm_compute. reflexivity.
Defined.

(** X6 on the example: the fourth request, which is answered. *)
Lemma X6_witness :
  sent ex_w4 = sent ex_w3 \/
  (sent ex_w4 = sent ex_w3 ++ [reply_to ex_env (ex_flow 3500) ex_request] /\
   is_request ex_env ex_request 28 = true /\
   out_of_bounds ex_env (be32toh_q (tpa ex_request)) = false /\
   exists lf, rec_at ex_w4 (be32toh_q (tpa ex_request)) = Some lf /\
              claimed lf = true /\ reserved lf = false).
Proof.
  apply (X6_at_most_one_reply ex_env (ex_flow 3500) ex_request 28 ex_w3 0).
  - exact ex_w3_reachable.
  - vm_compute. reflexivity.
Defined.

(** X7 on the example: 10.0.0.5 is claimed by the fourth request. *)
Lemma X7_witness :
  exists lf,
    rec_at ex_w3 (be32toh_q ex_target) = Some lf /\
    (claimed lf = true \/
     (tpa ex_request = ex_target /\ spa ex_request <> ex_target /\
      is_request ex_env ex_request 28 = true /\
      reserved lf = false /\ 3 <= nreq_of lf /\
      3000 <= u64 (timestamp (ex_flow 3500) - first lf) /\
      u64 (timestamp (ex_flow 3500) - last lf) < 30000 /\
      sent ex_w4 = sent ex_w3 ++ [reply_to ex_env (ex_flow 3500) ex_request])).
Proof.
  apply (X7_claimed_only_after_three_requests ex_env (ex_flow 3500) ex_request 28
           ex_w3 0 ex_w4 ex_target ex_rec_claimed).
  - exact ex_w3_reachable.
  - vm_compute. reflexivity.
  - vm_compute. reflexivity.
  - reflexivity.
Defined.

(** X8 on the example: the fifth request, for the claimed 10.0.0.5. *)
Lemma X8_witness :
  sent ex_w5 = sent ex_w4 ++ [reply_to ex_env (ex_flow 4000) ex_request] /\
  exists lf',
    rec_at ex_w5 (be32toh_q (tpa ex_request)) = Some lf' /\
    claimed lf' = true /\ reserved lf' = false /\ nreq_of lf' = 0 /\
    first lf' = first ex_rec_claimed /\ last lf' = timestamp (ex_flow 4000).
Proof.
  apply (X8_claimed_address_is_answered ex_env (ex_flow 4000) ex_request 28
           ex_w4 0 ex_w5 ex_rec_claimed).
  - exact ex_w4_reachable.
  - reflexivity.
  - reflexivity.
  - vm_compute. reflexivity.
  - reflexivity.
  - reflexivity.
  - vm_compute. reflexivity.
Defined.

(** X9 on the example: 10.0.0.5 inserted again after the first request. *)
Lemma X9_witness :
  arp_insert (be32toh_q ex_target) 5000 ex_w1
  = Ret (Some (path_of 8 (u32 (be32toh_q ex_target))), ex_w1).
Proof.
  apply (X9_insert_of_known_address_changes_nothing ex_env
           (be32toh_q ex_target) 5000 ex_w1 ex_rec_probed).
  - apply (ex_step (ex_flow 0) ex_request 28 ex_init); [|vm_compute; reflexivity].
    apply reachable_init.
  - vm_compute. reflexivity.
Defined.

(** X10 on the example: 10.0.0.5 inserted in the initial state. *)
Lemma X10_witness :
  exists k, (k <= 8)%nat /\ mem ex_inserted = drop k (mem ex_init) /\
    ((forall i, (i < 8)%nat -> mem ex_init !! i = Some true) ->
     Some (path_of 8 (be32toh_q ex_target))
     = Some (path_of 8 (u32 (be32toh_q ex_target))) /\
     exists lf, rec_at ex_inserted (u32 (be32toh_q ex_target)) = Some lf).
Proof.
  apply (X10_insert_allocates_at_most_eight ex_env (be32toh_q ex_target) 0 ex_init).
  - apply reachable_init.
  - vm_compute. reflexivity.
Defined.

(** X11 on the example: 10.0.0.5 registered again, seven milliseconds
    later. *)
Lemma X11_witness :
  arp_register ex_target ex_mac 7 ex_registered = Ret (0, ex_registered).
Proof.
  apply (X11_register_again_changes_nothing ex_env ex_target ex_mac 0 7 ex_init).
  - apply reachable_init.
  - vm_compute. reflexivity.
Defined.

(** X12 on the example: the initial state has memory for 64 nodes. *)
Lemma X12_witness :
  exists w',
    arp_register ex_target ex_mac 0 ex_init = Ret (0, w') /\
    arp_lookup ex_target ether_zero w' = Ret ((0, ex_mac), w').
Proof.
  apply (X12_register_succeeds_with_memory ex_env ex_target ex_mac 0 ex_init).
  - apply reachable_init.
  - exact ex_memory.
Defined.

(** X13 on the example. *)
Lemma X13_witness :
  exists w' lf,
    arp_reserve ex_target ex_init = Ret (0, w') /\
    rec_at w' (be32toh_q ex_target) = Some lf /\ reserved lf = true.
Proof.
  apply (X13_reserve_succeeds_with_memory ex_env ex_target ex_init).
  - apply reachable_init.
  - exact ex_memory.
Defined.

(** X20 on the example: the fourth request, with an interface that
    accepts the reply. *)
Lemma X20_witness :
  (is_request ex_env ex_request 28 = true ->
   out_of_bounds ex_env (be32toh_q (tpa ex_request)) = true -> 0 = 0 /\ ex_w4 = ex_w3) /\
  (0 = 0 \/
   (0 = -1 /\
    (28 < sizeof_arp_pkt ex_env \/
     (is_request ex_env ex_request 28 = true /\
      out_of_bounds ex_env (be32toh_q (tpa ex_request)) = false /\
      (rec_at ex_w4 (be32toh_q (tpa ex_request)) = None \/
       sent ex_w4 = sent ex_w3 ++ [reply_to ex_env (ex_flow 3500) ex_request]))))).
Proof.
  apply (X20_result_of_the_analyzer ex_env (ex_flow 3500) ex_request 28 ex_w3 0 ex_w4).
  - exact ex_w3_reachable.
  - vm_compute. reflexivity.
Defined.

(** X18 on the example: the dump after the first request. *)
Lemma X18_witness :
  ArpPrint.arp_print_tree depth_fuel (arp_root ex_w1)
  = Ret (Ip4aggSpec.render (ArpPrint.records 8 (arp_root ex_w1))) /\
  Ip4aggSpec.spans 0 (2 ^ 32) (ArpPrint.records 8 (arp_root ex_w1)) /\
  (forall x, In x (ArpPrint.records 8 (arp_root ex_w1)) -> snd x = 32) /\
  (forall ip4 ether,
      In (be32toh_q ip4, 32) (ArpPrint.records 8 (arp_root ex_w1)) <->
      exists mac, arp_lookup ip4 ether ex_w1 = Ret ((0, mac), ex_w1)).
Proof.
  apply (ArpPrintMore.X18_dump_lists_the_known_addresses ex_env ex_w1).
  apply (ex_step (ex_flow 0) ex_request 28 ex_init); [|vm_compute; reflexivity].
  apply reachable_init.
Defined.

End ArpMoreWitnesses.

Module Ip4aggMoreWitnesses.
Import Ip4agg Ip4aggFacts Ip4aggSpec Ip4aggMoreExamples Ip4aggMore.

Lemma ex_fresh_reachable : reachable fresh_root.
Proof. exact (reachable_new plenty _ _ fresh_root_new). Defined.

Lemma ex_first_reachable : reachable (fst ex_first).
Proof.
  apply (reachable_insert fresh_root (quad 10 0 0 0) (quad 10 0 0 14) plenty
           (fst ex_first) (snd ex_first) ex_fresh_reachable).
  vm_compute. reflexivity.
Defined.

(** X14 on the example: 10.0.0.15 in the tree holding 10.0.0.0-10.0.0.14. *)
Lemma X14_witness :
  ip4a_lookup (fst ex_first) (quad 10 0 0 15) = Ret 0 \/
  ip4a_lookup (fst ex_first) (quad 10 0 0 15) = Ret 1.
Proof.
  apply (X14_lookup_returns_zero_or_one (fst ex_first) (quad 10 0 0 15)).
  exact (reachable_built _ ex_first_reachable).
Defined.

(** X15 on the example: 10.0.0.9, of the first of two ranges inserted. *)
Lemma X15_witness : ip4a_lookup (fst ex_second) (quad 10 0 0 9) = Ret 1.
Proof.
  apply (X15_inserted_addresses_are_found fresh_root
           [(quad 10 0 0 0, quad 10 0 0 14); (quad 10 0 0 0, quad 10 0 0 0)]
           plenty (fst ex_second) (snd ex_second)
           (quad 10 0 0 0) (quad 10 0 0 14) (quad 10 0 0 9)).
  - exact ex_fresh_reachable.
  - vm_compute. reflexivity.
  - apply list_elem_of_here.
  - vm_compute. discriminate.
  - vm_compute. split; discriminate.
  - vm_compute. reflexivity.
Defined.

(** X16 on the example: 10.0.0.0-10.0.0.14 inserted into a new tree. *)
Lemma X16_witness :
  ip4a_count (fst ex_first) = quad 10 0 0 14 - quad 10 0 0 0 + 1 /\
  forall a, 0 <= a < 2 ^ 32 ->
    ip4a_lookup (fst ex_first) a = Ret (found (quad 10 0 0 0) (quad 10 0 0 14) a).
Proof.
  apply (X16_first_insertion_is_exact plenty fresh_root (replicate 63 true)
           (quad 10 0 0 0) (quad 10 0 0 14) plenty (fst ex_first) (snd ex_first)).
  - reflexivity.
  - vm_compute. discriminate.
  - vm_compute. discriminate.
  - vm_compute. reflexivity.
  - vm_compute. reflexivity.
Defined.

(** X17 on the example: the dump of the tree holding
    10.0.0.0-10.0.0.14. *)
Lemma X17_witness :
  ip4a_fprint (fst ex_first) = render (leaves 8 (fst ex_first)) /\
  spans 0 (2 ^ 32) (leaves 8 (fst ex_first)).
Proof.
  apply (X17_dump_is_in_ascending_order (fst ex_first)).
  exact ex_first_reachable.
Defined.

(** X19 on the example: an insertion into the tree holding
    10.0.0.0-10.0.0.14, with an oracle that grants one allocation and
    refuses the next. *)
Lemma X19_witness :
  exists r n' hp',
    ip4a_insert (fst ex_first) (quad 10 0 1 0) (quad 10 0 1 1) [true; false]
    = Ret (r, n', hp') /\
    trace r [true; false] hp' /\ built n' /\ awf 8 n'.
Proof.
  apply (X19_insert_fails_only_without_memory (fst ex_first)
           (quad 10 0 1 0) (quad 10 0 1 1) [true; false]).
  exact (reachable_built _ ex_first_reachable).
Defined.

End Ip4aggMoreWitnesses.
